(** * wb-rules: the ECMAScript engine bridge (wbrules/esengine.go)

    A shallow embedding of the script-host adapter of the rule engine:
    module-local object ids, the [require] resolver, script (re)loading,
    rule definition, timers and the persistent key-value store.

    Go strings are byte strings and are modelled by [string]; Go maps by
    stdpp's [gmap]; ECMAScript numbers (Go [float64]) by the IEEE 754
    model of the Standard Library ([spec_float], binary64). *)

From Stdlib Require Import ZArith String Ascii List Bool SpecFloat Lia.
From stdpp Require Import gmap strings list sorting pretty.

Set Warnings "-register-all".

Local Open Scope string_scope.
Local Open Scope Z_scope.

(** ** Go standard library: bytes of a string *)

Definition byte_of_ascii (c : ascii) : Z := Z.of_N (N_of_ascii c).

(** [[]byte(s)] *)
Definition bytes_of_string (s : string) : list Z :=
  map byte_of_ascii (list_ascii_of_string s).

(** ** Go standard library: crypto/md5 (RFC 1321)

    [md5.Sum] is not part of the repository; it is modelled after
    RFC 1321 and checked below against the test suite of the RFC. *)
Module md5.

(** [md5.Size] *)
Definition Size : nat := 16.

Definition w32 (x : Z) : Z := x mod 2 ^ 32.

Definition rotl32 (x s : Z) : Z :=
  w32 (Z.lor (Z.shiftl x s) (Z.shiftr x (32 - s))).

Definition not32 (x : Z) : Z := Z.lxor x 0xffffffff.

Definition K : list Z :=
[ 0xd76aa478; 0xe8c7b756; 0x242070db; 0xc1bdceee;
  0xf57c0faf; 0x4787c62a; 0xa8304613; 0xfd469501;
  0x698098d8; 0x8b44f7af; 0xffff5bb1; 0x895cd7be;
  0x6b901122; 0xfd987193; 0xa679438e; 0x49b40821;
  0xf61e2562; 0xc040b340; 0x265e5a51; 0xe9b6c7aa;
  0xd62f105d; 0x02441453; 0xd8a1e681; 0xe7d3fbc8;
  0x21e1cde6; 0xc33707d6; 0xf4d50d87; 0x455a14ed;
  0xa9e3e905; 0xfcefa3f8; 0x676f02d9; 0x8d2a4c8a;
  0xfffa3942; 0x8771f681; 0x6d9d6122; 0xfde5380c;
  0xa4beea44; 0x4bdecfa9; 0xf6bb4b60; 0xbebfbc70;
  0x289b7ec6; 0xeaa127fa; 0xd4ef3085; 0x04881d05;
  0xd9d4d039; 0xe6db99e5; 0x1fa27cf8; 0xc4ac5665;
  0xf4292244; 0x432aff97; 0xab9423a7; 0xfc93a039;
  0x655b59c3; 0x8f0ccc92; 0xffeff47d; 0x85845dd1;
  0x6fa87e4f; 0xfe2ce6e0; 0xa3014314; 0x4e0811a1;
  0xf7537e82; 0xbd3af235; 0x2ad7d2bb; 0xeb86d391 ].

Definition shifts : list Z :=
[ 7; 12; 17; 22; 7; 12; 17; 22; 7; 12; 17; 22; 7; 12; 17; 22;
  5;  9; 14; 20; 5;  9; 14; 20; 5;  9; 14; 20; 5;  9; 14; 20;
  4; 11; 16; 23; 4; 11; 16; 23; 4; 11; 16; 23; 4; 11; 16; 23;
  6; 10; 15; 21; 6; 10; 15; 21; 6; 10; 15; 21; 6; 10; 15; 21 ].

(** The chaining state A, B, C, D. *)
Record state := State { sA : Z; sB : Z; sC : Z; sD : Z }.

Definition init : state :=
  State 0x67452301 0xefcdab89 0x98badcfe 0x10325476.

(** One of the 64 operations on the block [M] (16 little-endian words). *)
Definition round (M : list Z) (st : state) (i : nat) : state :=
  let '(State a b c d) := st in
  let '(f, g) :=
    if (i <? 16)%nat then
      (Z.lor (Z.land b c) (Z.land (not32 b) d), i)
    else if (i <? 32)%nat then
      (Z.lor (Z.land d b) (Z.land (not32 d) c), ((5 * i + 1) mod 16)%nat)
    else if (i <? 48)%nat then
      (Z.lxor (Z.lxor b c) d, ((3 * i + 5) mod 16)%nat)
    else
      (Z.lxor c (Z.lor b (not32 d)), ((7 * i) mod 16)%nat) in
  let f' := w32 (f + a + nth i K 0 + nth g M 0) in
  State d (w32 (b + rotl32 f' (nth i shifts 0))) b c.

Definition word_of_bytes (bs : list Z) : Z :=
  nth 0 bs 0 + 2 ^ 8 * nth 1 bs 0 + 2 ^ 16 * nth 2 bs 0 + 2 ^ 24 * nth 3 bs 0.

Definition bytes_of_word (w : Z) : list Z :=
  [ w mod 256; (w / 2 ^ 8) mod 256; (w / 2 ^ 16) mod 256; (w / 2 ^ 24) mod 256 ].

(** The words of the first 64 bytes of [bs]. *)
Definition block_words (bs : list Z) : list Z :=
  map (fun j => word_of_bytes (firstn 4 (skipn (4 * j) bs))) (seq 0 16).

Definition block (st : state) (bs : list Z) : state :=
  let '(State a b c d) := fold_left (round (block_words bs)) (seq 0 64) st in
  State (w32 (sA st + a)) (w32 (sB st + b)) (w32 (sC st + c)) (w32 (sD st + d)).

(** Process [n] consecutive 64-byte blocks. *)
Fixpoint blocks (n : nat) (st : state) (bs : list Z) : state :=
  match n with
  | O => st
  | S n' => blocks n' (block st bs) (skipn 64 bs)
  end.

(** Padding: a 1 bit, zeros up to 56 modulo 64, the bit length on 64 bits. *)
Definition pad (msg : list Z) : list Z :=
  let len := Z.of_nat (length msg) in
  let zeros := Z.to_nat ((55 - len) mod 64) in
  msg ++ [0x80] ++ repeat 0 zeros
      ++ map (fun j => ((8 * len) / 2 ^ (8 * Z.of_nat j)) mod 256) (seq 0 8).

(** [md5.Sum(data)]: the 16 bytes of the digest. *)
Definition Sum (data : list Z) : list Z :=
  let p := pad data in
  let '(State a b c d) := blocks (length p / 64) init p in
  bytes_of_word a ++ bytes_of_word b ++ bytes_of_word c ++ bytes_of_word d.

End md5.

(** ** Go standard library: encoding/base64, [RawURLEncoding]

    The URL-safe alphabet of RFC 4648, without padding characters. *)
Module base64.

Definition encodeURL : string :=
  "ABCDEFGHIJKLMNOPQRSTUVWXYZabcdefghijklmnopqrstuvwxyz0123456789-_".

Definition digit (v : Z) : string :=
  match String.get (Z.to_nat v) encodeURL with
  | Some c => String c EmptyString
  | None => EmptyString
  end.

(** Three bytes give four digits; one or two trailing bytes give two or
    three digits, the missing low bits being zero. *)
Fixpoint RawURLEncoding_EncodeToString (src : list Z) : string :=
  match src with
  | [] => ""
  | [b0] =>
      digit (b0 / 4) +:+ digit ((b0 mod 4) * 16)
  | [b0; b1] =>
      digit (b0 / 4) +:+ digit ((b0 mod 4) * 16 + b1 / 16)
        +:+ digit ((b1 mod 16) * 4)
  | b0 :: b1 :: b2 :: rest =>
      digit (b0 / 4) +:+ digit ((b0 mod 4) * 16 + b1 / 16)
        +:+ digit ((b1 mod 16) * 4 + b2 / 64) +:+ digit (b2 mod 64)
        +:+ RawURLEncoding_EncodeToString rest
  end.

End base64.

(** ** Local-to-global object ids (getFilenameHash, localObjectId) *)

(** One iteration of the loop of [getFilenameHash]: the assignment
    [hash[i] = hash[i] ^ hash[Size/4+i] ^ hash[Size/2+i] ^ hash[Size*3/4+i]],
    in place. *)
Definition fold_step (hash : list Z) (i : nat) : list Z :=
  <[ i := Z.lxor (Z.lxor (Z.lxor (nth i hash 0)
                                 (nth (md5.Size / 4 + i) hash 0))
                         (nth (md5.Size / 2 + i) hash 0))
                 (nth (md5.Size * 3 / 4 + i) hash 0) ]> hash.

(** [for i := 0; i < md5.Size/4; i++ { ... }] *)
Definition fold_loop (hash : list Z) : list Z :=
  fold_left fold_step (seq 0 (md5.Size / 4)) hash.

(** [getFilenameHash]: the package-level cache [filenameMd5s] is threaded
    through explicitly. *)
Definition getFilenameHash (filenameMd5s : gmap string string) (filename : string)
  : string * gmap string string :=
  match filenameMd5s !! filename with
  | Some result => (result, filenameMd5s)
  | None =>
      let hash := md5.Sum (bytes_of_string filename) in
      let hash := fold_loop hash in
      let result := base64.RawURLEncoding_EncodeToString (firstn (md5.Size / 4) hash) in
      (result, <[ filename := result ]> filenameMd5s)
  end.

(** [localObjectId] *)
Definition localObjectId (filenameMd5s : gmap string string) (filename objname : string)
  : string * gmap string string :=
  let '(hash, cache) := getFilenameHash filenameMd5s filename in
  ("_" +:+ hash +:+ objname, cache).

(** ** ECMAScript numbers and Go numeric conversions *)

(** Go's [float64], which is also the ECMAScript number type. *)
Abbreviation float64 := spec_float (only parsing).

Definition float64_mul : float64 -> float64 -> float64 := SFmul 53 1024.

(** [float64(n)] for an integer [n] (round to nearest even). *)
Definition float64_of_Z (n : Z) : float64 := binary_normalize 53 1024 n 0 false.

(** The integer part of a finite number (the fraction is discarded);
    [None] for NaN and the infinities. *)
Definition float64_trunc (x : float64) : option Z :=
  match x with
  | S754_zero _ => Some 0
  | S754_finite s m e =>
      Some (cond_Zopp s (if 0 <=? e then Z.pos m * 2 ^ e else Z.pos m / 2 ^ (- e)))
  | S754_infinity _ | S754_nan => None
  end.

(** Conversion of a floating-point number to a Go integer type with the
    range [lo..hi]: truncation towards zero. When the value cannot be
    represented the result is implementation-dependent and is left to
    [undef]. *)
Definition go_float_to_int (lo hi : Z) (undef : float64 -> Z) (x : float64) : Z :=
  match float64_trunc x with
  | Some z => if (lo <=? z) && (z <=? hi) then z else undef x
  | None => undef x
  end.

(** [time.Duration] is an [int64] count of nanoseconds. *)
Definition Duration_of_float64 : (float64 -> Z) -> float64 -> Z :=
  go_float_to_int (- 2 ^ 63) (2 ^ 63 - 1).

(** [time.Millisecond] *)
Definition Millisecond : Z := 1000000.

(** [MIN_INTERVAL_MS] *)
Definition MIN_INTERVAL_MS : Z := 1.

(** The length in nanoseconds of an interval of [ms] milliseconds as
    the bridge computes it, [ms * float64(time.Millisecond)] with the
    fraction of a nanosecond discarded; [None] when the product is NaN
    or infinite. *)
Definition interval_ns (ms : float64) : option Z :=
  float64_trunc (float64_mul ms (float64_of_Z Millisecond)).

(** The range of [time.Duration]. *)
Definition fits_Duration (ns : Z) : Prop := - 2 ^ 63 <= ns <= 2 ^ 63 - 1.

(** ** ECMAScript values as seen through the Duktape value stack *)

Inductive JSValue :=
| JSUndefined
| JSNull
| JSBoolean (b : bool)
| JSNumber (x : float64)
| JSString (s : string)
| JSFunction (ref : nat)                      (* a callable, by reference *)
| JSArray (elems : list JSValue)
| JSObject (props : list (string * JSValue)).  (* own and inherited properties *)

Definition IsString (v : JSValue) : bool :=
  match v with JSString _ => true | _ => false end.

Definition IsNumber (v : JSValue) : bool :=
  match v with JSNumber _ => true | _ => false end.

Definition IsFunction (v : JSValue) : bool :=
  match v with JSFunction _ => true | _ => false end.

Definition IsArray (v : JSValue) : bool :=
  match v with JSArray _ => true | _ => false end.

Definition IsUndefined (v : JSValue) : bool :=
  match v with JSUndefined => true | _ => false end.

(** [duk_is_object]: plain objects, arrays and functions. *)
Definition IsObject (v : JSValue) : bool :=
  match v with JSObject _ | JSArray _ | JSFunction _ => true | _ => false end.

Fixpoint assoc_lookup (key : string) (props : list (string * JSValue)) : option JSValue :=
  match props with
  | [] => None
  | (k, v) :: rest => if String.eqb k key then Some v else assoc_lookup key rest
  end.

Definition HasPropString (v : JSValue) (key : string) : bool :=
  match v with
  | JSObject props => match assoc_lookup key props with Some _ => true | None => false end
  | _ => false
  end.

(** Reading an absent property gives [undefined]. *)
Definition GetPropString (v : JSValue) (key : string) : JSValue :=
  match v with
  | JSObject props => match assoc_lookup key props with Some x => x | None => JSUndefined end
  | _ => JSUndefined
  end.

(** [GetString]: the empty string for a value that is not a string. *)
Definition GetString (v : JSValue) : string :=
  match v with JSString s => s | _ => "" end.

(** [GetNumber]: NaN for a value that is not a number. *)
Definition GetNumber (v : JSValue) : float64 :=
  match v with JSNumber x => x | _ => S754_nan end.

(** [ToBoolean], the ECMAScript coercion. *)
Definition ToBoolean (v : JSValue) : bool :=
  match v with
  | JSUndefined | JSNull => false
  | JSBoolean b => b
  | JSNumber (S754_zero _) | JSNumber S754_nan => false
  | JSNumber _ => true
  | JSString s => negb (String.eqb s "")
  | JSFunction _ | JSArray _ | JSObject _ => true
  end.

(** A source location of a script traceback. *)
Record ESLocation := { loc_filename : string; loc_line : Z }.

(** The part of an [*ESContext] that a bridge function sees when it is
    called: the identity of the context (one per script thread), the value
    stack holding the arguments, the [this] binding, the file name of the
    running script and the current traceback. *)
Record ESContext := {
  ctx_id : nat;
  ctx_stack : list JSValue;
  ctx_this : JSValue;
  ctx_filename : string;
  ctx_traceback : list ESLocation
}.

Definition GetTop (ctx : ESContext) : nat := length (ctx_stack ctx).

(** The value at a stack index; negative indices count from the top. A
    bridge function only reads indices it has checked against [GetTop];
    outside the stack the "none" value behaves as [undefined]. *)
Definition stack_at (ctx : ESContext) (idx : Z) : JSValue :=
  let i := if idx <? 0 then Z.of_nat (GetTop ctx) + idx else idx in
  if i <? 0 then JSUndefined else nth (Z.to_nat i) (ctx_stack ctx) JSUndefined.

(** What a bridge function hands back to Duktape: the number of return
    values (0: the call yields [undefined]; 1: the value on the stack top)
    or a negative code that throws an error in the calling script. An
    error raised by Duktape itself while the bridge runs reaches the
    script the same way. *)
Inductive DukRet :=
| Ret0
| Ret1 (top : JSValue)
| DUK_RET_ERROR
| DUK_RET_TYPE_ERROR
| DUK_RET_INSTACK_ERROR (message : string)
| DukThrow.   (* an error raised inside a Duktape call of the bridge *)

Definition throws (r : DukRet) : bool :=
  match r with
  | Ret0 | Ret1 _ => false
  | DUK_RET_ERROR | DUK_RET_TYPE_ERROR | DUK_RET_INSTACK_ERROR _ | DukThrow => true
  end.

(** ** Rules and their conditions

    The rule engine proper ([RuleEngine], [Rule], the [RuleCondition]
    implementations) lives outside esengine.go. The bridge only builds
    conditions through their constructors; the constructors are recorded
    as the constructors of an inductive type. *)

Record CellSpec := { DevName : string; ControlName : string }.

Inductive RuleCondition :=
| LevelTriggeredRuleCondition (cond : JSValue)
| EdgeTriggeredRuleCondition (cond : JSValue) (prevCondValue : bool)
| CellChangedRuleCondition (spec : CellSpec) (oldValue : option JSValue)
| FuncValueChangedRuleCondition (f : JSValue) (oldValue : option JSValue)
| OrRuleCondition (conds : list RuleCondition)
| CronRuleCondition (spec : string).

Definition NewLevelTriggeredRuleCondition (cond : JSValue) : RuleCondition :=
  LevelTriggeredRuleCondition cond.

Definition NewEdgeTriggeredRuleCondition (cond : JSValue) : RuleCondition :=
  EdgeTriggeredRuleCondition cond false.

Definition NewFuncValueChangedRuleCondition (f : JSValue) : RuleCondition :=
  FuncValueChangedRuleCondition f None.

Definition NewOrRuleCondition (conds : list RuleCondition) : RuleCondition :=
  OrRuleCondition conds.

Definition NewCronRuleCondition (spec : string) : RuleCondition :=
  CronRuleCondition spec.

(** Modelled from the spec: [NewCellChangedRuleCondition] is declared
    outside esengine.go with the result type [(RuleCondition, error)]; the
    spec knows no failure of a cell-changed condition, so the error is
    always [nil]. *)
Definition NewCellChangedRuleCondition (spec : CellSpec) : RuleCondition + string :=
  inl (CellChangedRuleCondition spec None).

Abbreviation RuleId := Z (only parsing).
Abbreviation TimerId := Z (only parsing).

(** [NewRule(engine, id, name, cond, then)] *)
Record Rule := NewRule {
  rule_id : RuleId;
  rule_name : string;
  rule_cond : RuleCondition;
  rule_then : JSValue
}.

(** ** The engine state *)

Inductive EngineLogLevel :=
| ENGINE_LOG_DEBUG | ENGINE_LOG_INFO | ENGINE_LOG_WARNING | ENGINE_LOG_ERROR.

Record LocItem := { Line : Z; Name : string }.

Record ScriptError := NewScriptError {
  Message : string;
  Traceback : list LocItem
}.

Record LocFileEntry := {
  VirtualPath : string;
  PhysicalPath : string;
  Devices : list LocItem;
  Rules : list LocItem;
  Error : option ScriptError
}.

(** An error raised by the script host: message and physical traceback. *)
Record ESError := { es_Message : string; es_Traceback : list ESLocation }.

(** The closures that esengine.go registers with the cleanup scopes. *)
Inductive Cleanup :=
| CleanupDeleteSource (virtualPath : string).

(** Calls that leave esengine.go: methods of the embedded [RuleEngine],
    the process logger of wbgo and the evaluation of a script by the
    interpreter. The engine state keeps them in call order. The output
    of the debug logger ([wbgo.Debug]) is not kept. *)
Inductive Call :=
| Log (level : EngineLogLevel) (message : string)
| wbgo_Error (message : string)
| StartTimer (name : string) (callback : option JSValue) (interval : Z) (periodic : bool)
| StopTimerByName (name : string)
| StopTimerByIndex (id : TimerId)
| OnTimerRemoveByIndex (id : TimerId) (ctx : nat)
| DefineRule (rule : Rule)
| DefineVirtualDevice (name : string) (obj : JSValue)
| Refresh
| Publish (topic payload : string) (qos : Z) (retained : bool)
| PushCleanupScope (scope : string)
| PopCleanupScope (scope : string)
| AddCleanup (c : Cleanup)
| RunCleanups (scope : string)
| PushThreadNewGlobalenv (ctx : nat)
| LoadScenario (ctx : nat) (path : string).

(** Properties of an object on the Duktape heap that is handled by
    reference: a string or a reference to another heap object. *)
Inductive HeapValue :=
| HString (s : string)
| HObject (ref : nat).

(** [ESEngine] with the embedded [RuleEngine] fields it uses, the heap
    stash of the interpreter, the package-level cache and the files the
    engine reads and writes. *)
Record ESEngine := {
  calls : list Call;  (* calls into the rule engine and the logger, oldest first *)
  nextRuleId : RuleId;  (* [RuleEngine.nextRuleId] *)
  nextTimerId : TimerId;  (* the id the timer registry issues next *)
  localCtxs : gmap string nat;  (* script path to the context of its thread *)
  ctxTimers : gmap nat (gmap Z bool);  (* [TimerSet.timers] of each context *)
  sourceRoot : string;
  sources : gmap string LocFileEntry;  (* virtual path to source entry *)
  currentSource : option LocFileEntry;
  tracker : gmap string string;  (* [wbgo.ContentTracker]: key to content hash *)
  persistentDB : option (gmap string (gmap string string));  (* [nil] until the database is opened *)
  modulesDirs : list string;
  filenameMd5s : gmap string string;  (* the package-level hash cache *)
  esThreads : gmap string nat;  (* heap stash object [_esThreads] *)
  esModules : gmap string nat;  (* heap stash object [_esModules]: path to storage object *)
  objects : gmap nat (gmap string HeapValue);  (* heap objects handled by reference *)
  nextRef : nat;  (* next fresh reference (objects, contexts) *)
  cleanups : gmap string (list Cleanup);  (* cleanup scope to the closures added under it *)
  fs : gmap string string  (* the file system: path to file content *)
}.

(** Field updates. *)
Definition set_calls (v : list Call) (e : ESEngine) : ESEngine :=
  {| calls := v; nextRuleId := nextRuleId e; nextTimerId := nextTimerId e;
     localCtxs := localCtxs e; ctxTimers := ctxTimers e;
     sourceRoot := sourceRoot e; sources := sources e;
     currentSource := currentSource e; tracker := tracker e;
     persistentDB := persistentDB e; modulesDirs := modulesDirs e;
     filenameMd5s := filenameMd5s e; esThreads := esThreads e;
     esModules := esModules e; objects := objects e; nextRef := nextRef e;
     cleanups := cleanups e; fs := fs e |}.

Definition set_nextRuleId (v : RuleId) (e : ESEngine) : ESEngine :=
  {| calls := calls e; nextRuleId := v; nextTimerId := nextTimerId e;
     localCtxs := localCtxs e; ctxTimers := ctxTimers e;
     sourceRoot := sourceRoot e; sources := sources e;
     currentSource := currentSource e; tracker := tracker e;
     persistentDB := persistentDB e; modulesDirs := modulesDirs e;
     filenameMd5s := filenameMd5s e; esThreads := esThreads e;
     esModules := esModules e; objects := objects e; nextRef := nextRef e;
     cleanups := cleanups e; fs := fs e |}.

Definition set_nextTimerId (v : TimerId) (e : ESEngine) : ESEngine :=
  {| calls := calls e; nextRuleId := nextRuleId e; nextTimerId := v;
     localCtxs := localCtxs e; ctxTimers := ctxTimers e;
     sourceRoot := sourceRoot e; sources := sources e;
     currentSource := currentSource e; tracker := tracker e;
     persistentDB := persistentDB e; modulesDirs := modulesDirs e;
     filenameMd5s := filenameMd5s e; esThreads := esThreads e;
     esModules := esModules e; objects := objects e; nextRef := nextRef e;
     cleanups := cleanups e; fs := fs e |}.

Definition set_localCtxs (v : gmap string nat) (e : ESEngine) : ESEngine :=
  {| calls := calls e; nextRuleId := nextRuleId e;
     nextTimerId := nextTimerId e; localCtxs := v; ctxTimers := ctxTimers e;
     sourceRoot := sourceRoot e; sources := sources e;
     currentSource := currentSource e; tracker := tracker e;
     persistentDB := persistentDB e; modulesDirs := modulesDirs e;
     filenameMd5s := filenameMd5s e; esThreads := esThreads e;
     esModules := esModules e; objects := objects e; nextRef := nextRef e;
     cleanups := cleanups e; fs := fs e |}.

Definition set_ctxTimers (v : gmap nat (gmap Z bool)) (e : ESEngine) : ESEngine :=
  {| calls := calls e; nextRuleId := nextRuleId e;
     nextTimerId := nextTimerId e; localCtxs := localCtxs e; ctxTimers := v;
     sourceRoot := sourceRoot e; sources := sources e;
     currentSource := currentSource e; tracker := tracker e;
     persistentDB := persistentDB e; modulesDirs := modulesDirs e;
     filenameMd5s := filenameMd5s e; esThreads := esThreads e;
     esModules := esModules e; objects := objects e; nextRef := nextRef e;
     cleanups := cleanups e; fs := fs e |}.

Definition set_sources (v : gmap string LocFileEntry) (e : ESEngine) : ESEngine :=
  {| calls := calls e; nextRuleId := nextRuleId e;
     nextTimerId := nextTimerId e; localCtxs := localCtxs e;
     ctxTimers := ctxTimers e; sourceRoot := sourceRoot e; sources := v;
     currentSource := currentSource e; tracker := tracker e;
     persistentDB := persistentDB e; modulesDirs := modulesDirs e;
     filenameMd5s := filenameMd5s e; esThreads := esThreads e;
     esModules := esModules e; objects := objects e; nextRef := nextRef e;
     cleanups := cleanups e; fs := fs e |}.

Definition set_currentSource (v : option LocFileEntry) (e : ESEngine) : ESEngine :=
  {| calls := calls e; nextRuleId := nextRuleId e;
     nextTimerId := nextTimerId e; localCtxs := localCtxs e;
     ctxTimers := ctxTimers e; sourceRoot := sourceRoot e;
     sources := sources e; currentSource := v; tracker := tracker e;
     persistentDB := persistentDB e; modulesDirs := modulesDirs e;
     filenameMd5s := filenameMd5s e; esThreads := esThreads e;
     esModules := esModules e; objects := objects e; nextRef := nextRef e;
     cleanups := cleanups e; fs := fs e |}.

Definition set_tracker (v : gmap string string) (e : ESEngine) : ESEngine :=
  {| calls := calls e; nextRuleId := nextRuleId e;
     nextTimerId := nextTimerId e; localCtxs := localCtxs e;
     ctxTimers := ctxTimers e; sourceRoot := sourceRoot e;
     sources := sources e; currentSource := currentSource e; tracker := v;
     persistentDB := persistentDB e; modulesDirs := modulesDirs e;
     filenameMd5s := filenameMd5s e; esThreads := esThreads e;
     esModules := esModules e; objects := objects e; nextRef := nextRef e;
     cleanups := cleanups e; fs := fs e |}.

Definition set_persistentDB (v : option (gmap string (gmap string string))) (e : ESEngine) : ESEngine :=
  {| calls := calls e; nextRuleId := nextRuleId e;
     nextTimerId := nextTimerId e; localCtxs := localCtxs e;
     ctxTimers := ctxTimers e; sourceRoot := sourceRoot e;
     sources := sources e; currentSource := currentSource e;
     tracker := tracker e; persistentDB := v; modulesDirs := modulesDirs e;
     filenameMd5s := filenameMd5s e; esThreads := esThreads e;
     esModules := esModules e; objects := objects e; nextRef := nextRef e;
     cleanups := cleanups e; fs := fs e |}.

Definition set_filenameMd5s (v : gmap string string) (e : ESEngine) : ESEngine :=
  {| calls := calls e; nextRuleId := nextRuleId e;
     nextTimerId := nextTimerId e; localCtxs := localCtxs e;
     ctxTimers := ctxTimers e; sourceRoot := sourceRoot e;
     sources := sources e; currentSource := currentSource e;
     tracker := tracker e; persistentDB := persistentDB e;
     modulesDirs := modulesDirs e; filenameMd5s := v;
     esThreads := esThreads e; esModules := esModules e;
     objects := objects e; nextRef := nextRef e; cleanups := cleanups e;
     fs := fs e |}.

Definition set_esThreads (v : gmap string nat) (e : ESEngine) : ESEngine :=
  {| calls := calls e; nextRuleId := nextRuleId e;
     nextTimerId := nextTimerId e; localCtxs := localCtxs e;
     ctxTimers := ctxTimers e; sourceRoot := sourceRoot e;
     sources := sources e; currentSource := currentSource e;
     tracker := tracker e; persistentDB := persistentDB e;
     modulesDirs := modulesDirs e; filenameMd5s := filenameMd5s e;
     esThreads := v; esModules := esModules e; objects := objects e;
     nextRef := nextRef e; cleanups := cleanups e; fs := fs e |}.

Definition set_esModules (v : gmap string nat) (e : ESEngine) : ESEngine :=
  {| calls := calls e; nextRuleId := nextRuleId e;
     nextTimerId := nextTimerId e; localCtxs := localCtxs e;
     ctxTimers := ctxTimers e; sourceRoot := sourceRoot e;
     sources := sources e; currentSource := currentSource e;
     tracker := tracker e; persistentDB := persistentDB e;
     modulesDirs := modulesDirs e; filenameMd5s := filenameMd5s e;
     esThreads := esThreads e; esModules := v; objects := objects e;
     nextRef := nextRef e; cleanups := cleanups e; fs := fs e |}.

Definition set_objects (v : gmap nat (gmap string HeapValue)) (e : ESEngine) : ESEngine :=
  {| calls := calls e; nextRuleId := nextRuleId e;
     nextTimerId := nextTimerId e; localCtxs := localCtxs e;
     ctxTimers := ctxTimers e; sourceRoot := sourceRoot e;
     sources := sources e; currentSource := currentSource e;
     tracker := tracker e; persistentDB := persistentDB e;
     modulesDirs := modulesDirs e; filenameMd5s := filenameMd5s e;
     esThreads := esThreads e; esModules := esModules e; objects := v;
     nextRef := nextRef e; cleanups := cleanups e; fs := fs e |}.

Definition set_nextRef (v : nat) (e : ESEngine) : ESEngine :=
  {| calls := calls e; nextRuleId := nextRuleId e;
     nextTimerId := nextTimerId e; localCtxs := localCtxs e;
     ctxTimers := ctxTimers e; sourceRoot := sourceRoot e;
     sources := sources e; currentSource := currentSource e;
     tracker := tracker e; persistentDB := persistentDB e;
     modulesDirs := modulesDirs e; filenameMd5s := filenameMd5s e;
     esThreads := esThreads e; esModules := esModules e;
     objects := objects e; nextRef := v; cleanups := cleanups e;
     fs := fs e |}.

Definition set_cleanups (v : gmap string (list Cleanup)) (e : ESEngine) : ESEngine :=
  {| calls := calls e; nextRuleId := nextRuleId e;
     nextTimerId := nextTimerId e; localCtxs := localCtxs e;
     ctxTimers := ctxTimers e; sourceRoot := sourceRoot e;
     sources := sources e; currentSource := currentSource e;
     tracker := tracker e; persistentDB := persistentDB e;
     modulesDirs := modulesDirs e; filenameMd5s := filenameMd5s e;
     esThreads := esThreads e; esModules := esModules e;
     objects := objects e; nextRef := nextRef e; cleanups := v; fs := fs e |}.

Definition set_fs (v : gmap string string) (e : ESEngine) : ESEngine :=
  {| calls := calls e; nextRuleId := nextRuleId e;
     nextTimerId := nextTimerId e; localCtxs := localCtxs e;
     ctxTimers := ctxTimers e; sourceRoot := sourceRoot e;
     sources := sources e; currentSource := currentSource e;
     tracker := tracker e; persistentDB := persistentDB e;
     modulesDirs := modulesDirs e; filenameMd5s := filenameMd5s e;
     esThreads := esThreads e; esModules := esModules e;
     objects := objects e; nextRef := nextRef e; cleanups := cleanups e;
     fs := v |}.

(** Record a call. *)
Definition call (c : Call) (e : ESEngine) : ESEngine :=
  set_calls (calls e ++ [c]) e.

(** ** Go standard library: strings.SplitN(s, "/", 2) *)

(** The text before and after the first ["/"] of [s], when there is one. *)
Fixpoint cut_slash (s : string) : option (string * string) :=
  match s with
  | EmptyString => None
  | String c rest =>
      if Ascii.eqb c "/"%char then Some (EmptyString, rest)
      else match cut_slash rest with
           | Some (before, after) => Some (String c before, after)
           | None => None
           end
  end.

Definition SplitN_slash_2 (s : string) : list string :=
  match cut_slash s with
  | Some (before, after) => [before; after]
  | None => [s]
  end.

(** ** The bolt key/value store (github.com/boltdb/bolt)

    A database is a map from bucket names to buckets, a bucket a map from
    keys to values, all byte strings. [Bucket.Put] "returns an error if
    the key is blank, if the key is too large, or if the value is too
    large"; a bucket cannot be created under a blank name. *)
Module bolt.

Definition MaxKeySize : Z := 32768.
Definition MaxValueSize : Z := 2 ^ 31 - 2.

Inductive error :=
| ErrBucketNameRequired
| ErrKeyRequired
| ErrKeyTooLarge
| ErrValueTooLarge.

(** [tx.Bucket(name)]: [None] is the nil bucket. *)
Definition Bucket (db : gmap string (gmap string string)) (name : string)
  : option (gmap string string) :=
  db !! name.

(** [tx.CreateBucketIfNotExists(name)] *)
Definition CreateBucketIfNotExists (db : gmap string (gmap string string))
    (name : string) : gmap string (gmap string string) + error :=
  if String.eqb name "" then inr ErrBucketNameRequired
  else match db !! name with
       | Some _ => inl db
       | None => inl (<[ name := ∅ ]> db)
       end.

(** [b.Put(key, value)] on the bucket [name] of [db]. *)
Definition Put (db : gmap string (gmap string string)) (name key value : string)
  : gmap string (gmap string string) + error :=
  if String.eqb key "" then inr ErrKeyRequired
  else if MaxKeySize <? Z.of_nat (String.length key) then inr ErrKeyTooLarge
  else if MaxValueSize <? Z.of_nat (String.length value) then inr ErrValueTooLarge
  else match db !! name with
       | Some b => inl (<[ name := <[ key := value ]> b ]> db)
       | None => inl db
       end.

(** [b.Get(key)]: [None] is the nil slice. *)
Definition Get (b : gmap string string) (key : string) : option string :=
  b !! key.

(** [db.Update(fn)]: the transaction is committed when [fn] returns nil
    and rolled back when it returns an error. *)
Definition Update (db : gmap string (gmap string string))
    (fn : gmap string (gmap string string) -> gmap string (gmap string string) + error)
  : gmap string (gmap string string) * option error :=
  match fn db with
  | inl db' => (db', None)
  | inr err => (db, Some err)
  end.

End bolt.

(** ** Errors and scripts *)

(** The values of Go's [error] interface that pass through esengine.go. *)
Inductive error :=
| PlainError (message : string)     (* errors.New, errors of the libraries *)
| ESErr (err : ESError)             (* raised by the evaluation of a script *)
| ScriptErr (err : ScriptError).    (* the same with its traceback rewritten *)

Definition error_message (err : error) : string :=
  match err with
  | PlainError m => m
  | ESErr err => es_Message err
  | ScriptErr err => Message err
  end.

(** The bridge functions a script reaches through the global object and
    the module prototype. *)
Inductive BridgeFunction :=
| Bridge_wbDefineRule
| Bridge_wbStartTimer
| Bridge_wbStopTimer
| Bridge_defineVirtualDevice
| Bridge_virtualDeviceId
| Bridge_wbPersistentName
| Bridge_wbPersistentSet
| Bridge_wbPersistentGet.

(** What the evaluation of a script asks of the engine: a script that
    terminates is a finite tree of bridge calls and module look-ups, each
    continued from the result it gets, ending in the outcome of the
    evaluation ([None]: no error). A bridge call comes with its [this]
    binding, its arguments and the traceback at the call. *)
Inductive Script :=
| ScriptDone (outcome : option error)
| ScriptCall (f : BridgeFunction) (this : JSValue) (args : list JSValue)
    (traceback : list ESLocation) (k : DukRet -> Script)
| ScriptRequire (id : JSValue) (k : DukRet -> Script).

(** ** A concrete host

    One choice of what the engine takes from outside: the conversions of
    the amd64 port, unsigned 64-bit timer ids, JSON restricted to the
    literals, paths that are already absolute and clean, an interpreter
    under which every script defines one rule and starts one timer, and
    an engine that has just been created, with a source root, two modules
    directories and one module file. *)
Module Example.

Definition unrepresentable (x : float64) : Z := - 2 ^ 63.

Definition TimerId_min : Z := 0.
Definition TimerId_max : Z := 2 ^ 64 - 1.

Definition NO_TIMER_NAME : string := "".

Definition DefineVirtualDevice_error (name : string) (obj : JSValue) (e : ESEngine)
  : option string := None.

Definition JsonEncode (v : JSValue) : string :=
  match v with
  | JSNull => "null"
  | JSBoolean true => "true"
  | JSBoolean false => "false"
  | _ => ""
  end.

(** [duk_safe_to_string] on the values of the examples: the names of
    the primitive values, and the decimal digits of a whole number below
    2^53. *)
Definition SafeToString_coerce (v : JSValue) : string :=
  match v with
  | JSUndefined => "undefined"
  | JSNull => "null"
  | JSBoolean true => "true"
  | JSBoolean false => "false"
  | JSNumber S754_nan => "NaN"
  | JSNumber (S754_infinity false) => "Infinity"
  | JSNumber (S754_infinity true) => "-Infinity"
  | JSNumber (S754_zero _) => "0"
  | JSNumber (S754_finite s m e) =>
      if (e <=? 0) && (Z.pos m mod 2 ^ (- e) =? 0) && (Z.pos m / 2 ^ (- e) <? 2 ^ 53)
      then pretty (cond_Zopp s (Z.pos m / 2 ^ (- e)))
      else ""
  | _ => ""
  end.

Definition JsonDecode (s : string) : option JSValue :=
  if String.eqb s "null" then Some JSNull
  else if String.eqb s "true" then Some (JSBoolean true)
  else if String.eqb s "false" then Some (JSBoolean false)
  else None.

Definition filepath_Abs (path : string) : string + string := inl path.
Definition filepath_Clean (path : string) : string := path.
Definition filepath_Join (dir name : string) : string := dir +:+ "/" +:+ name.
Definition filepath_Dir (path : string) : string := path.

Definition IsSubpath (root path : string) : bool :=
  String.prefix (root +:+ "/") path.

Definition filepath_Rel (root path : string) : string + string :=
  if IsSubpath root path
  then inl (String.substring (S (String.length root))
              (String.length path - S (String.length root)) path)
  else inr "Rel: can't make path relative".

Definition MkdirAll_error (path : string) (e : ESEngine) : option string := None.
Definition WriteFile_error (path : string) (e : ESEngine) : option string := None.

Definition content_hash (content : string) : string :=
  base64.RawURLEncoding_EncodeToString (md5.Sum (bytes_of_string content)).

(** 0.5, 1 and 5 as binary64 numbers. *)
Definition half : float64 := S754_finite false 4503599627370496 (-53).
Definition one : float64 := S754_finite false 4503599627370496 (-52).
Definition five : float64 := S754_finite false 5629499534213120 (-50).

Definition rule_definition : JSValue :=
  JSObject [("whenChanged", JSString "wb-w1/t"); ("then", JSFunction 1)].

Definition interpret (text : string) : Script :=
  ScriptCall Bridge_wbDefineRule JSUndefined [JSString "echo"; rule_definition] []
    (fun _ =>
       ScriptCall Bridge_wbStartTimer JSUndefined
         [JSString "tick"; JSNumber half; JSBoolean true] []
         (fun _ => ScriptDone None)).

Definition esInitEnv_fails : bool := false.

Definition engine0 : ESEngine :=
  {| calls := []; nextRuleId := 1; nextTimerId := 1;
     localCtxs := ∅; ctxTimers := ∅;
     sourceRoot := "/rules"; sources := ∅; currentSource := None;
     tracker := ∅; persistentDB := Some ∅;
     modulesDirs := ["/m1"; "/m2"];
     filenameMd5s := ∅; esThreads := ∅; esModules := ∅;
     objects := {[ 7%nat := ∅; 8%nat := ∅ ]}; nextRef := 9;
     cleanups := ∅;
     fs := {[ "/m2/multi_init.js" := "exports.n = 42" ]} |}.

(** A call from the script thread 0 of the file [a.js]. *)
Definition ctx_call (this : JSValue) (args : list JSValue) : ESContext :=
  {| ctx_id := 0; ctx_stack := args; ctx_this := this;
     ctx_filename := "a.js"; ctx_traceback := [] |}.

(** The module object of the module file, as [this]. *)
Definition module_object : JSValue :=
  JSObject [("filename", JSString "/m2/multi_init.js")].

End Example.

(** ** The bridge functions *)

Section Engine.

Set Default Proof Using "Type".

(** The implementation-dependent result of converting NaN, an infinity
    or an out-of-range number to a Go integer type. *)
Variable unrepresentable : float64 -> Z.

(** The range of the integer type [TimerId], declared outside
    esengine.go. Every Go integer type contains 0. *)
Variables TimerId_min TimerId_max : Z.
Hypothesis TimerId_has_zero : TimerId_min <= 0 <= TimerId_max.

(** The constant [NO_TIMER_NAME], declared outside esengine.go. *)
Variable NO_TIMER_NAME : string.

(** [TimerId(x)] *)
Definition TimerId_of_float64 : float64 -> TimerId :=
  go_float_to_int TimerId_min TimerId_max unrepresentable.

(** *** Timers *)

(** Modelled from the spec: [RuleEngine.StartTimer] is outside
    esengine.go. The spec has the registry issue ids that are "positive
    monotonically increasing integers"; the call itself is recorded with
    the arguments the bridge passes. *)
Definition RuleEngine_StartTimer (name : string) (callback : option JSValue)
    (interval : Z) (periodic : bool) (e : ESEngine) : TimerId * ESEngine :=
  (nextTimerId e,
   set_nextTimerId (nextTimerId e + 1)
     (call (StartTimer name callback interval periodic) e)).

(** [handleTimerCleanup]: enter the timer into the set of the context
    and hook its removal. *)
Definition handleTimerCleanup (ctx : ESContext) (timer : TimerId) (e : ESEngine)
  : ESEngine :=
  let s := match ctxTimers e !! ctx_id ctx with
           | Some s => s
           | None => ∅
           end in
  call (OnTimerRemoveByIndex timer (ctx_id ctx))
    (set_ctxTimers (<[ ctx_id ctx := <[ timer := true ]> s ]> (ctxTimers e)) e).

(** The closure handed to [OnTimerRemoveByIndex], run by the registry
    when the timer dies: [delete(s.timers, timer)]. *)
Definition timerRemoved (ctx : nat) (timer : TimerId) (e : ESEngine) : ESEngine :=
  match ctxTimers e !! ctx with
  | Some s => set_ctxTimers (<[ ctx := delete timer s ]> (ctxTimers e)) e
  | None => e
  end.

(** [esWbStartTimer], the bridge [_wbStartTimer(nameOrCallback, ms, periodic)]. *)
Definition esWbStartTimer (ctx : ESContext) (e : ESEngine) : DukRet * ESEngine :=
  if negb (GetTop ctx =? 3)%nat || negb (IsNumber (stack_at ctx 1)) then
    (DUK_RET_ERROR, call (wbgo_Error "bad _wbStartTimer call") e)
  else
    let named :=
      if IsString (stack_at ctx 0) then
        let name := GetString (stack_at ctx 0) in
        if String.eqb name "" then
          inr (call (wbgo_Error "empty timer name") e)
        else inl (name, call (StopTimerByName name) e)
      else if negb (IsFunction (stack_at ctx 0)) then
        inr (call (wbgo_Error "invalid timer spec") e)
      else inl (NO_TIMER_NAME, e) in
    match named with
    | inr e' => (DUK_RET_ERROR, e')
    | inl (name, e1) =>
        let ms := GetNumber (stack_at ctx 1) in
        let ms := if SFltb ms (float64_of_Z MIN_INTERVAL_MS)
                  then float64_of_Z MIN_INTERVAL_MS else ms in
        let periodic := ToBoolean (stack_at ctx 2) in
        let callback := if String.eqb name NO_TIMER_NAME
                        then Some (stack_at ctx 0) else None in
        let interval :=
          Duration_of_float64 unrepresentable
            (float64_mul ms (float64_of_Z Millisecond)) in
        let '(timerId, e2) := RuleEngine_StartTimer name callback interval periodic e1 in
        let e3 := handleTimerCleanup ctx timerId e2 in
        (Ret1 (JSNumber (float64_of_Z timerId)), e3)
    end.

(** [esWbStopTimer], the bridge [_wbStopTimer(idOrName)]. *)
Definition esWbStopTimer (ctx : ESContext) (e : ESEngine) : DukRet * ESEngine :=
  if negb (GetTop ctx =? 1)%nat then (DUK_RET_ERROR, e)
  else if IsNumber (stack_at ctx 0) then
    let n := TimerId_of_float64 (GetNumber (stack_at ctx (-1))) in
    if n =? 0 then (Ret0, call (wbgo_Error "timer id cannot be zero") e)
    else (Ret0, call (StopTimerByIndex n) e)
  else if IsString (stack_at ctx 0) then
    (Ret0, call (StopTimerByName (GetString (stack_at ctx 0))) e)
  else (DUK_RET_ERROR, e).

(** *** Rule definitions *)

(** [buildSingleWhenChangedRuleCondition], on the value at [defIndex]. *)
Definition buildSingleWhenChangedRuleCondition (def : JSValue)
  : RuleCondition + string :=
  if IsString def then
    let cellFullName := GetString def in
    match SplitN_slash_2 cellFullName with
    | [dev; control] =>
        NewCellChangedRuleCondition {| DevName := dev; ControlName := control |}
    | _ => inr ("invalid whenChanged spec: '" +:+ cellFullName +:+ "'")
    end
  else if IsFunction def then
    inl (NewFuncValueChangedRuleCondition def)
  else inr "whenChanged: array expected".

(** The loop of [buildWhenChangedRuleCondition] over the elements of the
    array: the first error ends it. *)
Fixpoint buildConds (elems : list JSValue) : list RuleCondition + string :=
  match elems with
  | [] => inl []
  | x :: rest =>
      match buildSingleWhenChangedRuleCondition x with
      | inr err => inr err
      | inl cond =>
          match buildConds rest with
          | inr err => inr err
          | inl conds => inl (cond :: conds)
          end
      end
  end.

(** [buildWhenChangedRuleCondition], on the rule definition object. *)
Definition buildWhenChangedRuleCondition (def : JSValue) : RuleCondition + string :=
  match GetPropString def "whenChanged" with
  | JSArray elems =>
      match buildConds elems with
      | inr err => inr err
      | inl conds => inl (NewOrRuleCondition conds)
      end
  | v => buildSingleWhenChangedRuleCondition v
  end.

(** [wrapRuleCallback] and [wrapRuleCondFunc]: the property is wrapped
    as a host callback. *)
Definition wrapRuleCallback (def : JSValue) (propName : string) : JSValue :=
  GetPropString def propName.

(** The coercion of [duk_safe_to_string] on a value that is not a
    string already; it never raises an error. *)
Variable SafeToString_coerce : JSValue -> string.

(** [ctx.SafeToString] *)
Definition SafeToString (v : JSValue) : string :=
  match v with
  | JSString s => s
  | _ => SafeToString_coerce v
  end.

(** [ctx.SafeToString(-1)] on the [_cron] property. *)
Definition cron_spec (def : JSValue) : string :=
  SafeToString (GetPropString def "_cron").

(** [buildRuleCond] *)
Definition buildRuleCond (def : JSValue) : RuleCondition + string :=
  let hasWhen := HasPropString def "when" in
  let hasAsSoonAs := HasPropString def "asSoonAs" in
  let hasWhenChanged := HasPropString def "whenChanged" in
  let hasCron := HasPropString def "_cron" in
  if hasWhen && (hasAsSoonAs || hasWhenChanged || hasCron) then
    inr "invalid rule -- cannot combine 'when' with 'asSoonAs', 'whenChanged' or 'cron'"
  else if hasWhen then
    inl (NewLevelTriggeredRuleCondition (wrapRuleCallback def "when"))
  else if hasAsSoonAs && (hasWhenChanged || hasCron) then
    inr "invalid rule -- cannot combine 'asSoonAs' with 'whenChanged' or 'cron'"
  else if hasAsSoonAs then
    inl (NewEdgeTriggeredRuleCondition (wrapRuleCallback def "asSoonAs"))
  else if hasWhenChanged && hasCron then
    inr "invalid rule -- cannot combine 'whenChanged' with cron spec"
  else if hasWhenChanged then
    buildWhenChangedRuleCondition def
  else if hasCron then
    inl (NewCronRuleCondition (cron_spec def))
  else
    inr "invalid rule -- must provide one of 'when', 'asSoonAs' or 'whenChanged'".

(** [buildRule]: a rule that is built takes the next rule id. *)
Definition buildRule (name : string) (def : JSValue) (e : ESEngine)
  : (Rule + string) * ESEngine :=
  if negb (HasPropString def "then") then
    (inr "invalid rule -- no then", e)
  else
    let then_ := wrapRuleCallback def "then" in
    match buildRuleCond def with
    | inr err => (inr err, e)
    | inl cond =>
        let ruleId := nextRuleId e in
        (inl (NewRule ruleId name cond then_), set_nextRuleId (ruleId + 1) e)
    end.

Inductive itemType := SOURCE_ITEM_DEVICE | SOURCE_ITEM_RULE.

(** The line of the last frame of the traceback that lies in [file];
    [-1] when there is none. *)
Definition traceback_line (file : string) (tb : list ESLocation) : Z :=
  fold_left (fun line loc => if String.eqb (loc_filename loc) file
                             then loc_line loc else line) tb (-1).

(** [maybeRegisterSourceItem] *)
Definition maybeRegisterSourceItem (ctx : ESContext) (typ : itemType)
    (name : string) (e : ESEngine) : ESEngine :=
  match currentSource e with
  | None => e
  | Some src =>
      let line := traceback_line (PhysicalPath src) (ctx_traceback ctx) in
      if line =? -1 then e
      else
        let item := {| Line := line; Name := name |} in
        let src' :=
          match typ with
          | SOURCE_ITEM_DEVICE =>
              {| VirtualPath := VirtualPath src; PhysicalPath := PhysicalPath src;
                 Devices := Devices src ++ [item]; Rules := Rules src;
                 Error := Error src |}
          | SOURCE_ITEM_RULE =>
              {| VirtualPath := VirtualPath src; PhysicalPath := PhysicalPath src;
                 Devices := Devices src; Rules := Rules src ++ [item];
                 Error := Error src |}
          end in
        set_currentSource (Some src') e
  end.

(** Modelled from the spec: [RuleEngine.DefineRule] is outside
    esengine.go, with the result type [(RuleId, error)]. The spec has it
    "register a rule; return its id" and names no way for it to fail:
    the rule enters the rule table and its id comes back. *)
Definition RuleEngine_DefineRule (rule : Rule) (e : ESEngine)
  : (RuleId + string) * ESEngine :=
  (inl (rule_id rule), call (DefineRule rule) e).

(** [esWbDefineRule], the bridge [_wbDefineRule([name,] definition)]. *)
Definition esWbDefineRule (ctx : ESContext) (e : ESEngine) : DukRet * ESEngine :=
  let shape : option (string * string * JSValue) :=
    match GetTop ctx with
    | 1%nat =>
        if IsObject (stack_at ctx 0) then Some ("", "", stack_at ctx 0) else None
    | 2%nat =>
        if IsString (stack_at ctx 0) && IsObject (stack_at ctx 1) then
          let shortName := GetString (stack_at ctx 0) in
          Some (shortName, ctx_filename ctx +:+ "/" +:+ shortName, stack_at ctx 1)
        else None
    | _ => None
    end in
  match shape with
  | None => (DUK_RET_ERROR, call (Log ENGINE_LOG_ERROR "bad rule definition") e)
  | Some (shortName, name, def) =>
      match buildRule name def e with
      | (inr err, e1) =>
          (DUK_RET_ERROR,
           call (Log ENGINE_LOG_ERROR
                   ("bad definition of rule '" +:+ name +:+ "': " +:+ err)) e1)
      | (inl rule, e1) =>
          match RuleEngine_DefineRule rule e1 with
          | (inr err, e2) =>
              (DUK_RET_ERROR,
               call (Log ENGINE_LOG_ERROR ("defineRule error: " +:+ err)) e2)
          | (inl ruleId, e2) =>
              let e3 := maybeRegisterSourceItem ctx SOURCE_ITEM_RULE shortName e2 in
              (Ret1 (JSNumber (float64_of_Z ruleId)), e3)
          end
      end
  end.

(** *** Module-local object ids *)

(** [maybeExpandLocalObjectId]: inside a module [this] is the module
    object, which carries the [filename] that the [require] resolver
    gave it. *)
Definition maybeExpandLocalObjectId (ctx : ESContext) (name : string) (e : ESEngine)
  : string * ESEngine :=
  let this := ctx_this ctx in
  if IsObject this && HasPropString this "filename" then
    match GetPropString this "filename" with
    | JSString filename =>
        let '(name', cache) := localObjectId (filenameMd5s e) filename name in
        (name', set_filenameMd5s cache e)
    | _ => (name, e)
    end
  else (name, e).

(** [esVirtualDeviceId], exported as [module.virtualDeviceId(name)]. *)
Definition esVirtualDeviceId (ctx : ESContext) (e : ESEngine) : DukRet * ESEngine :=
  if negb (GetTop ctx =? 1)%nat || negb (IsString (stack_at ctx (-1))) then
    (DUK_RET_ERROR, e)
  else
    let name := GetString (stack_at ctx (-1)) in
    let '(name, e1) := maybeExpandLocalObjectId ctx name e in
    (Ret1 (JSString name), e1).

(** The outcome of [RuleEngine.DefineVirtualDevice], which is outside
    esengine.go: [None] for success, or the message of its error. *)
Variable DefineVirtualDevice_error : string -> JSValue -> ESEngine -> option string.

Definition VDEV_OBJ_PROP_DEVID : string := "__deviceId".

(** [esDefineVirtualDevice], exported as [defineVirtualDevice(name, spec)]
    on the module prototype. The result is the controller object; of it
    only the device id property is kept here, the methods come from its
    prototype. A definition that is an array or a function is not an
    [objx.Map]: the type assertion of the source panics on it, the case
    is not followed further. *)
Definition esDefineVirtualDevice (ctx : ESContext) (e : ESEngine)
  : option (DukRet * ESEngine) :=
  if negb (GetTop ctx =? 2)%nat || negb (IsString (stack_at ctx (-2)))
     || negb (IsObject (stack_at ctx (-1))) then
    Some (DUK_RET_ERROR, e)
  else
    match stack_at ctx (-1) with
    | JSObject _ as obj =>
        let name := GetString (stack_at ctx (-2)) in
        let '(name, e1) := maybeExpandLocalObjectId ctx name e in
        let e2 := call (DefineVirtualDevice name obj) e1 in
        match DefineVirtualDevice_error name obj e1 with
        | Some err =>
            Some (DUK_RET_INSTACK_ERROR err,
                  call (wbgo_Error ("device definition error: " +:+ err)) e2)
        | None =>
            let e3 := maybeRegisterSourceItem ctx SOURCE_ITEM_DEVICE name e2 in
            Some (Ret1 (JSObject [(VDEV_OBJ_PROP_DEVID, JSString name)]), e3)
        end
    | _ => None
    end.

(** *** Persistent storage *)

(** [duk_json_encode] and [duk_json_decode] of the interpreter;
    decoding fails on text that is not JSON. *)
Variable JsonEncode : JSValue -> string.
Variable JsonDecode : string -> option JSValue.

(** [esPersistentName], exported as [_wbPersistentName(name [, options])]
    on the module prototype. *)
Definition esPersistentName (ctx : ESContext) (e : ESEngine) : DukRet * ESEngine :=
  match persistentDB e with
  | None =>
      (DUK_RET_ERROR, call (Log ENGINE_LOG_ERROR "persistent DB is not initialized") e)
  | Some _ =>
      let numArgs := GetTop ctx in
      if (numArgs <? 1)%nat || (2 <? numArgs)%nat then
        (DUK_RET_ERROR,
         call (Log ENGINE_LOG_ERROR "bad persistent storage definition") e)
      else if negb (IsString (stack_at ctx 0)) then
        (DUK_RET_ERROR,
         call (Log ENGINE_LOG_ERROR "persistent storage name must be string") e)
      else
        let name := GetString (stack_at ctx 0) in
        if (numArgs =? 2)%nat && negb (IsUndefined (stack_at ctx 1))
           && negb (IsObject (stack_at ctx 1)) then
          (DUK_RET_ERROR,
           call (Log ENGINE_LOG_ERROR "persistent storage options must be object") e)
        else
          let '(name, e1) := maybeExpandLocalObjectId ctx name e in
          (Ret1 (JSString name),
           call (Log ENGINE_LOG_DEBUG ("create local storage name: " +:+ name)) e1)
  end.

(** [esPersistentSet], the bridge [_wbPersistentSet(bucket, key, value)].
    The result of the transaction is dropped by the source. *)
Definition esPersistentSet (ctx : ESContext) (e : ESEngine) : DukRet * ESEngine :=
  match persistentDB e with
  | None =>
      (DUK_RET_ERROR, call (Log ENGINE_LOG_ERROR "persistent DB is not initialized") e)
  | Some db =>
      if negb (GetTop ctx =? 3)%nat then
        (DUK_RET_ERROR,
         call (Log ENGINE_LOG_ERROR "bad persistentSet request, arg number mismatch") e)
      else if negb (IsString (stack_at ctx 0)) then
        (DUK_RET_ERROR,
         call (Log ENGINE_LOG_ERROR "persistent storage bucket name must be string") e)
      else
        let bucket := GetString (stack_at ctx 0) in
        if negb (IsString (stack_at ctx 1)) then
          (DUK_RET_ERROR,
           call (Log ENGINE_LOG_ERROR "persistent storage key must be string") e)
        else
          let key := GetString (stack_at ctx 1) in
          let value := JsonEncode (stack_at ctx 2) in
          let '(db', _) :=
            bolt.Update db (fun tx =>
              match bolt.CreateBucketIfNotExists tx bucket with
              | inr err => inr err
              | inl tx1 =>
                  match bolt.Put tx1 bucket key value with
                  | inr err => inr err
                  | inl tx2 => inl tx2
                  end
              end) in
          (Ret0, set_persistentDB (Some db') e)
  end.

(** [esPersistentGet], the bridge [_wbPersistentGet(bucket, key)]. *)
Definition esPersistentGet (ctx : ESContext) (e : ESEngine) : DukRet * ESEngine :=
  match persistentDB e with
  | None =>
      (DUK_RET_ERROR, call (Log ENGINE_LOG_ERROR "persistent DB is not initialized") e)
  | Some db =>
      if negb (GetTop ctx =? 2)%nat then
        (DUK_RET_ERROR,
         call (Log ENGINE_LOG_ERROR "bad persistentGet request, arg number mismatch") e)
      else if negb (IsString (stack_at ctx 0)) then
        (DUK_RET_ERROR,
         call (Log ENGINE_LOG_ERROR "persistent storage bucket name must be string") e)
      else
        let bucket := GetString (stack_at ctx 0) in
        if negb (IsString (stack_at ctx 1)) then
          (DUK_RET_ERROR,
           call (Log ENGINE_LOG_ERROR "persistent storage key must be string") e)
        else
          let key := GetString (stack_at ctx 1) in
          let found :=
            match bolt.Bucket db bucket with
            | None => None
            | Some b => bolt.Get b key
            end in
          match found with
          | None => (Ret1 JSUndefined, e)
          | Some value =>
              match JsonDecode value with
              | Some v => (Ret1 v, e)
              | None => (DukThrow, e)
              end
          end
  end.

(** *** The [require] resolver *)

Definition MODULE_FILENAME_PROP : string := "filename".
Definition MODULE_STORAGE_PROP : string := "storage".

(** [ctx.PutPropString(obj, key)] on a heap object handled by reference. *)
Definition put_prop (obj : nat) (key : string) (v : HeapValue) (e : ESEngine)
  : ESEngine :=
  let props := match objects e !! obj with Some ps => ps | None => ∅ end in
  set_objects (<[ obj := <[ key := v ]> props ]> (objects e)) e.

(** [ioutil.ReadFile(path)]: the content, or an error when the file
    cannot be read. *)
Definition ReadFile (path : string) (e : ESEngine) : option string := fs e !! path.

(** The body of the loop of [ModSearch] once [path] has been read:
    [module.filename] and [module.storage] are set; the storage object
    of the path is created in [_esModules] when it is not there yet. *)
Definition attach_module (path : string) (module : nat) (e : ESEngine) : ESEngine :=
  let e1 := put_prop module MODULE_FILENAME_PROP (HString path) e in
  let e2 :=
    match esModules e1 !! path with
    | Some _ => e1
    | None =>
        let storage := nextRef e1 in
        set_esModules (<[ path := storage ]> (esModules e1))
          (set_objects (<[ storage := ∅ ]> (objects e1))
             (set_nextRef (S storage) e1))
    end in
  match esModules e2 !! path with
  | Some storage => put_prop module MODULE_STORAGE_PROP (HObject storage) e2
  | None => e2
  end.

(** [path := dir + "/" + id + ".js"] *)
Definition module_path (dir id : string) : string := dir +:+ "/" +:+ id +:+ ".js".

(** The loop of [ModSearch] over the modules directories; [probed]
    collects the paths handed to [ioutil.ReadFile], in order. *)
Fixpoint modSearchDirs (dirs : list string) (id : string) (module : nat)
    (e : ESEngine) (probed : list string)
  : option (string * string) * list string * ESEngine :=
  match dirs with
  | [] => (None, probed, e)
  | dir :: rest =>
      let path := module_path dir id in
      match ReadFile path e with
      | Some src =>
          (Some (path, src), (probed ++ [path])%list, attach_module path module e)
      | None => modSearchDirs rest id module e (probed ++ [path])%list
      end
  end.

(** [ModSearch], the native [Duktape.modSearch(id, require, exports,
    module)]; [module] is the reference of the module object at stack
    index 3. Besides the result the model returns the probed paths. *)
Definition ModSearch (id : JSValue) (module : nat) (e : ESEngine)
  : DukRet * list string * ESEngine :=
  let id := GetString id in
  match modSearchDirs (modulesDirs e) id module e [] with
  | (Some (_, src), probed, e') => (Ret1 (JSString src), probed, e')
  | (None, probed, e') =>
      (DUK_RET_ERROR, probed,
       call (wbgo_Error ("error requiring module " +:+ id +:+ ", not found")) e')
  end.

(** *** Loading scripts *)

(** Go's path/filepath and [wbgo.IsSubpath]; [filepath.Abs] and
    [filepath.Rel] can fail. *)
Variable filepath_Abs : string -> string + string.
Variable filepath_Clean : string -> string.
Variable filepath_Rel : string -> string -> string + string.
Variable filepath_Join : string -> string -> string.
Variable filepath_Dir : string -> string.
Variable IsSubpath : string -> string -> bool.

(** The outcome of [os.MkdirAll] and of [ioutil.WriteFile] on a path:
    [None] for success, or the message of the error. *)
Variable MkdirAll_error : string -> ESEngine -> option string.
Variable WriteFile_error : string -> ESEngine -> option string.

(** The content hash of [wbgo.ContentTracker]. *)
Variable content_hash : string -> string.

(** The interpreter: the behaviour of a script text when it is
    evaluated, and whether the call of [__esInitEnv] on the global
    object of a new thread fails. *)
Variable interpret : string -> Script.
Variable esInitEnv_fails : bool.

(** [checkSourcePath]: clean path, virtual path, under the source root,
    error. *)
Definition checkSourcePath (path : string) (e : ESEngine)
  : string * string * bool * option error :=
  match filepath_Abs path with
  | inr err => ("", "", false, Some (PlainError err))
  | inl path =>
      let cleanPath := filepath_Clean path in
      if IsSubpath (sourceRoot e) cleanPath then
        match filepath_Rel (sourceRoot e) path with
        | inl virtualPath => (cleanPath, virtualPath, true, None)
        | inr err => (cleanPath, "", true, Some (PlainError err))
        end
      else (cleanPath, "", false, None)
  end.

(** [checkVirtualPath]: clean path, virtual path, error. *)
Definition checkVirtualPath (path : string) (e : ESEngine)
  : string * string * option error :=
  let physicalPath := filepath_Join (sourceRoot e) (filepath_Clean path) in
  let '(cleanPath, virtualPath, underSourceRoot, err) :=
    checkSourcePath physicalPath e in
  match err with
  | None =>
      if negb underSourceRoot
      then (cleanPath, virtualPath, Some (PlainError "path not under source root"))
      else (cleanPath, virtualPath, None)
  | Some _ => (cleanPath, virtualPath, err)
  end.

(** Modelled from the spec: [wbgo.ContentTracker.Track(key, path)] is
    outside the repository. The spec keeps "contentTracker: virtualPath
    → hash" and has a load "hash the file" and compare with "the
    recorded one": the file is read and hashed, the hash is recorded
    under the key, and the result tells whether the key is new or its
    hash differs from the one recorded before. *)
Definition Track (key path : string) (e : ESEngine) : (bool + error) * ESEngine :=
  match ReadFile path e with
  | None => (inr (PlainError ("cannot read " +:+ path)), e)
  | Some content =>
      let h := content_hash content in
      let wasChangedOrFirstSeen :=
        match tracker e !! key with
        | Some old => negb (String.eqb old h)
        | None => true
        end in
      (inl wasChangedOrFirstSeen, set_tracker (<[ key := h ]> (tracker e)) e)
  end.

(** [runTimerCleanups]: stop the timers of a context. The source walks
    a Go map, whose order is not fixed; the model takes the order of the
    finite map. *)
Definition runTimerCleanups (ctx : nat) (e : ESEngine) : ESEngine :=
  match ctxTimers e !! ctx with
  | Some s =>
      let ids := map fst (filter (fun p => snd p = true) (map_to_list s)) in
      fold_left (fun e id => call (StopTimerByIndex id) e) ids e
  | None => e
  end.

(** [removeThreadFromStorage] *)
Definition removeThreadFromStorage (path : string) (e : ESEngine) : ESEngine :=
  match esThreads e !! path with
  | Some _ => set_esThreads (delete path (esThreads e)) e
  | None =>
      call (wbgo_Error ("trying to remove thread " +:+ path
                          +:+ ", but it doesn't exist")) e
  end.

Definition run_cleanup (c : Cleanup) (e : ESEngine) : ESEngine :=
  match c with
  | CleanupDeleteSource virtualPath =>
      set_sources (delete virtualPath (sources e)) e
  end.

(** Modelled from the spec: the cleanup scopes ([engine.cleanup]) are
    outside esengine.go. A closure added while the scope of a path is
    open is run, once, by the next [RunCleanups] of that path; the
    closures the rule engine itself adds (removal of rules) stay behind
    the recorded call. *)
Definition cleanup_AddCleanup (scope : string) (c : Cleanup) (e : ESEngine)
  : ESEngine :=
  let cs := match cleanups e !! scope with Some cs => cs | None => [] end in
  call (AddCleanup c) (set_cleanups (<[ scope := (cs ++ [c])%list ]> (cleanups e)) e).

Definition cleanup_RunCleanups (scope : string) (e : ESEngine) : ESEngine :=
  let e1 := call (RunCleanups scope) e in
  match cleanups e1 !! scope with
  | Some cs =>
      fold_left (fun e c => run_cleanup c e) cs
        (set_cleanups (delete scope (cleanups e1)) e1)
  | None => e1
  end.

(** [runCleanups] *)
Definition runCleanups (path : string) (e : ESEngine) : ESEngine :=
  let e1 :=
    match localCtxs e !! path with
    | Some ctx => removeThreadFromStorage path (runTimerCleanups ctx e)
    | None => e
    end in
  cleanup_RunCleanups path e1.

(** [trackESError] *)
Definition trackESError (path : string) (err : option error) (e : ESEngine)
  : option error * ESEngine :=
  match err with
  | Some (ESErr esError) =>
      let traceback :=
        flat_map (fun esLoc =>
          match checkSourcePath (loc_filename esLoc) e with
          | (_, virtualPath, true, None) =>
              [ {| Line := loc_line esLoc; Name := virtualPath |} ]
          | _ => []
          end) (es_Traceback esError) in
      let scriptErr := NewScriptError (es_Message esError) traceback in
      let e1 :=
        match currentSource e with
        | Some src =>
            set_currentSource
              (Some {| VirtualPath := VirtualPath src;
                       PhysicalPath := PhysicalPath src;
                       Devices := Devices src; Rules := Rules src;
                       Error := Some scriptErr |}) e
        | None => e
        end in
      (Some (ScriptErr scriptErr), e1)
  | _ => (err, e)
  end.

(** One bridge call of a running script, in the context of its thread.
    [None]: the Go code panics. *)
Definition bridge (f : BridgeFunction) (ctx : ESContext) (e : ESEngine)
  : option (DukRet * ESEngine) :=
  match f with
  | Bridge_wbDefineRule => Some (esWbDefineRule ctx e)
  | Bridge_wbStartTimer => Some (esWbStartTimer ctx e)
  | Bridge_wbStopTimer => Some (esWbStopTimer ctx e)
  | Bridge_defineVirtualDevice => esDefineVirtualDevice ctx e
  | Bridge_virtualDeviceId => Some (esVirtualDeviceId ctx e)
  | Bridge_wbPersistentName => Some (esPersistentName ctx e)
  | Bridge_wbPersistentSet => Some (esPersistentSet ctx e)
  | Bridge_wbPersistentGet => Some (esPersistentGet ctx e)
  end.

(** The evaluation of a script in the thread [ctx], whose current file
    name is [filename]. A module object is created for every module
    look-up. *)
Fixpoint run_script (ctx : nat) (filename : string) (s : Script) (e : ESEngine)
  : option (option error * ESEngine) :=
  match s with
  | ScriptDone outcome => Some (outcome, e)
  | ScriptCall f this args traceback k =>
      let c := {| ctx_id := ctx; ctx_stack := args; ctx_this := this;
                  ctx_filename := filename; ctx_traceback := traceback |} in
      match bridge f c e with
      | Some (r, e') => run_script ctx filename (k r) e'
      | None => None
      end
  | ScriptRequire id k =>
      let module := nextRef e in
      let e1 := set_objects (<[ module := ∅ ]> (objects e)) (set_nextRef (S module) e) in
      let '(r, _, e2) := ModSearch id module e1 in
      run_script ctx filename (k r) e2
  end.

(** Modelled from the spec: [ESContext.LoadScenario(path)] is outside
    esengine.go; the spec has it "evaluate the file". The file is read
    and its text evaluated in the thread of the context. *)
Definition ESContext_LoadScenario (ctx : nat) (filename path : string) (e : ESEngine)
  : option (option error * ESEngine) :=
  let e1 := call (LoadScenario ctx path) e in
  match ReadFile path e1 with
  | None => Some (Some (PlainError ("cannot read " +:+ path)), e1)
  | Some text => run_script ctx filename (interpret text) e1
  end.

(** [loadScript]: whether the script was loaded, and the error.
    [None]: the Go code panics. *)
Definition loadScript (path : string) (loadIfUnchanged : bool) (e : ESEngine)
  : option (bool * option error * ESEngine) :=
  let '(path, virtualPath, underSourceRoot, err) := checkSourcePath path e in
  match err with
  | Some _ => Some (false, err, e)
  | None =>
      match currentSource e with
      | Some _ => None   (* "recursive loadScript() calls not supported" *)
      | None =>
          match Track virtualPath path e with
          | (inr err, e1) => Some (false, Some err, e1)
          | (inl wasChangedOrFirstSeen, e1) =>
              if negb loadIfUnchanged && negb wasChangedOrFirstSeen then
                Some (false, None, e1)
              else
                (* cleanup if old script exists *)
                let e2 := runCleanups path e1 in
                (* create new thread and context *)
                let newLocalCtx := nextRef e2 in
                let e3 := call (PushThreadNewGlobalenv newLocalCtx)
                            (set_nextRef (S newLocalCtx) e2) in
                let e4 := set_localCtxs (<[ path := newLocalCtx ]> (localCtxs e3)) e3 in
                (* save new thread into storage *)
                let e5 := set_esThreads (<[ path := newLocalCtx ]> (esThreads e4)) e4 in
                let e6 := call (PushCleanupScope path) e5 in
                let e7 :=
                  if underSourceRoot then
                    cleanup_AddCleanup path (CleanupDeleteSource virtualPath)
                      (set_currentSource
                         (Some {| VirtualPath := virtualPath; PhysicalPath := path;
                                  Devices := []; Rules := []; Error := None |}) e6)
                  else e6 in
                let e8 := if esInitEnv_fails
                          then call (wbgo_Error "Failed to call __esInitEnv") e7
                          else e7 in
                match ESContext_LoadScenario newLocalCtx virtualPath path e8 with
                | None => None
                | Some (err, e9) =>
                    let '(err, e10) := trackESError path err e9 in
                    (* deferred calls, last first *)
                    let e11 :=
                      if underSourceRoot then
                        set_currentSource None
                          (match currentSource e10 with
                           | Some src =>
                               set_sources (<[ virtualPath := src ]> (sources e10)) e10
                           | None => e10
                           end)
                      else e10 in
                    Some (true, err, call (PopCleanupScope path) e11)
                end
          end
      end
  end.

(** [LoadFile] *)
Definition LoadFile (path : string) (e : ESEngine) : option (option error * ESEngine) :=
  match loadScript path true e with
  | Some (_, err, e') => Some (err, e')
  | None => None
  end.

(** [maybePublishUpdate] *)
Definition maybePublishUpdate (subtopic physicalPath : string) (e : ESEngine)
  : ESEngine :=
  let '(_, virtualPath, underSourceRoot, err) := checkSourcePath physicalPath e in
  let e1 :=
    match err with
    | Some err =>
        call (wbgo_Error ("checkSourcePath() failed for " +:+ physicalPath
                            +:+ ": " +:+ error_message err)) e
    | None => e
    end in
  if underSourceRoot
  then call (Publish ("/wbrules/updates/" +:+ subtopic) virtualPath 1 false) e1
  else e1.

(** [loadScriptAndRefresh] *)
Definition loadScriptAndRefresh (path : string) (loadIfUnchanged : bool)
    (e : ESEngine) : option (option error * ESEngine) :=
  match loadScript path loadIfUnchanged e with
  | None => None
  | Some (loaded, err, e1) =>
      if loaded
      then Some (err, maybePublishUpdate "changed" path (call Refresh e1))
      else Some (err, e1)
  end.

(** [strings.Contains(s, "/")] *)
Definition contains_slash (s : string) : bool :=
  match cut_slash s with Some _ => true | None => false end.

(** [LiveWriteScript], once the engine is ready. *)
Definition LiveWriteScript (virtualPath content : string) (e : ESEngine)
  : option (option error * ESEngine) :=
  let '(cleanPath, virtualPath, err) := checkVirtualPath virtualPath e in
  match err with
  | Some _ => Some (err, e)
  | None =>
      let mkdir :=
        if contains_slash virtualPath
        then MkdirAll_error (filepath_Dir cleanPath) e
        else None in
      match mkdir with
      | Some err =>
          Some (Some (PlainError err),
                call (wbgo_Error ("error making dirs for " +:+ cleanPath
                                    +:+ ": " +:+ err)) e)
      | None =>
          match WriteFile_error cleanPath e with
          | Some err => Some (Some (PlainError err), e)
          | None =>
              loadScriptAndRefresh cleanPath true
                (set_fs (<[ cleanPath := content ]> (fs e)) e)
          end
      end
  end.

(** [LiveLoadFile], once the engine is ready. *)
Definition LiveLoadFile (path : string) (e : ESEngine)
  : option (option error * ESEngine) :=
  loadScriptAndRefresh path false e.

(** [LiveRemoveFile], once the engine is ready. *)
Definition LiveRemoveFile (path : string) (e : ESEngine) : ESEngine :=
  maybePublishUpdate "removed" path (call Refresh (runCleanups path e)).

(** *** Evaluation of rule conditions *)

(** What one scan of the rules reads: the complete cells, each with its
    value and whether it is a pushbutton ([None]: the cell is not
    complete), and the outcome of calling a script function: its
    result, the cells it touched, and whether one of them was
    incomplete. *)
Record ScanEnv := {
  scan_cell : CellSpec -> option (JSValue * bool);
  scan_call : JSValue -> JSValue * list CellSpec * bool
}.

(** The outcome of checking a condition in a scan: whether the rule
    fires, the value handed to [then], the cells the rule depends on,
    and the condition with what it remembers for the next scan. *)
Record CheckResult := {
  fired : bool;
  newValue : JSValue;
  touched : list CellSpec;
  next : RuleCondition
}.

(** ECMAScript strict equality on results that come back through the
    bridge: primitives by value, functions by reference; objects and
    arrays are converted afresh on every call and are never identical. *)
Definition strict_equal (a b : JSValue) : bool :=
  match a, b with
  | JSUndefined, JSUndefined => true
  | JSNull, JSNull => true
  | JSBoolean x, JSBoolean y => Bool.eqb x y
  | JSNumber x, JSNumber y => SFeqb x y
  | JSString x, JSString y => String.eqb x y
  | JSFunction x, JSFunction y => (x =? y)%nat
  | _, _ => false
  end.

Definition changed (old : option JSValue) (v : JSValue) : bool :=
  match old with
  | Some o => negb (strict_equal o v)
  | None => true
  end.

(** The function that [wrapRuleCondFunc] returns: [r, ok := f(nil).(bool);
    return ok && r]. *)
Definition cond_holds (r : JSValue) : bool :=
  match r with JSBoolean b => b | _ => false end.

(** Modelled from the spec: the [Check] of the rule conditions is
    outside esengine.go. After section 4.3 of the spec: a level
    condition fires when its function holds; an edge condition fires on
    the change from false to true and stores the last result; a
    cell-changed condition fires iff the cell is complete and its value
    differs from the last seen one or the cell is a pushbutton, and
    stores the value; a function-value condition fires iff the result
    differs from the last one and stores it; a condition whose function
    touched an incomplete cell is skipped; an or-condition checks every
    child in the declared order, fires iff a child fires and
    accumulates the dependencies of all children; a cron condition does
    not fire in a scan. *)
Fixpoint Check (env : ScanEnv) (c : RuleCondition) : CheckResult :=
  match c with
  | LevelTriggeredRuleCondition f =>
      let '(r, cells, incomplete) := scan_call env f in
      {| fired := negb incomplete && cond_holds r; newValue := JSUndefined;
         touched := cells; next := c |}
  | EdgeTriggeredRuleCondition f prev =>
      let '(r, cells, incomplete) := scan_call env f in
      if incomplete then
        {| fired := false; newValue := JSUndefined; touched := cells; next := c |}
      else
        {| fired := cond_holds r && negb prev; newValue := JSUndefined;
           touched := cells;
           next := EdgeTriggeredRuleCondition f (cond_holds r) |}
  | CellChangedRuleCondition spec old =>
      match scan_cell env spec with
      | None =>
          {| fired := false; newValue := JSUndefined; touched := [spec]; next := c |}
      | Some (v, pushbutton) =>
          {| fired := changed old v || pushbutton; newValue := v;
             touched := [spec];
             next := CellChangedRuleCondition spec (Some v) |}
      end
  | FuncValueChangedRuleCondition f old =>
      let '(r, cells, incomplete) := scan_call env f in
      if incomplete then
        {| fired := false; newValue := JSUndefined; touched := cells; next := c |}
      else
        {| fired := changed old r; newValue := r; touched := cells;
           next := FuncValueChangedRuleCondition f (Some r) |}
  | OrRuleCondition conds =>
      let rs := map (Check env) conds in
      {| fired := existsb fired rs;
         newValue := match filter (fun r => fired r = true) rs with
                     | r :: _ => newValue r
                     | [] => JSUndefined
                     end;
         touched := concat (map touched rs);
         next := OrRuleCondition (map next rs) |}
  | CronRuleCondition _ =>
      {| fired := false; newValue := JSUndefined; touched := []; next := c |}
  end.

(** What a rule with the condition [c] shows over successive scans:
    for each scan whether it fires, the value handed to [then] when it
    does, and the cells it is indexed under afterwards. *)
Fixpoint scans (c : RuleCondition) (envs : list ScanEnv)
  : list (bool * option JSValue * list CellSpec) :=
  match envs with
  | [] => []
  | env :: rest =>
      let r := Check env c in
      (fired r, (if fired r then Some (newValue r) else None), touched r)
        :: scans (next r) rest
  end.

(** *** The properties in the words of the spec *)

(** The first four bytes of a digest after byte [i] has been combined by
    exclusive or with the bytes [i+4], [i+8] and [i+12]. *)
Definition xor_fold (digest : list Z) : list Z :=
  map (fun i => Z.lxor (Z.lxor (Z.lxor (nth i digest 0) (nth (i + 4) digest 0))
                               (nth (i + 8) digest 0))
                       (nth (i + 12) digest 0))
      (seq 0 4).

(** The hash [H] of a module path: the base64url text, without padding,
    of the folded MD5 digest of the path. *)
Definition path_hash (path : string) : string :=
  base64.RawURLEncoding_EncodeToString (xor_fold (md5.Sum (bytes_of_string path))).

(** The cache holds nothing but hashes of its keys. *)
Definition cache_ok (cache : gmap string string) : Prop :=
  forall path h, cache !! path = Some h -> h = path_hash path.

(** A specification of [whenChanged] is malformed when it is a string
    without the separator ["/"] or neither a string nor a function; the
    specification is one such item or an array of them. *)
Definition whenChanged_item_malformed (v : JSValue) : bool :=
  match v with
  | JSString s => negb (contains_slash s)
  | JSFunction _ => false
  | _ => true
  end.

Definition whenChanged_malformed (w : JSValue) : bool :=
  match w with
  | JSArray elems => existsb whenChanged_item_malformed elems
  | v => whenChanged_item_malformed v
  end.

(** A rule definition is invalid when it has no [then], combines two
    kinds of trigger, has no trigger, or has a malformed [whenChanged]. *)
Definition invalid_definition (def : JSValue) : bool :=
  let hasWhen := HasPropString def "when" in
  let hasAsSoonAs := HasPropString def "asSoonAs" in
  let hasWhenChanged := HasPropString def "whenChanged" in
  let hasCron := HasPropString def "_cron" in
  negb (HasPropString def "then")
  || (hasWhen && (hasAsSoonAs || hasWhenChanged || hasCron))
  || (hasAsSoonAs && (hasWhenChanged || hasCron))
  || (hasWhenChanged && hasCron)
  || negb (hasWhen || hasAsSoonAs || hasWhenChanged || hasCron)
  || (hasWhenChanged && whenChanged_malformed (GetPropString def "whenChanged")).

(** The rules that were handed to the rule table, in order. *)
Definition defined_rules (cs : list Call) : list Rule :=
  flat_map (fun c => match c with DefineRule r => [r] | _ => [] end) cs.

(** The intervals of the timers that were started, in order. *)
Definition started_intervals (cs : list Call) : list Z :=
  flat_map (fun c => match c with StartTimer _ _ i _ => [i] | _ => [] end) cs.

(** The timer ids and names handed to the registry for stopping. *)
Definition stop_requests (cs : list Call) : list Call :=
  flat_map (fun c => match c with
                     | StopTimerByIndex _ | StopTimerByName _ => [c]
                     | _ => []
                     end) cs.

(** The number of script evaluations. *)
Definition loads (e : ESEngine) : nat :=
  length (flat_map (fun c => match c with LoadScenario _ p => [p] | _ => [] end)
                   (calls e)).

(** The path under which [require(id)] finds a module: the first
    modules directory with a readable [<dir>/<id>.js]. *)
Fixpoint resolve (dirs : list string) (id : string) (e : ESEngine) : option string :=
  match dirs with
  | [] => None
  | dir :: rest =>
      let path := module_path dir id in
      match ReadFile path e with
      | Some _ => Some path
      | None => resolve rest id e
      end
  end.

(** A property of a heap object. *)
Definition heap_prop (obj : nat) (key : string) (e : ESEngine) : option HeapValue :=
  match objects e !! obj with
  | Some props => props !! key
  | None => None
  end.

Definition is_inr {A B : Type} (x : A + B) : bool :=
  match x with inl _ => false | inr _ => true end.

(** The two call shapes of [defineRule]: a definition object alone, or
    a name and a definition object. *)
Definition shape_anonymous (ctx : ESContext) : bool :=
  match ctx_stack ctx with
  | [def] => IsObject def
  | _ => false
  end.

Definition shape_named (ctx : ESContext) : bool :=
  match ctx_stack ctx with
  | [name; def] => IsString name && IsObject def
  | _ => false
  end.

(** The rule definition object of a call of either shape. *)
Definition definition_of (ctx : ESContext) : JSValue :=
  match ctx_stack ctx with
  | [def] => def
  | [_; def] => def
  | _ => JSUndefined
  end.

(** What the evaluation of a script leaves alone: the files, the
    content tracker, the source root and the modules directories. *)
Definition files (e : ESEngine)
  : gmap string string * gmap string string * string * list string :=
  (fs e, tracker e, sourceRoot e, modulesDirs e).

(** The storage objects of the modules are never dropped or replaced. *)
Definition storages_kept (e e' : ESEngine) : Prop :=
  forall path storage,
    esModules e !! path = Some storage -> esModules e' !! path = Some storage.

(** One operation of the engine, on behalf of a script of any thread or
    of the host. *)
Inductive engine_step : ESEngine -> ESEngine -> Prop :=
| step_bridge f ctx e r e' :
    bridge f ctx e = Some (r, e') -> engine_step e e'
| step_require id module e :
    engine_step e (snd (ModSearch id module e))
| step_timer_removed ctx timer e :
    engine_step e (timerRemoved ctx timer e)
| step_load path loadIfUnchanged e err e' :
    loadScriptAndRefresh path loadIfUnchanged e = Some (err, e') ->
    engine_step e e'
| step_write virtualPath content e err e' :
    LiveWriteScript virtualPath content e = Some (err, e') ->
    engine_step e e'
| step_remove path e :
    engine_step e (LiveRemoveFile path e).

(** Any number of operations. *)
Definition reaches : ESEngine -> ESEngine -> Prop := rtc engine_step.

Definition is_load (c : Call) : bool :=
  match c with LoadScenario _ _ => true | _ => false end.

(** What every bridge call keeps: the files, tracker and directories;
    the storage objects of the modules; the number of script
    evaluations; whether a script is being loaded; the invariant of the
    hash cache. *)
Definition script_frame (e e' : ESEngine) : Prop :=
  files e' = files e
  /\ storages_kept e e'
  /\ loads e' = loads e
  /\ (currentSource e = None <-> currentSource e' = None)
  /\ (cache_ok (filenameMd5s e) -> cache_ok (filenameMd5s e')).

(** What the host-side steps of loading keep, with the number [n] of
    script evaluations they add. *)
Definition load_frame (n : nat) (e e' : ESEngine) : Prop :=
  files e' = files e
  /\ storages_kept e e'
  /\ loads e' = (n + loads e)%nat
  /\ (cache_ok (filenameMd5s e) -> cache_ok (filenameMd5s e')).

(** * The rest of the bridge *)

(** ** Controller objects of virtual devices *)

(** [noSuchPropError] and [wrongPropTypeError] *)
Definition noSuchPropError : string := "no such property".
Definition wrongPropTypeError : string := "wrong property type".

(** [getStringPropFromObject], on the value at [objIndex]. Duktape's
    [duk_has_prop_string] accepts an object only and raises an error on
    any other value: that is the result [None]. *)
Definition getStringPropFromObject (obj : JSValue) (propName : string)
  : option (string + string) :=
  if negb (IsObject obj) then None
  else if negb (HasPropString obj propName) then Some (inr noSuchPropError)
  else
    let id := GetString (GetPropString obj propName) in
    if String.eqb id "" then Some (inr wrongPropTypeError) else Some (inl id).

(** [esVdevGetDeviceId], the method [getDeviceId()] of a controller
    object. It neither reads nor changes the engine. *)
Definition esVdevGetDeviceId (ctx : ESContext) : DukRet :=
  if negb (GetTop ctx =? 0)%nat then DUK_RET_ERROR
  else
    match getStringPropFromObject (ctx_this ctx) VDEV_OBJ_PROP_DEVID with
    | None => DukThrow
    | Some (inr _) => DUK_RET_TYPE_ERROR
    | Some (inl devId) => Ret1 (JSString devId)
    end.

(** [esVdevGetCellId], the method [getCellId(cell)] of a controller
    object. *)
Definition esVdevGetCellId (ctx : ESContext) : DukRet :=
  if negb (GetTop ctx =? 1)%nat || negb (IsString (stack_at ctx (-1))) then
    DUK_RET_ERROR
  else
    let cellId := GetString (stack_at ctx (-1)) in
    match getStringPropFromObject (ctx_this ctx) VDEV_OBJ_PROP_DEVID with
    | None => DukThrow
    | Some (inr _) => DUK_RET_TYPE_ERROR
    | Some (inl devId) => Ret1 (JSString (devId +:+ "/" +:+ cellId))
    end.

(** ** Publishing *)

(** The range of Go's [int], 32 or 64 bits wide by the port. *)
Variables int_min int_max : Z.

(** [int(x)] *)
Definition int_of_float64 : float64 -> Z :=
  go_float_to_int int_min int_max unrepresentable.

(** The ECMAScript coercion [ToNumber] of the interpreter on a string
    or an object ([None]: the coercion raises an error). *)
Variable ToNumber_coerce : JSValue -> option float64.

(** [ctx.ToNumber] *)
Definition ToNumber (v : JSValue) : option float64 :=
  match v with
  | JSNumber x => Some x
  | JSUndefined => Some S754_nan
  | JSNull => Some (S754_zero false)
  | JSBoolean b => Some (if b then float64_of_Z 1 else S754_zero false)
  | _ => ToNumber_coerce v
  end.

(** The end of [esPublish], once the optional arguments have been
    taken off the stack. *)
Definition publish_message (stack : list JSValue) (qos : Z) (retain : bool)
    (e : ESEngine) : DukRet * ESEngine :=
  if negb (length stack =? 2)%nat then (DUK_RET_ERROR, e)
  else if negb (IsString (nth 0 stack JSUndefined)) then (DUK_RET_TYPE_ERROR, e)
  else
    let topic := GetString (nth 0 stack JSUndefined) in
    let payload := SafeToString (nth 1 stack JSUndefined) in
    (Ret0, call (Publish topic payload qos retain) e).

(** [esPublish], the bridge [publish(topic, payload [, qos [, retain]])]. *)
Definition esPublish (ctx : ESContext) (e : ESEngine) : DukRet * ESEngine :=
  let stack := ctx_stack ctx in
  let '(retain, stack) :=
    if (length stack =? 4)%nat
    then (ToBoolean (List.last stack JSUndefined), List.removelast stack)
    else (false, stack) in
  if (length stack =? 3)%nat then
    match ToNumber (List.last stack JSUndefined) with
    | None => (DukThrow, e)
    | Some x =>
        let qos := int_of_float64 x in
        let stack := List.removelast stack in
        if (qos <? 0) || (2 <? qos) then (DUK_RET_ERROR, e)
        else publish_message stack qos retain e
    end
  else publish_message stack 0 retain e.

(** ** Opening the persistent database *)

(** [bolt.Open(filename, mode, options)]: the content of the database
    file, or the message of the error. *)
Variable bolt_Open : string -> Z -> ESEngine -> gmap string (gmap string string) + string.

(** [PERSISTENT_DB_CHMOD], octal 0640. *)
Definition PERSISTENT_DB_CHMOD : Z := 416.

(** [SetPersistentDBMode] *)
Definition SetPersistentDBMode (filename : string) (mode : Z) (e : ESEngine)
  : option error * ESEngine :=
  match persistentDB e with
  | Some _ =>
      (Some (PlainError "persistent storage DB is already opened"),
       call (Log ENGINE_LOG_ERROR "persistent storage DB is already opened") e)
  | None =>
      match bolt_Open filename mode e with
      | inr err =>
          (Some (PlainError err),
           call (Log ENGINE_LOG_ERROR ("can't open persistent DB file: " +:+ err))
             (set_persistentDB None e))
      | inl db => (None, set_persistentDB (Some db) e)
      end
  end.

(** [SetPersistentDB] *)
Definition SetPersistentDB (filename : string) (e : ESEngine)
  : option error * ESEngine :=
  SetPersistentDBMode filename PERSISTENT_DB_CHMOD e.

(** ** The list of source files *)

(** The order of Go strings: byte by byte. *)
Definition string_le (s1 s2 : string) : Prop := String.leb s1 s2 = true.

#[local] Instance string_le_dec (s1 s2 : string) : Decision (string_le s1 s2).
Proof. unfold string_le. apply _. Defined.

(** [sort.Strings] *)
Definition sort_Strings (l : list string) : list string := merge_sort string_le l.

(** [ListSourceFiles]: the entries by ascending virtual path. The Go
    map is walked in no fixed order; the keys are sorted afterwards. *)
Definition ListSourceFiles (e : ESEngine) : list LocFileEntry :=
  let pathList := sort_Strings (map fst (map_to_list (sources e))) in
  omap (fun virtualPath => sources e !! virtualPath) pathList.

(** ** Bookkeeping for the properties *)

(** The calls made between a state and a later one. *)
Definition new_calls (e e' : ESEngine) : list Call :=
  skipn (length (calls e)) (calls e').

(** A value that [buildSingleWhenChangedRuleCondition] accepts. *)
Definition whenChanged_item_ok (v : JSValue) : Prop :=
  exists cond, buildSingleWhenChangedRuleCondition v = inl cond.

(** Whether the store takes a write: bucket name and key not blank, key
    and value within the limits of bolt. *)
Definition bolt_accepts (bucket key value : string) : bool :=
  negb (String.eqb bucket "") && negb (String.eqb key "")
  && (Z.of_nat (String.length key) <=? bolt.MaxKeySize)
  && (Z.of_nat (String.length value) <=? bolt.MaxValueSize).

(** The text stored under a key of a bucket. *)
Definition stored (db : option (gmap string (gmap string string)))
    (bucket key : string) : option string :=
  match db with
  | Some db => match db !! bucket with Some b => b !! key | None => None end
  | None => None
  end.

(** The paths and the error of the entry of the script being loaded. *)
Definition entry_of (e : ESEngine) : option (string * string * option ScriptError) :=
  match currentSource e with
  | Some src => Some (VirtualPath src, PhysicalPath src, Error src)
  | None => None
  end.

(** What the host keeps for the scripts: the source map, the cleanup
    scopes, the contexts and threads of the scripts, and the entry of
    the script being loaded. *)
Definition host_state (e : ESEngine) :
    gmap string LocFileEntry * gmap string (list Cleanup) * gmap string nat
    * gmap string nat * option (string * string * option ScriptError) :=
  (sources e, cleanups e, localCtxs e, esThreads e, entry_of e).

(** What a bridge call leaves alone: the state of the host, the storage
    objects of the modules and the next fresh reference. *)
Definition bridge_state (e : ESEngine) :=
  (host_state e, esModules e, nextRef e).

(** The storage objects of the modules are references that have been
    handed out, and no two module paths have the same one. *)
Definition modules_ok (e : ESEngine) : Prop :=
  (forall path s, esModules e !! path = Some s -> (s < nextRef e)%nat)
  /\ (forall path1 path2 s,
         esModules e !! path1 = Some s -> esModules e !! path2 = Some s ->
         path1 = path2).

(** The source map after the closures of a cleanup scope have run. *)
Definition sources_after (cs : list Cleanup) (m : gmap string LocFileEntry)
  : gmap string LocFileEntry :=
  fold_left (fun m c => match c with CleanupDeleteSource vp => delete vp m end) cs m.

(** Every entry of the source map stands under its own virtual path. *)
Definition sources_ok (e : ESEngine) : Prop :=
  forall k src, sources e !! k = Some src -> VirtualPath src = k.

(** The calls of a state are kept, in order, by a later one. *)
Definition calls_grow (e e' : ESEngine) : Prop :=
  exists extra, calls e' = (calls e ++ extra)%list.

(** * Properties *)

(** ** Module-local object ids *)

Lemma md5_Sum_length (data : list Z) : length (md5.Sum data) = 16%nat.
Proof.
  unfold md5.Sum.
  destruct (md5.blocks _ _ _) as [a b c d].
  reflexivity.
Qed.

(** The loop of [getFilenameHash] updates the digest in place, yet no
    iteration reads a byte that an earlier one has written. *)
Lemma fold_loop_xor_fold (digest : list Z) :
  length digest = 16%nat ->
  firstn (md5.Size / 4) (fold_loop digest) = xor_fold digest.
Proof.
  intros Hlen.
  do 17 (destruct digest as [|? digest]; try discriminate Hlen).
  reflexivity.
Qed.

Lemma getFilenameHash_fresh (cache : gmap string string) (filename : string) :
  cache !! filename = None ->
  getFilenameHash cache filename
  = (path_hash filename, <[ filename := path_hash filename ]> cache).
Proof.
  intros Hnone. unfold getFilenameHash. rewrite Hnone.
  unfold path_hash.
  rewrite (fold_loop_xor_fold _ (md5_Sum_length _)).
  reflexivity.
Qed.

Lemma getFilenameHash_memo (cache : gmap string string) (filename h : string) :
  cache !! filename = Some h ->
  getFilenameHash cache filename = (h, cache).
Proof. intros Hsome. unfold getFilenameHash. now rewrite Hsome. Qed.

Lemma cache_ok_empty : cache_ok ∅.
Proof. intros path h Hl. rewrite lookup_empty in Hl. discriminate. Qed.

Lemma cache_ok_insert (cache : gmap string string) (filename : string) :
  cache_ok cache -> cache_ok (<[ filename := path_hash filename ]> cache).
Proof.
  intros Hok path h Hl.
  destruct (decide (filename = path)) as [->|Hne].
  - rewrite lookup_insert_eq in Hl. congruence.
  - rewrite lookup_insert_ne in Hl by assumption. now apply Hok.
Qed.

(** Under the invariant of the cache the hash of a path is the hash of
    the spec, whether it is computed or read from the cache, and the
    invariant is kept. *)
Lemma getFilenameHash_spec (cache : gmap string string) (filename : string) :
  cache_ok cache ->
  exists cache',
    getFilenameHash cache filename = (path_hash filename, cache')
    /\ cache_ok cache'
    /\ cache' !! filename = Some (path_hash filename)
    /\ (forall other, other <> filename -> cache' !! other = cache !! other).
Proof.
  intros Hok.
  destruct (cache !! filename) as [h|] eqn:Hl.
  - exists cache. rewrite (getFilenameHash_memo _ _ _ Hl).
    pose proof (Hok _ _ Hl) as ->. repeat split; auto.
  - exists (<[ filename := path_hash filename ]> cache).
    rewrite (getFilenameHash_fresh _ _ Hl).
    split; [reflexivity|]. split; [now apply cache_ok_insert|].
    split; [apply lookup_insert_eq|].
    intros other Hne. now apply lookup_insert_ne.
Qed.

(** In module scope the name is rewritten, and only the cache changes. *)
Lemma maybeExpandLocalObjectId_module (ctx : ESContext) (props : list (string * JSValue))
    (P N : string) (e : ESEngine) :
  ctx_this ctx = JSObject props ->
  assoc_lookup "filename" props = Some (JSString P) ->
  cache_ok (filenameMd5s e) ->
  exists cache',
    maybeExpandLocalObjectId ctx N e
    = ("_" +:+ path_hash P +:+ N, set_filenameMd5s cache' e)
    /\ cache_ok cache'
    /\ cache' !! P = Some (path_hash P).
Proof.
  intros Hthis Hprop Hok.
  destruct (getFilenameHash_spec _ P Hok) as (cache' & Hget & Hok' & HP & _).
  exists cache'.
  unfold maybeExpandLocalObjectId, localObjectId.
  rewrite Hthis. cbn [IsObject HasPropString GetPropString andb].
  rewrite Hprop, Hget. auto.
Qed.

(** Outside a module ([this] has no [filename]) the name is kept. *)
Lemma maybeExpandLocalObjectId_toplevel (ctx : ESContext) (N : string) (e : ESEngine) :
  HasPropString (ctx_this ctx) "filename" = false ->
  maybeExpandLocalObjectId ctx N e = (N, e).
Proof.
  intros Hno. unfold maybeExpandLocalObjectId.
  rewrite Hno, andb_false_r. reflexivity.
Qed.

(** The name a successful [_wbPersistentName] returns is the expanded
    name of its first argument. *)
Lemma esPersistentName_name (ctx : ESContext) (e e' : ESEngine) (r : DukRet) :
  esPersistentName ctx e = (r, e') ->
  throws r = false ->
  r = Ret1 (JSString (fst (maybeExpandLocalObjectId ctx (GetString (stack_at ctx 0)) e))).
Proof.
  unfold esPersistentName. intros H Hr.
  destruct (persistentDB e); [|inversion H; subst; discriminate].
  repeat match type of H with
         | (if ?c then _ else _) = _ =>
             destruct c; [inversion H; subst; discriminate|]
         end.
  destruct (maybeExpandLocalObjectId _ _ e) as [name e1].
  inversion H; subst. reflexivity.
Qed.

(** A successful [defineVirtualDevice] defines the device under the
    expanded name and returns a controller that carries it. *)
Lemma esDefineVirtualDevice_name (ctx : ESContext) (e e' : ESEngine) (r : DukRet) :
  esDefineVirtualDevice ctx e = Some (r, e') ->
  throws r = false ->
  let name := fst (maybeExpandLocalObjectId ctx (GetString (stack_at ctx (-2))) e) in
  r = Ret1 (JSObject [(VDEV_OBJ_PROP_DEVID, JSString name)])
  /\ In (DefineVirtualDevice name (stack_at ctx (-1))) (calls e').
Proof.
  unfold esDefineVirtualDevice. intros H Hr.
  destruct (_ || _); [inversion H; subst; discriminate|].
  destruct (stack_at ctx (-1)) as [| | | | | | |props] eqn:Hobj; try discriminate H.
  destruct (maybeExpandLocalObjectId _ _ e) as [name e1]. cbn [fst].
  destruct (DefineVirtualDevice_error _ _ _);
    [inversion H; subst; discriminate|].
  inversion H; subst. split; [reflexivity|].
  unfold maybeRegisterSourceItem.
  assert (Hin : In (DefineVirtualDevice name (JSObject props))
                   (calls (call (DefineVirtualDevice name (JSObject props)) e1))).
  { cbn. apply in_or_app. right. now left. }
  destruct (currentSource _); [|exact Hin].
  destruct (_ =? _); exact Hin.
Qed.

(** C1. A name declared in module scope, from the module with the
    physical path [P], is rewritten to ["_" + H + N], where [H] is the
    base64url text (without padding) of the first four bytes of md5(P)
    after byte i has been folded with the bytes i+4, i+8 and i+12 by
    exclusive or; [H] depends on [P] alone and is kept in the cache; a
    declaration outside a module keeps its name. The names that
    [_wbPersistentName] returns and under which [defineVirtualDevice]
    defines a device are the names so rewritten. *)
Theorem local_object_id_is_folded_md5 (ctx : ESContext) (N : string) (e : ESEngine) :
  cache_ok (filenameMd5s e) ->
  (forall props P,
      ctx_this ctx = JSObject props ->
      assoc_lookup "filename" props = Some (JSString P) ->
      exists cache',
        maybeExpandLocalObjectId ctx N e
        = ("_" +:+ path_hash P +:+ N, set_filenameMd5s cache' e)
        /\ cache_ok cache'
        /\ cache' !! P = Some (path_hash P))
  /\ (HasPropString (ctx_this ctx) "filename" = false ->
      maybeExpandLocalObjectId ctx N e = (N, e))
  /\ (forall r e',
        esPersistentName ctx e = (r, e') -> throws r = false ->
        r = Ret1 (JSString
              (fst (maybeExpandLocalObjectId ctx (GetString (stack_at ctx 0)) e))))
  /\ (forall r e',
        esDefineVirtualDevice ctx e = Some (r, e') -> throws r = false ->
        In (DefineVirtualDevice
              (fst (maybeExpandLocalObjectId ctx (GetString (stack_at ctx (-2))) e))
              (stack_at ctx (-1)))
           (calls e')).
Proof.
  intros Hok. repeat split.
  - intros props P Hthis Hprop.
    now apply (maybeExpandLocalObjectId_module ctx props P N e).
  - apply maybeExpandLocalObjectId_toplevel.
  - intros r e'. apply esPersistentName_name.
  - intros r e' H Hr. now apply (esDefineVirtualDevice_name ctx e e' r).
Qed.

(** ** Timers *)

Lemma SFcompare_antisym (a b : float64) :
  SFcompare b a = option_map CompOpp (SFcompare a b).
Proof.
  destruct a as [sa|sa| |sa ma ea], b as [sb|sb| |sb mb eb];
    try reflexivity;
    try (destruct sa; reflexivity);
    try (destruct sb; reflexivity);
    try (destruct sa, sb; reflexivity).
  cbn [SFcompare option_map].
  rewrite (Z.compare_antisym ea eb).
  pose proof (Pos.compare_cont_antisym ma mb Eq) as Hm. cbn [CompOpp] in Hm.
  change PosDef.Pos.compare_cont with Pos.compare_cont.
  rewrite <- Hm.
  destruct sa, sb; try reflexivity;
    destruct (ea ?= eb); cbn [CompOpp]; try reflexivity;
    destruct (Pos.compare_cont _ _ _); reflexivity.
Qed.

(** A number that is at least [y] is not less than [y]. *)
Lemma SFleb_not_SFltb (x y : float64) : SFleb y x = true -> SFltb x y = false.
Proof.
  unfold SFleb, SFltb. rewrite (SFcompare_antisym y x).
  destruct (SFcompare y x) as [[| |]|]; cbn; congruence.
Qed.

(** One millisecond, as the bridge computes it from the number 1. *)
Lemma one_millisecond :
  Duration_of_float64 unrepresentable
    (float64_mul (float64_of_Z MIN_INTERVAL_MS) (float64_of_Z Millisecond))
  = Millisecond.
Proof. reflexivity. Qed.

(** What a successful [_wbStartTimer] asks of the timer registry: it
    may stop the timer of the same name, then starts one timer. *)
Lemma esWbStartTimer_calls (ctx : ESContext) (e e' : ESEngine) (r : DukRet) :
  esWbStartTimer ctx e = (r, e') ->
  throws r = false ->
  let ms := GetNumber (stack_at ctx 1) in
  let ms' := if SFltb ms (float64_of_Z MIN_INTERVAL_MS)
             then float64_of_Z MIN_INTERVAL_MS else ms in
  exists new,
    calls e' = (calls e ++ new)%list
    /\ started_intervals new
       = [Duration_of_float64 unrepresentable
            (float64_mul ms' (float64_of_Z Millisecond))].
Proof.
  unfold esWbStartTimer. intros H Hr.
  destruct (_ || _); [inversion H; subst; discriminate|].
  set (ms := GetNumber (stack_at ctx 1)) in *.
  set (ms' := if SFltb ms _ then _ else ms) in *.
  cbv zeta.
  destruct (IsString (stack_at ctx 0)).
  - destruct (String.eqb _ ""); [inversion H; subst; discriminate|].
    inversion H; subst; clear H.
    eexists. split.
    + cbn. rewrite <- !app_assoc. reflexivity.
    + reflexivity.
  - destruct (negb _); [inversion H; subst; discriminate|].
    inversion H; subst; clear H.
    eexists. split.
    + cbn. rewrite <- !app_assoc. reflexivity.
    + reflexivity.
Qed.

(** C8, as amended. A timer that the script API starts with a requested
    interval below 1 millisecond is started with an interval of exactly
    1 millisecond. With a requested interval of at least 1 millisecond
    whose length in nanoseconds is within the range of [time.Duration],
    it is started with the requested interval: that number of
    nanoseconds, whatever the platform makes of a conversion that
    cannot be represented. *)
Theorem timer_interval_is_clamped (ctx : ESContext) (e e' : ESEngine) (r : DukRet) :
  esWbStartTimer ctx e = (r, e') ->
  throws r = false ->
  let ms := GetNumber (stack_at ctx 1) in
  exists new,
    calls e' = (calls e ++ new)%list
    /\ (SFltb ms (float64_of_Z 1) = true ->
        started_intervals new = [Millisecond])
    /\ (forall ns,
           SFleb (float64_of_Z 1) ms = true ->
           interval_ns ms = Some ns ->
           fits_Duration ns ->
           started_intervals new = [ns]).
Proof.
  intros H Hr ms.
  destruct (esWbStartTimer_calls ctx e e' r H Hr) as (new & Hcalls & Hnew).
  exists new. split; [exact Hcalls|]. fold ms in Hnew. split.
  - intros Hlt. rewrite Hnew.
    change (float64_of_Z MIN_INTERVAL_MS) with (float64_of_Z 1).
    rewrite Hlt. reflexivity.
  - intros ns Hge Hns [Hlo Hhi]. rewrite Hnew.
    change (float64_of_Z MIN_INTERVAL_MS) with (float64_of_Z 1).
    rewrite (SFleb_not_SFltb _ _ Hge).
    unfold Duration_of_float64, go_float_to_int.
    unfold interval_ns in Hns. rewrite Hns.
    apply Z.leb_le in Hlo, Hhi. rewrite Hlo, Hhi. reflexivity.
Qed.

Lemma TimerId_of_zero (s : bool) : TimerId_of_float64 (S754_zero s) = 0.
Proof using TimerId_has_zero.
  unfold TimerId_of_float64, go_float_to_int. cbn [float64_trunc].
  destruct TimerId_has_zero as [Hlo Hhi].
  apply Z.leb_le in Hlo, Hhi. now rewrite Hlo, Hhi.
Qed.

(** C9. Stopping the timer with the numeric id 0 does nothing but log:
    no stop request reaches the timer registry, nothing else of the
    state changes, and the call returns normally; every numeric
    argument that is a nonzero id is forwarded to the registry. *)
Theorem stop_timer_zero_is_logged_noop (ctx : ESContext) (x : float64) (e : ESEngine) :
  ctx_stack ctx = [JSNumber x] ->
  (forall s, TimerId_of_float64 (S754_zero s) = 0)
  /\ (TimerId_of_float64 x = 0 ->
      esWbStopTimer ctx e = (Ret0, call (wbgo_Error "timer id cannot be zero") e)
      /\ stop_requests (calls (snd (esWbStopTimer ctx e))) = stop_requests (calls e))
  /\ (TimerId_of_float64 x <> 0 ->
      esWbStopTimer ctx e = (Ret0, call (StopTimerByIndex (TimerId_of_float64 x)) e)).
Proof using TimerId_has_zero.
  intros Hstack. split; [exact TimerId_of_zero|].
  assert (Htop : GetTop ctx = 1%nat) by (unfold GetTop; now rewrite Hstack).
  assert (H0 : stack_at ctx 0 = JSNumber x)
    by (unfold stack_at, GetTop; now rewrite Hstack).
  assert (H1 : stack_at ctx (-1) = JSNumber x)
    by (unfold stack_at, GetTop; now rewrite Hstack).
  unfold esWbStopTimer. rewrite Htop, H0, H1.
  cbn [Nat.eqb negb IsNumber GetNumber].
  split.
  - intros Hz. rewrite Hz. cbn [Z.eqb snd]. split; [reflexivity|].
    unfold stop_requests, call. cbn [calls set_calls].
    rewrite flat_map_app. cbn. now rewrite app_nil_r.
  - intros Hnz. apply Z.eqb_neq in Hnz. now rewrite Hnz.
Qed.

(** ** Rule definitions *)

Lemma SplitN_two_parts (s : string) :
  match SplitN_slash_2 s with
  | [_; _] => contains_slash s = true
  | _ => contains_slash s = false
  end.
Proof.
  unfold SplitN_slash_2, contains_slash.
  destruct (cut_slash s) as [[before after]|]; reflexivity.
Qed.

Lemma buildSingle_error (v : JSValue) :
  is_inr (buildSingleWhenChangedRuleCondition v) = whenChanged_item_malformed v.
Proof.
  unfold buildSingleWhenChangedRuleCondition.
  destruct v; try reflexivity.
  cbn [IsString GetString whenChanged_item_malformed].
  pose proof (SplitN_two_parts s) as Hs.
  destruct (SplitN_slash_2 s) as [|a [|b [|c l]]]; rewrite Hs; reflexivity.
Qed.

Lemma buildConds_error (elems : list JSValue) :
  is_inr (buildConds elems) = existsb whenChanged_item_malformed elems.
Proof.
  induction elems as [|v elems IH]; [reflexivity|].
  cbn [buildConds existsb].
  rewrite <- (buildSingle_error v), <- IH.
  destruct (buildSingleWhenChangedRuleCondition v); [|reflexivity].
  destruct (buildConds elems); reflexivity.
Qed.

Lemma buildWhenChanged_error (def : JSValue) :
  is_inr (buildWhenChangedRuleCondition def)
  = whenChanged_malformed (GetPropString def "whenChanged").
Proof.
  unfold buildWhenChangedRuleCondition, whenChanged_malformed.
  destruct (GetPropString def "whenChanged") eqn:Hw;
    try apply buildSingle_error.
  rewrite <- buildConds_error.
  destruct (buildConds elems); reflexivity.
Qed.

(** [buildRule] fails exactly on the invalid definitions. *)
Lemma buildRule_error (name : string) (def : JSValue) (e : ESEngine) :
  is_inr (fst (buildRule name def e)) = invalid_definition def.
Proof.
  unfold buildRule, invalid_definition, buildRuleCond.
  pose proof (buildWhenChanged_error def) as Hwc.
  destruct (HasPropString def "then"); [|reflexivity].
  destruct (HasPropString def "when"), (HasPropString def "asSoonAs"),
    (HasPropString def "whenChanged"), (HasPropString def "_cron");
    cbn [negb andb orb fst is_inr]; try reflexivity.
  rewrite <- Hwc.
  destruct (buildWhenChangedRuleCondition def); reflexivity.
Qed.

(** A failed [buildRule] leaves the engine as it is; a successful one
    takes the next rule id. *)
Lemma buildRule_result (name : string) (def : JSValue) (e : ESEngine) :
  match buildRule name def e with
  | (inr _, e1) => e1 = e
  | (inl rule, e1) =>
      e1 = set_nextRuleId (nextRuleId e + 1) e
      /\ buildRuleCond def = inl (rule_cond rule)
      /\ rule = NewRule (nextRuleId e) name (rule_cond rule) (GetPropString def "then")
  end.
Proof.
  unfold buildRule.
  destruct (negb _); [reflexivity|].
  destruct (buildRuleCond def); [|reflexivity].
  cbn. auto.
Qed.

Lemma defined_rules_app (a b : list Call) :
  defined_rules (a ++ b) = (defined_rules a ++ defined_rules b)%list.
Proof. apply flat_map_app. Qed.

Lemma maybeRegisterSourceItem_calls (ctx : ESContext) (typ : itemType)
    (name : string) (e : ESEngine) :
  calls (maybeRegisterSourceItem ctx typ name e) = calls e.
Proof.
  unfold maybeRegisterSourceItem.
  destruct (currentSource e); [|reflexivity].
  destruct (_ =? _); reflexivity.
Qed.

(** The bridge on a call of one of the two shapes. *)
Lemma esWbDefineRule_shaped (ctx : ESContext) (e : ESEngine) :
  shape_anonymous ctx || shape_named ctx = true ->
  let def := definition_of ctx in
  let shortName := if shape_named ctx then GetString (stack_at ctx 0) else "" in
  let name := if shape_named ctx
              then ctx_filename ctx +:+ "/" +:+ shortName else "" in
  esWbDefineRule ctx e
  = match buildRule name def e with
    | (inr err, e1) =>
        (DUK_RET_ERROR,
         call (Log ENGINE_LOG_ERROR
                 ("bad definition of rule '" +:+ name +:+ "': " +:+ err)) e1)
    | (inl rule, e1) =>
        (Ret1 (JSNumber (float64_of_Z (rule_id rule))),
         maybeRegisterSourceItem ctx SOURCE_ITEM_RULE shortName
           (call (DefineRule rule) e1))
    end.
Proof.
  unfold shape_anonymous, shape_named, definition_of, esWbDefineRule,
    GetTop, stack_at, GetTop.
  destruct (ctx_stack ctx) as [|a [|b [|c l]]]; simpl; try discriminate.
  - destruct (IsObject a); [|discriminate]. intros _.
    destruct (buildRule _ _ _) as [[rule|err] e1]; reflexivity.
  - destruct (IsString a), (IsObject b); try discriminate. intros _.
    cbn [andb].
    destruct (buildRule _ _ _) as [[rule|err] e1]; reflexivity.
Qed.

(** C7. A call of [defineRule] with a rule definition object throws an
    error back to the script, and registers no rule, exactly when the
    definition is invalid: no [then], [when] together with [asSoonAs],
    [whenChanged] or a cron spec, [asSoonAs] together with
    [whenChanged] or a cron spec, [whenChanged] together with a cron
    spec, no trigger at all, or a malformed [whenChanged] (a string
    without ["/"], or an item that is neither a string nor a function). *)
Theorem defineRule_throws_iff_invalid (ctx : ESContext) (e : ESEngine) :
  shape_anonymous ctx || shape_named ctx = true ->
  let def := definition_of ctx in
  let r := fst (esWbDefineRule ctx e) in
  let e' := snd (esWbDefineRule ctx e) in
  (throws r = true <-> invalid_definition def = true)
  /\ (invalid_definition def = true ->
      defined_rules (calls e') = defined_rules (calls e))
  /\ (invalid_definition def = false ->
      exists rule,
        defined_rules (calls e') = (defined_rules (calls e) ++ [rule])%list
        /\ rule_id rule = nextRuleId e).
Proof.
  intros Hshape def r e'. subst r e'.
  rewrite (esWbDefineRule_shaped ctx e Hshape). fold def.
  set (name := if shape_named ctx then _ else ""). clearbody name.
  set (shortName := if shape_named ctx then _ else ""). clearbody shortName.
  pose proof (buildRule_error name def e) as Herr.
  pose proof (buildRule_result name def e) as Hres.
  destruct (buildRule name def e) as [[rule|err] e1]; cbn [fst snd is_inr] in *.
  - rewrite <- Herr. destruct Hres as (-> & _ & Hrule).
    repeat split; try discriminate.
    intros _. exists rule. split.
    + rewrite maybeRegisterSourceItem_calls. cbn [call calls set_calls set_nextRuleId].
      rewrite defined_rules_app. reflexivity.
    + rewrite Hrule. reflexivity.
  - rewrite <- Herr. subst e1.
    repeat split; try discriminate.
    intros _. cbn [call calls set_calls].
    rewrite defined_rules_app. cbn. now rewrite app_nil_r.
Qed.



(** ** One-element [whenChanged] arrays *)

(** An or-condition over a single condition shows, scan after scan,
    what the condition itself shows. *)
Lemma scans_singleton_or (envs : list ScanEnv) (c : RuleCondition) :
  scans (OrRuleCondition [c]) envs = scans c envs.
Proof.
  revert c. induction envs as [|env envs IH]; intros c; [reflexivity|].
  cbn [scans Check map existsb concat fired newValue touched next].
  rewrite orb_false_r, app_nil_r, filter_cons, filter_nil.
  rewrite IH. f_equal. f_equal. f_equal.
  destruct (decide (fired (Check env c) = true)) as [Hf|Hf].
  - reflexivity.
  - apply not_true_is_false in Hf. now rewrite Hf.
Qed.

Lemma HasPropString_ext (props1 props2 : list (string * JSValue)) (key : string) :
  (assoc_lookup key props1 = None <-> assoc_lookup key props2 = None) ->
  HasPropString (JSObject props1) key = HasPropString (JSObject props2) key.
Proof.
  cbn [HasPropString]. intros [H1 H2].
  destruct (assoc_lookup key props1), (assoc_lookup key props2); auto.
  - discriminate (H2 eq_refl).
  - discriminate (H1 eq_refl).
Qed.

(** C5. A rule defined with [whenChanged: [v]], where [v] is a cell
    name or a function, behaves as the rule defined with
    [whenChanged: v]: either both definitions are rejected with the
    same error, or both rules are built, alike in id, name and [then],
    and their conditions agree in every scan on whether the rule fires,
    on the value it fires with and on the cells it depends on. *)
Theorem whenChanged_singleton_array_equiv (v : JSValue)
    (props1 props2 : list (string * JSValue)) (name : string) (e : ESEngine) :
  IsString v = true \/ IsFunction v = true ->
  assoc_lookup "whenChanged" props1 = Some (JSArray [v]) ->
  assoc_lookup "whenChanged" props2 = Some v ->
  (forall key, key <> "whenChanged" ->
               assoc_lookup key props1 = assoc_lookup key props2) ->
  match buildRule name (JSObject props1) e, buildRule name (JSObject props2) e with
  | (inl r1, e1), (inl r2, e2) =>
      e1 = e2 /\ rule_id r1 = rule_id r2 /\ rule_name r1 = rule_name r2
      /\ rule_then r1 = rule_then r2
      /\ forall envs, scans (rule_cond r1) envs = scans (rule_cond r2) envs
  | (inr err1, e1), (inr err2, e2) => err1 = err2 /\ e1 = e2
  | _, _ => False
  end.
Proof.
  intros Hv Hw1 Hw2 Hrest.
  assert (Hhas : forall key, HasPropString (JSObject props1) key
                             = HasPropString (JSObject props2) key).
  { intros key. apply HasPropString_ext.
    destruct (String.eqb_spec key "whenChanged") as [->|Hne].
    - rewrite Hw1, Hw2. split; discriminate.
    - now rewrite (Hrest key Hne). }
  assert (Hget : forall key, key <> "whenChanged" ->
                   GetPropString (JSObject props1) key
                   = GetPropString (JSObject props2) key).
  { intros key Hne. cbn [GetPropString]. now rewrite (Hrest key Hne). }
  assert (Hwc : match buildWhenChangedRuleCondition (JSObject props1),
                      buildWhenChangedRuleCondition (JSObject props2) with
                | inl c1, inl c2 => c1 = OrRuleCondition [c2]
                | inr err1, inr err2 => err1 = err2
                | _, _ => False
                end).
  { unfold buildWhenChangedRuleCondition. cbn [GetPropString].
    rewrite Hw1, Hw2. cbn [buildConds].
    assert (Hsingle : match v with JSArray _ => False | _ => True end)
      by (destruct v, Hv; try discriminate; exact I).
    destruct (buildSingleWhenChangedRuleCondition v) as [c|err] eqn:Hb;
      destruct v; try contradiction; rewrite Hb; reflexivity. }
  unfold buildRule, buildRuleCond, wrapRuleCallback, cron_spec.
  rewrite !Hhas.
  rewrite (Hget "then"), (Hget "when"), (Hget "asSoonAs"), (Hget "_cron")
    by discriminate.
  destruct (HasPropString (JSObject props2) "then"); cbn [negb];
    [|split; reflexivity].
  destruct (HasPropString (JSObject props2) "when"),
    (HasPropString (JSObject props2) "asSoonAs"),
    (HasPropString (JSObject props2) "whenChanged"),
    (HasPropString (JSObject props2) "_cron");
    cbn [andb orb];
    try (split; reflexivity);
    try (repeat split; reflexivity).
  destruct (buildWhenChangedRuleCondition (JSObject props1)) as [c1|err1],
    (buildWhenChangedRuleCondition (JSObject props2)) as [c2|err2];
    try contradiction.
  - subst c1. repeat split. intros envs. apply scans_singleton_or.
  - subst err1. split; reflexivity.
Qed.

(** ** Persistent storage *)

(** What a write leaves in the database. *)
Lemma esPersistentSet_stores (ctx : ESContext) (bucket key : string) (v : JSValue)
    (db : gmap string (gmap string string)) (e : ESEngine) :
  persistentDB e = Some db ->
  ctx_stack ctx = [JSString bucket; JSString key; v] ->
  bucket <> "" -> key <> "" ->
  Z.of_nat (String.length key) <= bolt.MaxKeySize ->
  Z.of_nat (String.length (JsonEncode v)) <= bolt.MaxValueSize ->
  exists b,
    esPersistentSet ctx e
    = (Ret0, set_persistentDB (Some (<[ bucket := <[ key := JsonEncode v ]> b ]> db)) e)
    /\ (db !! bucket = Some b \/ db !! bucket = None /\ b = ∅).
Proof.
  intros Hdb Hstack Hb Hk Hklen Hvlen.
  assert (H0 : stack_at ctx 0 = JSString bucket)
    by (unfold stack_at, GetTop; now rewrite Hstack).
  assert (H1 : stack_at ctx 1 = JSString key)
    by (unfold stack_at, GetTop; now rewrite Hstack).
  assert (H2 : stack_at ctx 2 = v)
    by (unfold stack_at, GetTop; now rewrite Hstack).
  assert (Htop : GetTop ctx = 3%nat) by (unfold GetTop; now rewrite Hstack).
  unfold esPersistentSet. rewrite Hdb, Htop, H0, H1, H2.
  cbn [Nat.eqb negb IsString GetString].
  unfold bolt.Update, bolt.CreateBucketIfNotExists, bolt.Put.
  apply String.eqb_neq in Hb, Hk. rewrite Hb, Hk.
  apply Z.ltb_ge in Hklen, Hvlen. rewrite Hklen, Hvlen.
  destruct (db !! bucket) as [b|] eqn:Hbucket.
  - rewrite Hbucket. exists b. auto.
  - rewrite lookup_insert_eq. exists ∅. rewrite insert_insert_eq. auto.
Qed.

(** What a read answers from the database. *)
Lemma esPersistentGet_reads (ctx : ESContext) (bucket key : string)
    (db : gmap string (gmap string string)) (e : ESEngine) :
  persistentDB e = Some db ->
  ctx_stack ctx = [JSString bucket; JSString key] ->
  esPersistentGet ctx e
  = match db !! bucket with
    | None => (Ret1 JSUndefined, e)
    | Some b =>
        match b !! key with
        | None => (Ret1 JSUndefined, e)
        | Some value =>
            match JsonDecode value with
            | Some v => (Ret1 v, e)
            | None => (DukThrow, e)
            end
        end
    end.
Proof.
  intros Hdb Hstack.
  assert (H0 : stack_at ctx 0 = JSString bucket)
    by (unfold stack_at, GetTop; now rewrite Hstack).
  assert (H1 : stack_at ctx 1 = JSString key)
    by (unfold stack_at, GetTop; now rewrite Hstack).
  assert (Htop : GetTop ctx = 2%nat) by (unfold GetTop; now rewrite Hstack).
  unfold esPersistentGet. rewrite Hdb, Htop, H0, H1.
  cbn [Nat.eqb negb IsString GetString].
  unfold bolt.Bucket, bolt.Get.
  destruct (db !! bucket) as [b|]; [|reflexivity].
  destruct (b !! key); reflexivity.
Qed.

(** C6, as amended. With the persistent database open, for every bucket
    name and key that are not blank, the key and the JSON text of the
    value within the size limits of the store, and every value [v] that
    survives a JSON encode/decode round trip: [set(k, v)] followed by
    [get(k)] on the same bucket returns [v]; and [get] of a key that was
    never set, or of a bucket that does not exist, returns [undefined]. *)
Theorem persistent_set_get_roundtrip (ctxS ctxG : ESContext) (bucket key : string)
    (v : JSValue) (db : gmap string (gmap string string)) (e : ESEngine) :
  persistentDB e = Some db ->
  ctx_stack ctxS = [JSString bucket; JSString key; v] ->
  ctx_stack ctxG = [JSString bucket; JSString key] ->
  (bucket <> "" -> key <> "" ->
   Z.of_nat (String.length key) <= bolt.MaxKeySize ->
   Z.of_nat (String.length (JsonEncode v)) <= bolt.MaxValueSize ->
   JsonDecode (JsonEncode v) = Some v ->
   fst (esPersistentSet ctxS e) = Ret0
   /\ fst (esPersistentGet ctxG (snd (esPersistentSet ctxS e))) = Ret1 v)
  /\ (db !! bucket = None -> esPersistentGet ctxG e = (Ret1 JSUndefined, e))
  /\ (forall b, db !! bucket = Some b -> b !! key = None ->
                esPersistentGet ctxG e = (Ret1 JSUndefined, e)).
Proof.
  intros Hdb HS HG. repeat split.
  - destruct (esPersistentSet_stores ctxS bucket key v db e) as (b & -> & _);
      auto.
  - destruct (esPersistentSet_stores ctxS bucket key v db e) as (b & -> & _);
      auto.
    cbn [snd].
    rewrite (esPersistentGet_reads ctxG bucket key
               (<[ bucket := <[ key := JsonEncode v ]> b ]> db)) by auto.
    rewrite !lookup_insert_eq.
    match goal with H : JsonDecode _ = Some _ |- _ => rewrite H end.
    reflexivity.
  - intros Hnone. rewrite (esPersistentGet_reads ctxG bucket key db) by auto.
    now rewrite Hnone.
  - intros b Hb Hkey. rewrite (esPersistentGet_reads ctxG bucket key db) by auto.
    now rewrite Hb, Hkey.
Qed.

(** A write under a blank key is dropped: the store rejects it and the
    bridge ignores the rejection. *)
Lemma esPersistentSet_blank_key (ctx : ESContext) (bucket : string) (v : JSValue)
    (db : gmap string (gmap string string)) (e : ESEngine) :
  persistentDB e = Some db ->
  ctx_stack ctx = [JSString bucket; JSString ""; v] ->
  esPersistentSet ctx e = (Ret0, set_persistentDB (Some db) e).
Proof.
  intros Hdb Hstack.
  assert (H0 : stack_at ctx 0 = JSString bucket)
    by (unfold stack_at, GetTop; now rewrite Hstack).
  assert (H1 : stack_at ctx 1 = JSString "")
    by (unfold stack_at, GetTop; now rewrite Hstack).
  assert (Htop : GetTop ctx = 3%nat) by (unfold GetTop; now rewrite Hstack).
  unfold esPersistentSet. rewrite Hdb, Htop, H0, H1.
  cbn [Nat.eqb negb IsString GetString].
  unfold bolt.Update, bolt.CreateBucketIfNotExists, bolt.Put.
  destruct (String.eqb bucket ""); [reflexivity|].
  destruct (db !! bucket); reflexivity.
Qed.

(** ** The [require] resolver *)

Lemma modSearchDirs_missing (dirs : list string) (id : string) (module : nat)
    (e : ESEngine) (probed : list string) :
  Forall (fun d => fs e !! module_path d id = None) dirs ->
  modSearchDirs dirs id module e probed
  = (None, (probed ++ map (fun d => module_path d id) dirs)%list, e).
Proof.
  revert probed. induction dirs as [|d dirs IH]; intros probed Hall.
  - cbn. now rewrite app_nil_r.
  - inversion Hall as [|? ? Hd Hrest]; subst.
    cbn [modSearchDirs map]. unfold ReadFile. rewrite Hd.
    rewrite (IH _ Hrest), <- app_assoc. reflexivity.
Qed.

Lemma modSearchDirs_found (pre post : list string) (dir id src : string)
    (module : nat) (e : ESEngine) (probed : list string) :
  Forall (fun d => fs e !! module_path d id = None) pre ->
  fs e !! module_path dir id = Some src ->
  modSearchDirs (pre ++ dir :: post) id module e probed
  = (Some (module_path dir id, src),
     (probed ++ map (fun d => module_path d id) (pre ++ [dir]))%list,
     attach_module (module_path dir id) module e).
Proof.
  revert probed. induction pre as [|d pre IH]; intros probed Hall Hdir.
  - cbn [app modSearchDirs map]. unfold ReadFile. now rewrite Hdir.
  - inversion Hall as [|? ? Hd Hrest]; subst.
    cbn [app modSearchDirs map]. unfold ReadFile. rewrite Hd.
    rewrite (IH _ Hrest Hdir), <- app_assoc. reflexivity.
Qed.

Lemma heap_prop_put_eq (obj : nat) (key : string) (v : HeapValue) (e : ESEngine) :
  heap_prop obj key (put_prop obj key v e) = Some v.
Proof.
  unfold heap_prop, put_prop. cbn [objects set_objects].
  rewrite lookup_insert_eq. apply lookup_insert_eq.
Qed.

Lemma heap_prop_put_ne (obj : nat) (key key' : string) (v : HeapValue) (e : ESEngine) :
  key <> key' ->
  heap_prop obj key' (put_prop obj key v e) = heap_prop obj key' e.
Proof.
  intros Hne. unfold heap_prop, put_prop. cbn [objects set_objects].
  rewrite lookup_insert_eq.
  destruct (objects e !! obj); now rewrite lookup_insert_ne.
Qed.

(** The module object gets the path, and the storage object that
    [_esModules] holds for the path: the one it held already, or a
    fresh one. *)
Lemma attach_module_props (path : string) (module : nat) (e : ESEngine) :
  let e' := attach_module path module e in
  exists storage,
    esModules e' !! path = Some storage
    /\ heap_prop module MODULE_STORAGE_PROP e' = Some (HObject storage)
    /\ match esModules e !! path with
       | Some s => storage = s
       | None => storage = nextRef e
       end
    /\ ((module < nextRef e)%nat ->
        heap_prop module MODULE_FILENAME_PROP e' = Some (HString path))
    /\ (forall p s, esModules e !! p = Some s -> esModules e' !! p = Some s).
Proof.
  unfold attach_module.
  set (e1 := put_prop module MODULE_FILENAME_PROP (HString path) e).
  assert (Hm1 : esModules e1 = esModules e) by reflexivity.
  assert (Hn1 : nextRef e1 = nextRef e) by reflexivity.
  rewrite Hm1, Hn1.
  destruct (esModules e !! path) as [s|] eqn:Hs.
  - rewrite Hm1, Hs. exists s. cbn zeta.
    split; [exact Hs|]. split; [apply heap_prop_put_eq|]. split; [reflexivity|].
    split.
    + intros _. rewrite heap_prop_put_ne by discriminate.
      apply heap_prop_put_eq.
    + auto.
  - cbn [esModules set_esModules]. rewrite lookup_insert_eq.
    exists (nextRef e). cbn zeta.
    split; [apply lookup_insert_eq|]. split; [apply heap_prop_put_eq|].
    split; [reflexivity|]. split.
    + intros Hlt. rewrite heap_prop_put_ne by discriminate.
      unfold heap_prop. cbn [objects set_esModules set_objects set_nextRef].
      rewrite lookup_insert_ne by lia.
      apply heap_prop_put_eq.
    + intros p s Hp.
      change (<[ path := nextRef e ]> (esModules e) !! p = Some s).
      rewrite lookup_insert_ne; [exact Hp|].
      intros ->. congruence.
Qed.

(** C3. The resolver of [require(id)] tries the modules directories in
    the configured order, reading [<dir>/<id>.js] in each; at the first
    directory where the file can be read it sets [filename] of the
    module object to that path and returns the text of the file, and
    reads no later directory; when the file can be read in no directory
    [require] throws. *)
Theorem require_probes_dirs_in_order (id : string) (module : nat) (e : ESEngine) :
  (module < nextRef e)%nat ->
  (forall pre dir post src,
      modulesDirs e = (pre ++ dir :: post)%list ->
      Forall (fun d => fs e !! module_path d id = None) pre ->
      fs e !! module_path dir id = Some src ->
      ModSearch (JSString id) module e
      = (Ret1 (JSString src),
         map (fun d => module_path d id) (pre ++ [dir]),
         attach_module (module_path dir id) module e)
      /\ heap_prop module MODULE_FILENAME_PROP
           (attach_module (module_path dir id) module e)
         = Some (HString (module_path dir id)))
  /\ (Forall (fun d => fs e !! module_path d id = None) (modulesDirs e) ->
      ModSearch (JSString id) module e
      = (DUK_RET_ERROR, map (fun d => module_path d id) (modulesDirs e),
         call (wbgo_Error ("error requiring module " +:+ id +:+ ", not found")) e)
      /\ throws DUK_RET_ERROR = true).
Proof.
  intros Halloc. split.
  - intros pre dir post src Hdirs Hpre Hdir.
    unfold ModSearch. cbn [GetString]. rewrite Hdirs.
    rewrite (modSearchDirs_found pre post dir id src module e [] Hpre Hdir).
    split; [reflexivity|].
    destruct (attach_module_props (module_path dir id) module e)
      as (storage & _ & _ & _ & Hfile & _).
    now apply Hfile.
  - intros Hall. unfold ModSearch. cbn [GetString].
    rewrite (modSearchDirs_missing _ id module e [] Hall).
    split; reflexivity.
Qed.

(** ** What the bridge calls of a script leave unchanged *)

Lemma sf_refl (e : ESEngine) : script_frame e e.
Proof.
  unfold script_frame, storages_kept.
  repeat split; auto.
Qed.

Lemma sf_trans (e1 e2 e3 : ESEngine) :
  script_frame e1 e2 -> script_frame e2 e3 -> script_frame e1 e3.
Proof.
  unfold script_frame, storages_kept.
  intros (F1 & S1 & L1 & [C1 C1'] & K1) (F2 & S2 & L2 & [C2 C2'] & K2).
  repeat split; try congruence; auto.
Qed.

Lemma loads_call (c : Call) (e : ESEngine) :
  is_load c = false -> loads (call c e) = loads e.
Proof.
  intros Hc. unfold loads, call. cbn [calls set_calls].
  rewrite flat_map_app, length_app.
  destruct c; try discriminate Hc; cbn; lia.
Qed.

Lemma sf_call (c : Call) (e0 e : ESEngine) :
  is_load c = false -> script_frame e0 e -> script_frame e0 (call c e).
Proof.
  intros Hc (F & S & L & C & K).
  repeat split; try assumption; try apply C.
  - now rewrite loads_call.
Qed.

Ltac sf_setter :=
  let F := fresh in let S := fresh in let L := fresh in
  let C := fresh in let K := fresh in
  intros (F & S & L & C & K);
  repeat split; try assumption; try apply C.

Lemma sf_set_nextRuleId v e0 e :
  script_frame e0 e -> script_frame e0 (set_nextRuleId v e).
Proof. sf_setter. Qed.

Lemma sf_set_nextTimerId v e0 e :
  script_frame e0 e -> script_frame e0 (set_nextTimerId v e).
Proof. sf_setter. Qed.

Lemma sf_set_ctxTimers v e0 e :
  script_frame e0 e -> script_frame e0 (set_ctxTimers v e).
Proof. sf_setter. Qed.

Lemma sf_set_persistentDB v e0 e :
  script_frame e0 e -> script_frame e0 (set_persistentDB v e).
Proof. sf_setter. Qed.

Lemma sf_set_objects v e0 e :
  script_frame e0 e -> script_frame e0 (set_objects v e).
Proof. sf_setter. Qed.

Lemma sf_set_nextRef v e0 e :
  script_frame e0 e -> script_frame e0 (set_nextRef v e).
Proof. sf_setter. Qed.

Lemma sf_put_prop obj key v e0 e :
  script_frame e0 e -> script_frame e0 (put_prop obj key v e).
Proof. unfold put_prop. apply sf_set_objects. Qed.

Lemma sf_set_currentSource_some src src' e0 e :
  currentSource e = Some src ->
  script_frame e0 e -> script_frame e0 (set_currentSource (Some src') e).
Proof.
  intros Hsrc (F & S & L & C & K).
  repeat split; try assumption; cbn [currentSource set_currentSource].
  - intros H0. apply C in H0. congruence.
  - discriminate.
Qed.

Lemma sf_set_filenameMd5s cache e0 e :
  (cache_ok (filenameMd5s e) -> cache_ok cache) ->
  script_frame e0 e -> script_frame e0 (set_filenameMd5s cache e).
Proof.
  intros Hc (F & S & L & C & K).
  repeat split; try assumption; try apply C.
  cbn [filenameMd5s set_filenameMd5s]. auto.
Qed.

Lemma sf_maybeExpandLocalObjectId ctx name e0 e :
  script_frame e0 e ->
  script_frame e0 (snd (maybeExpandLocalObjectId ctx name e)).
Proof.
  intros Hf. unfold maybeExpandLocalObjectId.
  destruct (_ && _); [|exact Hf].
  destruct (GetPropString _ _) as [| | | |P| | |]; try exact Hf.
  unfold localObjectId.
  destruct (getFilenameHash (filenameMd5s e) P) as [h cache] eqn:Hg.
  cbn [snd]. apply sf_set_filenameMd5s; [|exact Hf].
  intros Hok. destruct (getFilenameHash_spec _ P Hok) as (c' & Hc' & Hok' & _).
  rewrite Hg in Hc'. inversion Hc'; subst. exact Hok'.
Qed.

Lemma sf_maybeRegisterSourceItem ctx typ name e0 e :
  script_frame e0 e ->
  script_frame e0 (maybeRegisterSourceItem ctx typ name e).
Proof.
  intros Hf. unfold maybeRegisterSourceItem.
  destruct (currentSource e) as [src|] eqn:Hsrc; [|exact Hf].
  destruct (_ =? _); [exact Hf|].
  destruct typ; now apply (sf_set_currentSource_some src).
Qed.

Lemma sf_handleTimerCleanup ctx timer e0 e :
  script_frame e0 e -> script_frame e0 (handleTimerCleanup ctx timer e).
Proof.
  intros Hf. unfold handleTimerCleanup.
  apply sf_call; [reflexivity|]. now apply sf_set_ctxTimers.
Qed.

Ltac sf_go :=
  repeat first
    [ assumption
    | apply sf_refl
    | apply sf_call; [reflexivity|]
    | apply sf_set_nextRuleId
    | apply sf_set_nextTimerId
    | apply sf_set_ctxTimers
    | apply sf_set_persistentDB
    | apply sf_set_objects
    | apply sf_set_nextRef
    | apply sf_put_prop
    | apply sf_handleTimerCleanup
    | apply sf_maybeRegisterSourceItem ].

Lemma sf_esWbStartTimer ctx e : script_frame e (snd (esWbStartTimer ctx e)).
Proof.
  unfold esWbStartTimer, RuleEngine_StartTimer.
  destruct (_ || _); cbn [snd]; [sf_go|].
  destruct (IsString _).
  - destruct (String.eqb _ ""); cbn [snd]; sf_go.
  - destruct (negb _); cbn [snd]; sf_go.
Qed.

Lemma sf_esWbStopTimer ctx e : script_frame e (snd (esWbStopTimer ctx e)).
Proof.
  unfold esWbStopTimer.
  destruct (negb _); cbn [snd]; [sf_go|].
  destruct (IsNumber _).
  - destruct (_ =? 0); cbn [snd]; sf_go.
  - destruct (IsString _); cbn [snd]; sf_go.
Qed.

Lemma sf_buildRule name def e : script_frame e (snd (buildRule name def e)).
Proof.
  unfold buildRule.
  destruct (negb _); cbn [snd]; [sf_go|].
  destruct (buildRuleCond def); cbn [snd]; sf_go.
Qed.

Lemma sf_esWbDefineRule ctx e : script_frame e (snd (esWbDefineRule ctx e)).
Proof.
  unfold esWbDefineRule, RuleEngine_DefineRule.
  match goal with
  | |- context [match ?x with Some _ => _ | None => _ end] => destruct x as [[[sn n] d]|]
  end; cbn [snd]; [|sf_go].
  pose proof (sf_buildRule n d e) as Hb.
  destruct (buildRule n d e) as [[rule|err] e1]; cbn [snd] in *; sf_go.
Qed.

Lemma sf_esVirtualDeviceId ctx e : script_frame e (snd (esVirtualDeviceId ctx e)).
Proof.
  unfold esVirtualDeviceId.
  destruct (_ || _); cbn [snd]; [sf_go|].
  pose proof (sf_maybeExpandLocalObjectId ctx
                (GetString (stack_at ctx (-1))) e e (sf_refl e)) as Hm.
  destruct (maybeExpandLocalObjectId _ _ e) as [name e1]. exact Hm.
Qed.

Lemma sf_esDefineVirtualDevice ctx e r e' :
  esDefineVirtualDevice ctx e = Some (r, e') -> script_frame e e'.
Proof.
  unfold esDefineVirtualDevice. intros H.
  destruct (_ || _); [inversion H; subst; sf_go|].
  destruct (stack_at ctx (-1)); try discriminate H.
  pose proof (sf_maybeExpandLocalObjectId ctx
                (GetString (stack_at ctx (-2))) e e (sf_refl e)) as Hm.
  destruct (maybeExpandLocalObjectId _ _ e) as [name e1]. cbn [snd] in Hm.
  destruct (DefineVirtualDevice_error _ _ _); inversion H; subst; sf_go.
Qed.

Lemma sf_esPersistentName ctx e : script_frame e (snd (esPersistentName ctx e)).
Proof.
  unfold esPersistentName.
  destruct (persistentDB e); cbn [snd]; [|sf_go].
  repeat match goal with
         | |- context [if ?c then _ else _] => destruct c; cbn [snd]; [sf_go|]
         end.
  pose proof (sf_maybeExpandLocalObjectId ctx
                (GetString (stack_at ctx 0)) e e (sf_refl e)) as Hm.
  destruct (maybeExpandLocalObjectId _ _ e) as [name e1]. cbn [snd] in *. sf_go.
Qed.

Lemma sf_esPersistentSet ctx e : script_frame e (snd (esPersistentSet ctx e)).
Proof.
  unfold esPersistentSet.
  destruct (persistentDB e); cbn [snd]; [|sf_go].
  repeat match goal with
         | |- context [if ?c then _ else _] => destruct c; cbn [snd]; [sf_go|]
         end.
  destruct (bolt.Update _ _). cbn [snd]. sf_go.
Qed.

Lemma sf_esPersistentGet ctx e : script_frame e (snd (esPersistentGet ctx e)).
Proof.
  unfold esPersistentGet.
  destruct (persistentDB e); cbn [snd]; [|sf_go].
  repeat match goal with
         | |- context [if ?c then _ else _] => destruct c; cbn [snd]; [sf_go|]
         end.
  match goal with
  | |- context [match ?x with Some _ => _ | None => _ end] => destruct x
  end; cbn [snd]; [|sf_go].
  destruct (JsonDecode _); cbn [snd]; sf_go.
Qed.

Lemma sf_bridge f ctx e r e' : bridge f ctx e = Some (r, e') -> script_frame e e'.
Proof.
  destruct f; cbn [bridge]; intros H;
    try (inversion H as [H']; clear H;
         match type of H' with
         | ?t = _ => replace e' with (snd t) by (now rewrite H')
         end).
  - apply sf_esWbDefineRule.
  - apply sf_esWbStartTimer.
  - apply sf_esWbStopTimer.
  - now apply (sf_esDefineVirtualDevice ctx e r e').
  - apply sf_esVirtualDeviceId.
  - apply sf_esPersistentName.
  - apply sf_esPersistentSet.
  - apply sf_esPersistentGet.
Qed.

Lemma sf_set_esModules_fresh path storage m e0 e :
  m = esModules e ->
  esModules e !! path = None ->
  script_frame e0 e ->
  script_frame e0 (set_esModules (<[ path := storage ]> m) e).
Proof.
  intros -> Hnone (F & S & L & C & K).
  repeat split; try assumption; try apply C.
  intros p s Hp. cbn [esModules set_esModules].
  rewrite lookup_insert_ne; [now apply S|].
  intros ->. apply S in Hp. congruence.
Qed.

Lemma sf_attach_module path module e :
  script_frame e (attach_module path module e).
Proof.
  unfold attach_module.
  set (e1 := put_prop module MODULE_FILENAME_PROP (HString path) e).
  assert (H1 : script_frame e e1) by (apply sf_put_prop, sf_refl).
  destruct (esModules e1 !! path) as [s|] eqn:Hs.
  - rewrite Hs. now apply sf_put_prop.
  - cbn [esModules set_esModules]. rewrite lookup_insert_eq.
    apply sf_put_prop. apply sf_set_esModules_fresh; [reflexivity|exact Hs|].
    now apply sf_set_objects, sf_set_nextRef.
Qed.

Lemma modSearchDirs_state dirs id module e probed :
  let e' := snd (modSearchDirs dirs id module e probed) in
  e' = e \/ exists path, e' = attach_module path module e.
Proof.
  revert probed. induction dirs as [|d dirs IH]; intros probed; cbn.
  - now left.
  - destruct (ReadFile _ e); cbn; [right; eauto|]. apply IH.
Qed.

Lemma sf_ModSearch id module e : script_frame e (snd (ModSearch id module e)).
Proof.
  unfold ModSearch.
  pose proof (modSearchDirs_state (modulesDirs e) (GetString id) module e []) as Hs.
  destruct (modSearchDirs _ _ _ _ _) as [[[[p src]|] probed] e']; cbn [snd] in *.
  - destruct Hs as [->|[path ->]]; [apply sf_refl|apply sf_attach_module].
  - apply sf_call; [reflexivity|].
    destruct Hs as [->|[path ->]]; [apply sf_refl|apply sf_attach_module].
Qed.

(** The evaluation of a script changes none of these, whatever the
    script does. *)
Lemma sf_run_script (s : Script) :
  forall ctx filename e outcome e',
    run_script ctx filename s e = Some (outcome, e') -> script_frame e e'.
Proof.
  induction s as [outcome0|f this args tb k IH|id k IH];
    intros ctx filename e outcome e' Hrun; cbn [run_script] in Hrun.
  - inversion Hrun; subst. apply sf_refl.
  - destruct (bridge f _ e) as [[r e1]|] eqn:Hb; [|discriminate].
    apply (sf_trans e e1 e').
    + exact (sf_bridge _ _ _ _ _ Hb).
    + now apply (IH r ctx filename e1 outcome e').
  - set (e1 := set_objects _ (set_nextRef _ e)) in Hrun.
    pose proof (sf_ModSearch id (nextRef e) e1) as Hm.
    destruct (ModSearch id (nextRef e) e1) as [[r probed] e2]. cbn [snd] in Hm.
    apply (sf_trans e e2 e'); [|now apply (IH r ctx filename e2 outcome e')].
    apply (sf_trans e e1 e2); [|exact Hm].
    subst e1. apply sf_set_objects, sf_set_nextRef, sf_refl.
Qed.

(** ** Loading *)

Lemma lf_refl e : load_frame 0 e e.
Proof.
  unfold load_frame, storages_kept.
  repeat split; auto.
Qed.

Lemma lf_script n e0 e e' :
  load_frame n e0 e -> script_frame e e' -> load_frame n e0 e'.
Proof.
  unfold load_frame, script_frame, storages_kept.
  intros (F1 & S1 & L1 & K1) (F2 & S2 & L2 & _ & K2).
  repeat split; try congruence; auto.
Qed.

Lemma lf_call c n e0 e :
  is_load c = false -> load_frame n e0 e -> load_frame n e0 (call c e).
Proof.
  intros Hc (F & S & L & K). repeat split; try assumption.
  now rewrite loads_call.
Qed.

Lemma lf_call_load ctx path n e0 e :
  load_frame n e0 e -> load_frame (S n) e0 (call (LoadScenario ctx path) e).
Proof.
  intros (F & S & L & K). repeat split; try assumption.
  unfold loads, call in *. cbn [calls set_calls].
  rewrite flat_map_app, length_app, L. cbn. lia.
Qed.

Ltac lf_setter :=
  let F := fresh in let S := fresh in let L := fresh in let K := fresh in
  intros (F & S & L & K); repeat split; assumption.

Lemma lf_set_nextRef v n e0 e :
  load_frame n e0 e -> load_frame n e0 (set_nextRef v e).
Proof. lf_setter. Qed.

Lemma lf_set_localCtxs v n e0 e :
  load_frame n e0 e -> load_frame n e0 (set_localCtxs v e).
Proof. lf_setter. Qed.

Lemma lf_set_esThreads v n e0 e :
  load_frame n e0 e -> load_frame n e0 (set_esThreads v e).
Proof. lf_setter. Qed.

Lemma lf_set_sources v n e0 e :
  load_frame n e0 e -> load_frame n e0 (set_sources v e).
Proof. lf_setter. Qed.

Lemma lf_set_cleanups v n e0 e :
  load_frame n e0 e -> load_frame n e0 (set_cleanups v e).
Proof. lf_setter. Qed.

Lemma lf_set_currentSource v n e0 e :
  load_frame n e0 e -> load_frame n e0 (set_currentSource v e).
Proof. lf_setter. Qed.

Lemma lf_fold_left {A : Type} (f : ESEngine -> A -> ESEngine) (l : list A) n e0 :
  (forall e a, load_frame n e0 e -> load_frame n e0 (f e a)) ->
  forall e, load_frame n e0 e -> load_frame n e0 (fold_left f l e).
Proof.
  intros Hf. induction l as [|a l IH]; intros e He; cbn; [exact He|].
  apply IH, Hf, He.
Qed.

Lemma lf_runCleanups path n e0 e :
  load_frame n e0 e -> load_frame n e0 (runCleanups path e).
Proof.
  intros He. unfold runCleanups, cleanup_RunCleanups.
  set (e1 := match localCtxs e !! path with Some _ => _ | None => e end).
  assert (H1 : load_frame n e0 e1).
  { subst e1. destruct (localCtxs e !! path) as [ctx|]; [|exact He].
    unfold removeThreadFromStorage, runTimerCleanups.
    assert (Ht : load_frame n e0
                   match ctxTimers e !! ctx with
                   | Some s =>
                       fold_left (fun e id => call (StopTimerByIndex id) e)
                         (map fst (filter (fun p => snd p = true) (map_to_list s))) e
                   | None => e
                   end).
    { destruct (ctxTimers e !! ctx); [|exact He].
      apply lf_fold_left; [|exact He].
      intros e' id He'. now apply lf_call. }
    destruct (esThreads _ !! path).
    - now apply lf_set_esThreads.
    - now apply lf_call. }
  cbn [cleanups call set_calls].
  destruct (cleanups e1 !! path) as [cs|]; [|now apply lf_call].
  apply lf_fold_left.
  - intros e' c He'. destruct c. now apply lf_set_sources.
  - apply lf_set_cleanups. now apply lf_call.
Qed.

Lemma lf_trackESError path err n e0 e :
  load_frame n e0 e -> load_frame n e0 (snd (trackESError path err e)).
Proof.
  intros He. unfold trackESError.
  destruct err as [[m|esError|se]|]; cbn [snd]; try exact He.
  destruct (currentSource e); [|exact He]. now apply lf_set_currentSource.
Qed.

Lemma trackESError_currentSource path err e :
  currentSource e = None ->
  currentSource (snd (trackESError path err e)) = None.
Proof.
  intros He. unfold trackESError.
  destruct err as [[m|esError|se]|]; cbn [snd]; try exact He.
  now rewrite He.
Qed.

Lemma lf_maybePublishUpdate subtopic path n e0 e :
  load_frame n e0 e -> load_frame n e0 (maybePublishUpdate subtopic path e).
Proof.
  intros He. unfold maybePublishUpdate.
  destruct (checkSourcePath path e) as [[[cp vp] under] err].
  destruct err, under; repeat (apply lf_call; [reflexivity|]); exact He.
Qed.

Lemma maybePublishUpdate_currentSource subtopic path e :
  currentSource (maybePublishUpdate subtopic path e) = currentSource e.
Proof.
  unfold maybePublishUpdate.
  destruct (checkSourcePath path e) as [[[cp vp] under] err].
  destruct err, under; reflexivity.
Qed.

Lemma fold_left_preserves {A : Type} (P : ESEngine -> Prop)
    (f : ESEngine -> A -> ESEngine) (l : list A) :
  (forall e a, P e -> P (f e a)) -> forall e, P e -> P (fold_left f l e).
Proof.
  intros Hf. induction l as [|a l IH]; intros e He; cbn; [exact He|].
  apply IH, Hf, He.
Qed.

Lemma runCleanups_currentSource path e :
  currentSource (runCleanups path e) = currentSource e.
Proof.
  unfold runCleanups, cleanup_RunCleanups.
  set (e1 := match localCtxs e !! path with Some _ => _ | None => e end).
  assert (H1 : currentSource e1 = currentSource e).
  { subst e1. destruct (localCtxs e !! path) as [ctx|]; [|reflexivity].
    unfold removeThreadFromStorage, runTimerCleanups.
    assert (Ht : currentSource
                   match ctxTimers e !! ctx with
                   | Some s =>
                       fold_left (fun e id => call (StopTimerByIndex id) e)
                         (map fst (filter (fun p => snd p = true) (map_to_list s))) e
                   | None => e
                   end = currentSource e).
    { destruct (ctxTimers e !! ctx); [|reflexivity].
      apply (fold_left_preserves (fun e' => currentSource e' = currentSource e));
        auto. }
    destruct (esThreads _ !! path); exact Ht. }
  cbn [cleanups call set_calls].
  destruct (cleanups e1 !! path) as [cs|]; [|exact H1].
  apply (fold_left_preserves (fun e' => currentSource e' = currentSource e)).
  - intros e' c He'. destruct c. exact He'.
  - exact H1.
Qed.

Lemma checkSourcePath_sourceRoot path e e' :
  sourceRoot e' = sourceRoot e -> checkSourcePath path e' = checkSourcePath path e.
Proof. intros H. unfold checkSourcePath. now rewrite H. Qed.

Lemma set_tracker_same key h e :
  tracker e !! key = Some h -> set_tracker (<[ key := h ]> (tracker e)) e = e.
Proof.
  intros H. destruct e. unfold set_tracker. cbn in *.
  now rewrite (insert_id _ _ _ H).
Qed.

(** A load that does not load leaves the engine as it was. *)
Lemma loadScript_not_loaded path loadIfUnchanged e err e' :
  loadScript path loadIfUnchanged e = Some (false, err, e') -> e' = e.
Proof.
  unfold loadScript. intros H.
  destruct (checkSourcePath path e) as [[[p vp] under] cerr].
  destruct cerr; [now inversion H|].
  destruct (currentSource e); [discriminate|].
  unfold Track, ReadFile in H.
  destruct (fs e !! p) as [c|]; [|now inversion H].
  destruct (tracker e !! vp) as [old|] eqn:Hold.
  - destruct (String.eqb_spec old (content_hash c)) as [->|Hne];
      cbn [negb] in H.
    + destruct loadIfUnchanged; cbn [negb andb] in H.
      * destruct (ESContext_LoadScenario _ _ _ _) as [[o e9]|];
          [|discriminate].
        destruct (trackESError _ _ _). inversion H.
      * inversion H; subst. now apply set_tracker_same.
    + rewrite andb_false_r in H.
      destruct (ESContext_LoadScenario _ _ _ _) as [[o e9]|];
        [|discriminate].
      destruct (trackESError _ _ _). inversion H.
  - rewrite andb_false_r in H.
    destruct (ESContext_LoadScenario _ _ _ _) as [[o e9]|];
      [|discriminate].
    destruct (trackESError _ _ _). inversion H.
Qed.

(** A load that loads: the hash of the file is recorded, the script is
    evaluated once, and nothing else of the files or the tracker
    changes; no script is being loaded afterwards. *)
Lemma loadScript_loaded path loadIfUnchanged e err e' :
  loadScript path loadIfUnchanged e = Some (true, err, e') ->
  exists p vp under c,
    checkSourcePath path e = (p, vp, under, None)
    /\ fs e !! p = Some c
    /\ load_frame 1 (set_tracker (<[ vp := content_hash c ]> (tracker e)) e) e'
    /\ currentSource e' = None.
Proof.
  unfold loadScript. intros H.
  destruct (checkSourcePath path e) as [[[p vp] under] cerr].
  destruct cerr; [now inversion H|].
  destruct (currentSource e) eqn:Hcur; [discriminate|].
  unfold Track, ReadFile in H.
  destruct (fs e !! p) as [c|] eqn:Hc; [|now inversion H].
  exists p, vp, under, c. split; [reflexivity|]. split; [exact Hc|].
  set (et := set_tracker (<[ vp := content_hash c ]> (tracker e)) e) in *.
  destruct (negb loadIfUnchanged && _); [now inversion H|].
  set (e6 := call (PushCleanupScope p) _) in H.
  assert (H6 : load_frame 0 et e6).
  { subst e6. apply lf_call; [reflexivity|].
    apply lf_set_esThreads, lf_set_localCtxs.
    apply lf_call; [reflexivity|].
    apply lf_set_nextRef, lf_runCleanups, lf_refl. }
  assert (C6 : currentSource e6 = None).
  { subst e6. cbn [currentSource call set_calls set_esThreads set_localCtxs
                     set_nextRef].
    rewrite runCleanups_currentSource. exact Hcur. }
  set (e7 := if under then _ else e6) in H.
  assert (H7 : load_frame 0 et e7).
  { subst e7. destruct under; [|exact H6].
    unfold cleanup_AddCleanup. apply lf_call; [reflexivity|].
    now apply lf_set_cleanups, lf_set_currentSource. }
  assert (C7 : under = false -> currentSource e7 = None).
  { intros ->. exact C6. }
  set (e8 := if esInitEnv_fails then _ else e7) in H.
  assert (H8 : load_frame 0 et e8).
  { subst e8. destruct esInitEnv_fails; [|exact H7]. now apply lf_call. }
  assert (C8 : under = false -> currentSource e8 = None).
  { intros Hu. subst e8. destruct esInitEnv_fails; now apply C7. }
  clearbody e8. clear e6 H6 C6 e7 H7 C7.
  unfold ESContext_LoadScenario in H.
  set (e8' := call (LoadScenario _ p) e8) in H.
  assert (H8' : load_frame 1 et e8') by (subst e8'; now apply lf_call_load).
  assert (C8' : under = false -> currentSource e8' = None) by exact C8.
  clearbody e8'.
  assert (Hrun : exists o e9,
             match ReadFile p e8' with
             | Some text => run_script (nextRef (runCleanups p et)) vp (interpret text) e8'
             | None => Some (Some (PlainError ("cannot read " +:+ p)), e8')
             end = Some (o, e9)
             /\ e' = call (PopCleanupScope p)
                       (if under then
                          set_currentSource None
                            match currentSource (snd (trackESError p o e9)) with
                            | Some src =>
                                set_sources
                                  (<[ vp := src ]> (sources (snd (trackESError p o e9))))
                                  (snd (trackESError p o e9))
                            | None => snd (trackESError p o e9)
                            end
                        else snd (trackESError p o e9))).
  { destruct (match ReadFile p e8' with Some _ => _ | None => _ end)
      as [[o e9]|]; [|discriminate].
    exists o, e9. split; [reflexivity|].
    destruct (trackESError p o e9) as [err' e10]. cbn [snd].
    now inversion H. }
  clear H. destruct Hrun as (o & e9 & Hrun & ->).
  assert (H9 : load_frame 1 et e9 /\ (under = false -> currentSource e9 = None)).
  { destruct (ReadFile p e8') as [text|].
    - pose proof (sf_run_script _ _ _ _ _ _ Hrun) as Hsf. split.
      + now apply (lf_script 1 et e8' e9).
      + intros Hu. destruct Hsf as (_ & _ & _ & Hiff & _). now apply Hiff, C8'.
    - inversion Hrun; subst. auto. }
  destruct H9 as [H9 C9].
  pose proof (lf_trackESError p o 1 et e9 H9) as H10.
  split.
  - apply lf_call; [reflexivity|].
    destruct under; [|exact H10].
    apply lf_set_currentSource.
    destruct (currentSource (snd (trackESError p o e9))) as [src|];
      [exact (lf_set_sources _ 1 et _ H10)|exact H10].
  - destruct under; [reflexivity|].
    cbn [currentSource call set_calls].
    now apply trackESError_currentSource, C9.
Qed.

(** A load with [loadIfUnchanged = true] that reports no error has
    loaded the script. *)
Lemma loadScript_unconditional path e e' :
  loadScript path true e = Some (false, None, e') -> False.
Proof.
  unfold loadScript. intros H.
  destruct (checkSourcePath path e) as [[[p vp] under] cerr].
  destruct cerr; [discriminate|].
  destruct (currentSource e); [discriminate|].
  destruct (Track vp p e) as [[changed|terr] e1]; [|discriminate].
  cbn [negb andb] in H.
  destruct (ESContext_LoadScenario _ _ _ _) as [[o e9]|]; [|discriminate].
  destruct (trackESError _ _ _). discriminate.
Qed.

Lemma loadScriptAndRefresh_unconditional path e e' :
  loadScriptAndRefresh path true e = Some (None, e') -> loads e' = S (loads e).
Proof.
  unfold loadScriptAndRefresh. intros H.
  destruct (loadScript path true e) as [[[loaded err1] e1]|] eqn:Hl; [|discriminate].
  destruct loaded; inversion H; subst; clear H.
  - destruct (loadScript_loaded _ _ _ _ _ Hl) as (p & vp & under & c & _ & _ & Hf & _).
    assert (Hf2 : load_frame 1 (set_tracker (<[ vp := content_hash c ]> (tracker e)) e)
                    (maybePublishUpdate "changed" path (call Refresh e1))).
    { apply lf_maybePublishUpdate. now apply lf_call. }
    destruct Hf2 as (_ & _ & Hloads & _). exact Hloads.
  - exfalso. exact (loadScript_unconditional _ _ _ Hl).
Qed.

(** A script whose content hash is the recorded one is skipped. *)
Lemma loadScript_skips path e p vp under c :
  checkSourcePath path e = (p, vp, under, None) ->
  currentSource e = None ->
  fs e !! p = Some c ->
  tracker e !! vp = Some (content_hash c) ->
  loadScript path false e = Some (false, None, e).
Proof.
  intros Hcheck Hcur Hc Ht.
  unfold loadScript, Track, ReadFile. rewrite Hcheck, Hcur, Hc, Ht.
  rewrite String.eqb_refl. cbn [negb andb].
  now rewrite (set_tracker_same _ _ _ Ht).
Qed.

Lemma loadScriptAndRefresh_cases path loadIfUnchanged e err e' :
  loadScriptAndRefresh path loadIfUnchanged e = Some (err, e') ->
  e' = e
  \/ exists p vp under c,
       checkSourcePath path e = (p, vp, under, None)
       /\ fs e !! p = Some c
       /\ load_frame 1 (set_tracker (<[ vp := content_hash c ]> (tracker e)) e) e'
       /\ currentSource e' = None.
Proof.
  unfold loadScriptAndRefresh. intros H.
  destruct (loadScript path loadIfUnchanged e) as [[[loaded err1] e1]|] eqn:Hl;
    [|discriminate].
  destruct loaded; inversion H; subst; clear H.
  - right.
    destruct (loadScript_loaded _ _ _ _ _ Hl) as (p & vp & under & c & H1 & H2 & H3 & H4).
    exists p, vp, under, c. split; [exact H1|]. split; [exact H2|]. split.
    + apply lf_maybePublishUpdate. now apply lf_call.
    + rewrite maybePublishUpdate_currentSource. exact H4.
  - left. now apply (loadScript_not_loaded _ _ _ _ _ Hl).
Qed.

(** X25. A script whose content hash equals the hash that the tracker
    holds under the key of the script, its virtual path, is not
    reloaded by a load with [loadIfUnchanged = false], which is what
    [LiveLoadFile] asks for: the engine is left exactly as it was (no
    cleanup, no new thread, no evaluation). So when [LiveWriteScript]
    has written and loaded a script, the load that the directory
    watcher then triggers for the written file does nothing: the script
    is loaded exactly once. A [LiveWriteScript] that reports no error
    has loaded the script. *)
Theorem unchanged_script_is_not_reloaded :
  (forall path e p vp under c,
      checkSourcePath path e = (p, vp, under, None) ->
      currentSource e = None ->
      fs e !! p = Some c ->
      tracker e !! vp = Some (content_hash c) ->
      loadScript path false e = Some (false, None, e)
      /\ LiveLoadFile path e = Some (None, e))
  /\ (forall virtualPath content e err e1,
      LiveWriteScript virtualPath content e = Some (err, e1) ->
      (loads e1 <= S (loads e))%nat
      /\ (loads e1 = S (loads e) ->
          LiveLoadFile (fst (fst (checkVirtualPath virtualPath e))) e1
          = Some (None, e1))
      /\ (err = None -> loads e1 = S (loads e))).
Proof.
  split.
  - intros path e p vp under c Hcheck Hcur Hc Ht.
    pose proof (loadScript_skips path e p vp under c Hcheck Hcur Hc Ht) as Hs.
    split; [exact Hs|].
    unfold LiveLoadFile, loadScriptAndRefresh. now rewrite Hs.
  - intros virtualPath content e err e1. unfold LiveWriteScript.
    destruct (checkVirtualPath virtualPath e) as [[cleanPath vp'] cerr].
    cbn [fst].
    destruct cerr;
      [intros H; inversion H; subst;
       split; [lia|split; [intros; lia|discriminate]]|].
    destruct (if contains_slash vp' then _ else None).
    { intros H; inversion H; subst.
      rewrite loads_call by reflexivity.
      split; [lia|split; [intros; lia|discriminate]]. }
    destruct (WriteFile_error cleanPath e);
      [intros H; inversion H; subst;
       split; [lia|split; [intros; lia|discriminate]]|].
    set (ew := set_fs _ e). intros H.
    assert (Hlw : loads ew = loads e) by reflexivity.
    assert (Hok : err = None -> loads e1 = S (loads e)).
    { intros ->. rewrite <- Hlw. now apply (loadScriptAndRefresh_unconditional cleanPath). }
    destruct (loadScriptAndRefresh_cases _ _ _ _ _ H)
      as [Heq|(p & vp & under & c & Hcheck & Hc & Hframe & Hcur)].
    { rewrite Heq, Hlw in *. split; [lia|split; [intros; lia|exact Hok]]. }
    destruct Hframe as (Hfiles & _ & Hloads & _).
    change (loads (set_tracker (<[ vp := content_hash c ]> (tracker ew)) ew))
      with (loads ew) in Hloads.
    split; [lia|]. split; [|exact Hok]. intros _.
    unfold files in Hfiles. cbn [fs tracker sourceRoot set_tracker] in Hfiles.
    inversion Hfiles as [[Hfs Htr Hroot Hdirs]].
    unfold LiveLoadFile, loadScriptAndRefresh.
    rewrite (loadScript_skips cleanPath e1 p vp under c); [reflexivity| |exact Hcur| |].
    + rewrite <- Hcheck. now apply checkSourcePath_sourceRoot.
    + now rewrite Hfs.
    + rewrite Htr. apply lookup_insert_eq.
Qed.

(** ** Module storage *)

Lemma modSearchDirs_resolve dirs id module e probed path :
  resolve dirs id e = Some path ->
  snd (modSearchDirs dirs id module e probed) = attach_module path module e.
Proof.
  revert probed. induction dirs as [|d dirs IH]; intros probed; cbn;
    [discriminate|].
  destruct (ReadFile (module_path d id) e).
  - intros H; inversion H; subst. reflexivity.
  - apply IH.
Qed.

Lemma ModSearch_resolve id module e path :
  resolve (modulesDirs e) (GetString id) e = Some path ->
  snd (ModSearch id module e) = attach_module path module e.
Proof.
  intros Hres. unfold ModSearch.
  pose proof (modSearchDirs_resolve _ _ module e [] _ Hres) as Hs.
  assert (Hfound : exists p src probed e',
             modSearchDirs (modulesDirs e) (GetString id) module e []
             = (Some (p, src), probed, e')).
  { clear Hs. revert Hres. generalize (@nil string).
    induction (modulesDirs e) as [|d dirs IH]; intros probed; cbn;
      [discriminate|].
    destruct (ReadFile (module_path d (GetString id)) e); eauto. }
  destruct Hfound as (p & src & probed & e' & Heq).
  rewrite Heq in *. exact Hs.
Qed.

Lemma storages_kept_same e e' : esModules e' = esModules e -> storages_kept e e'.
Proof. intros H path storage Hl. now rewrite H. Qed.

(** No operation of the engine drops or replaces the storage object of
    a module, and every operation keeps the invariant of the hash
    cache. *)
Lemma engine_step_keeps e e' :
  engine_step e e' ->
  storages_kept e e' /\ (cache_ok (filenameMd5s e) -> cache_ok (filenameMd5s e')).
Proof.
  intros Hstep. destruct Hstep as [f ctx e r e' Hb|id module e|ctx timer e
                                  |path liu e err e' Hl|vp content e err e' Hw|path e].
  - destruct (sf_bridge _ _ _ _ _ Hb) as (_ & S & _ & _ & K). auto.
  - destruct (sf_ModSearch id module e) as (_ & S & _ & _ & K). auto.
  - unfold timerRemoved.
    destruct (ctxTimers e !! ctx); split; auto; now apply storages_kept_same.
  - destruct (loadScriptAndRefresh_cases _ _ _ _ _ Hl)
      as [->|(p & vp & under & c & _ & _ & (_ & S & _ & K) & _)].
    + split; auto. now apply storages_kept_same.
    + auto.
  - unfold LiveWriteScript in Hw.
    destruct (checkVirtualPath vp e) as [[cleanPath vp'] cerr].
    destruct cerr;
      [inversion Hw; subst; split; auto; now apply storages_kept_same|].
    destruct (if contains_slash vp' then _ else None);
      [inversion Hw; subst; split; auto; now apply storages_kept_same|].
    destruct (WriteFile_error cleanPath e);
      [inversion Hw; subst; split; auto; now apply storages_kept_same|].
    destruct (loadScriptAndRefresh_cases _ _ _ _ _ Hw)
      as [->|(p & vp2 & under & c & _ & _ & (_ & S & _ & K) & _)].
    + split; auto. now apply storages_kept_same.
    + auto.
  - unfold LiveRemoveFile.
    assert (Hf : load_frame 0 e
                   (maybePublishUpdate "removed" path (call Refresh (runCleanups path e)))).
    { apply lf_maybePublishUpdate, lf_call; [reflexivity|].
      apply lf_runCleanups, lf_refl. }
    destruct Hf as (_ & S & _ & K). auto.
Qed.

Lemma reaches_keeps e e' :
  reaches e e' ->
  storages_kept e e' /\ (cache_ok (filenameMd5s e) -> cache_ok (filenameMd5s e')).
Proof.
  intros Hr. induction Hr as [e|e e1 e2 Hstep _ [IHS IHK]].
  - split; auto. now apply storages_kept_same.
  - destruct (engine_step_keeps _ _ Hstep) as [S K].
    split; [|auto]. intros p s H. apply IHS, S, H.
Qed.

(** C2. Every [require] of a module that resolves to the same physical
    path attaches the same storage object to the module object,
    whatever thread calls it and whatever the engine does in between:
    the storage object is created on the first resolution, kept in the
    heap stash map [_esModules] under the path, and handed out again by
    every later resolution. *)
Theorem require_shares_module_storage (e e2 : ESEngine) (id1 id2 : JSValue)
    (module1 module2 : nat) (path : string) :
  resolve (modulesDirs e) (GetString id1) e = Some path ->
  reaches (snd (ModSearch id1 module1 e)) e2 ->
  resolve (modulesDirs e2) (GetString id2) e2 = Some path ->
  exists storage,
    heap_prop module1 MODULE_STORAGE_PROP (snd (ModSearch id1 module1 e))
    = Some (HObject storage)
    /\ heap_prop module2 MODULE_STORAGE_PROP (snd (ModSearch id2 module2 e2))
       = Some (HObject storage)
    /\ esModules (snd (ModSearch id2 module2 e2)) !! path = Some storage
    /\ match esModules e !! path with
       | Some s => storage = s
       | None => storage = nextRef e
       end.
Proof.
  intros Hres1 Hreach Hres2.
  rewrite (ModSearch_resolve _ module1 _ _ Hres1) in *.
  rewrite (ModSearch_resolve _ module2 _ _ Hres2).
  destruct (attach_module_props path module1 e) as (s1 & Hm1 & Hp1 & Hs1 & _).
  destruct (attach_module_props path module2 e2) as (s2 & Hm2 & Hp2 & Hs2 & _).
  destruct (reaches_keeps _ _ Hreach) as [Hkept _].
  rewrite (Hkept _ _ Hm1) in Hs2. subst s2.
  exists s1. auto.
Qed.

(** The invariant of the hash cache holds in every state the engine
    reaches from one with an empty cache. *)
Lemma reaches_cache_ok e e' :
  filenameMd5s e = ∅ -> reaches e e' -> cache_ok (filenameMd5s e').
Proof.
  intros Hempty Hr. apply (reaches_keeps _ _ Hr).
  rewrite Hempty. apply cache_ok_empty.
Qed.

(** * Further properties *)

(** Closes a goal without looking into the hypotheses of the section. *)
Ltac fin := solve [ reflexivity | assumption | discriminate | congruence
                  | eauto | split; eauto ].

(** ** The shape of the module hash *)

Lemma lxor_byte (a b : Z) :
  0 <= a < 256 -> 0 <= b < 256 -> 0 <= Z.lxor a b < 256.
Proof.
  intros Ha Hb.
  assert (Hnn : 0 <= Z.lxor a b) by (apply Z.lxor_nonneg; lia).
  split; [exact Hnn|].
  destruct (Z.eq_dec (Z.lxor a b) 0) as [->|Hne]; [lia|].
  apply (Z.log2_lt_pow2 _ 8); [lia|].
  pose proof (Z.log2_lxor a b (proj1 Ha) (proj1 Hb)) as Hl.
  assert (Hla : Z.log2 a < 8).
  { destruct (Z.eq_dec a 0) as [->|]; [reflexivity|]. apply Z.log2_lt_pow2; lia. }
  assert (Hlb : Z.log2 b < 8).
  { destruct (Z.eq_dec b 0) as [->|]; [reflexivity|]. apply Z.log2_lt_pow2; lia. }
  lia.
Qed.

Definition is_byte (b : Z) : Prop := 0 <= b < 256.

Lemma md5_Sum_bytes (data : list Z) : Forall is_byte (md5.Sum data).
Proof.
  unfold md5.Sum.
  destruct (md5.blocks _ _ _) as [a b c d].
  unfold md5.bytes_of_word. cbn [app].
  repeat (constructor; [unfold is_byte; apply Z.mod_pos_bound; lia|]).
  constructor.
Qed.

Lemma nth_byte (l : list Z) (i : nat) : Forall is_byte l -> is_byte (nth i l 0).
Proof.
  intros Hl. destruct (nth_in_or_default i l 0) as [Hin| ->].
  - rewrite Forall_forall in Hl. apply Hl, list_elem_of_In; fin.
  - unfold is_byte. lia.
Qed.

Lemma xor_fold_bytes (digest : list Z) :
  Forall is_byte digest ->
  exists b0 b1 b2 b3,
    xor_fold digest = [b0; b1; b2; b3]
    /\ is_byte b0 /\ is_byte b1 /\ is_byte b2 /\ is_byte b3.
Proof.
  intros Hd. unfold xor_fold. cbn [seq map].
  do 4 eexists. split; [reflexivity|].
  repeat split; repeat apply lxor_byte; apply (nth_byte _ _ Hd).
Qed.

(** The digits of the URL-safe alphabet: one character each, none of
    them a slash. *)
Lemma digit_char (v : Z) :
  0 <= v < 64 ->
  exists c, base64.digit v = String c EmptyString
            /\ c <> "/"%char
            /\ In c (list_ascii_of_string base64.encodeURL).
Proof.
  intros Hv.
  assert (Hall : forallb (fun n =>
            match String.get n base64.encodeURL with
            | Some c => negb (Ascii.eqb c "/")
                        && existsb (Ascii.eqb c) (list_ascii_of_string base64.encodeURL)
            | None => false
            end) (seq 0 64) = true) by (vm_compute; reflexivity).
  rewrite forallb_forall in Hall.
  specialize (Hall (Z.to_nat v)).
  assert (Hin : In (Z.to_nat v) (seq 0 64)) by (apply in_seq; lia).
  apply Hall in Hin. unfold base64.digit.
  destruct (String.get (Z.to_nat v) base64.encodeURL) as [c|]; [|discriminate].
  apply andb_true_iff in Hin as [Hns Hex].
  exists c. split; [reflexivity|]. split.
  - intros ->. discriminate Hns.
  - apply existsb_exists in Hex as (c' & Hc' & Heq).
    apply Ascii.eqb_eq in Heq. subst; fin.
Qed.

Lemma append_cons (c : ascii) (a b : string) :
  String c a +:+ b = String c (a +:+ b).
Proof. reflexivity. Qed.

Lemma append_nil_l (b : string) : EmptyString +:+ b = b.
Proof. reflexivity. Qed.

Lemma append_nil_r (a : string) : a +:+ EmptyString = a.
Proof.
  induction a as [|c a IH]; [reflexivity|].
  rewrite append_cons, IH. reflexivity.
Qed.

Lemma cut_slash_app_none (a b : string) :
  cut_slash a = None -> cut_slash (a +:+ b) =
    match cut_slash b with
    | Some (before, after) => Some (a +:+ before, after)
    | None => None
    end.
Proof.
  induction a as [|c a IH].
  - intros _. rewrite append_nil_l.
    destruct (cut_slash b) as [[? ?]|]; [rewrite append_nil_l; fin|reflexivity].
  - rewrite append_cons. cbn [cut_slash].
    destruct (Ascii.eqb c "/"); [discriminate|].
    destruct (cut_slash a) as [[? ?]|]; [discriminate|].
    intros _. rewrite IH by reflexivity.
    destruct (cut_slash b) as [[? ?]|]; [rewrite append_cons; fin|reflexivity].
Qed.

Lemma byte_digits (b c : Z) :
  0 <= b < 256 -> 0 <= c < 256 ->
  0 <= b / 4 < 64 /\ 0 <= b mod 4 * 16 + c / 16 < 64
  /\ 0 <= b mod 16 * 4 + c / 64 < 64 /\ 0 <= b mod 64 < 64
  /\ 0 <= b mod 4 * 16 < 64.
Proof.
  intros Hb Hc.
  pose proof (Z.mod_pos_bound b 4 eq_refl).
  pose proof (Z.mod_pos_bound b 16 eq_refl).
  pose proof (Z.mod_pos_bound b 64 eq_refl).
  assert (0 <= b / 4 < 64)
    by (split; [apply Z.div_pos|apply Z.div_lt_upper_bound]; lia).
  assert (0 <= c / 16 < 16)
    by (split; [apply Z.div_pos|apply Z.div_lt_upper_bound]; lia).
  assert (0 <= c / 64 < 4)
    by (split; [apply Z.div_pos|apply Z.div_lt_upper_bound]; lia).
  lia.
Qed.

Lemma path_hash_digits (P : string) :
  exists c0 c1 c2 c3 c4 c5,
    path_hash P
    = String c0 (String c1 (String c2 (String c3 (String c4 (String c5 EmptyString)))))
    /\ Forall (fun c => c <> "/"%char /\ In c (list_ascii_of_string base64.encodeURL))
         [c0; c1; c2; c3; c4; c5].
Proof.
  unfold path_hash.
  destruct (xor_fold_bytes _ (md5_Sum_bytes (bytes_of_string P)))
    as (b0 & b1 & b2 & b3 & -> & H0 & H1 & H2 & H3).
  unfold is_byte in *. cbn [base64.RawURLEncoding_EncodeToString].
  destruct (byte_digits b0 b1 H0 H1) as (D0 & D1 & _).
  destruct (byte_digits b1 b2 H1 H2) as (_ & _ & D2 & _).
  destruct (byte_digits b2 b3 H2 H3) as (_ & _ & _ & D3 & _).
  destruct (byte_digits b3 b3 H3 H3) as (D4 & _ & _ & _ & D5).
  destruct (digit_char _ D0) as (c0 & -> & ?).
  destruct (digit_char _ D1) as (c1 & -> & ?).
  destruct (digit_char _ D2) as (c2 & -> & ?).
  destruct (digit_char _ D3) as (c3 & -> & ?).
  destruct (digit_char _ D4) as (c4 & -> & ?).
  destruct (digit_char _ D5) as (c5 & -> & ?).
  exists c0, c1, c2, c3, c4, c5. split; [reflexivity|].
  repeat (constructor; [assumption|]). constructor.
Qed.

Lemma path_hash_no_slash (P : string) : cut_slash (path_hash P) = None.
Proof.
  destruct (path_hash_digits P) as (c0 & c1 & c2 & c3 & c4 & c5 & -> & Hall).
  repeat match goal with
         | H : Forall _ (_ :: _) |- _ => inversion H; subst; clear H
         end.
  cbn [cut_slash].
  repeat match goal with
         | H : ?c <> "/"%char /\ _ |- context [Ascii.eqb ?c "/"%char] =>
             let Heq := fresh in
             destruct (Ascii.eqb_spec c "/"%char) as [Heq|_];
             [exact (False_ind _ (proj1 H Heq))|]
         end.
  reflexivity.
Qed.

(** X1. The hash that [getFilenameHash] gives for a path has six
    characters, all of the URL-safe base64 alphabet; it holds no slash,
    so it never adds a level to a device or cell path. *)
Theorem filename_hash_shape (cache : gmap string string) (P : string) :
  cache_ok cache ->
  let h := fst (getFilenameHash cache P) in
  String.length h = 6%nat
  /\ Forall (fun c => In c (list_ascii_of_string base64.encodeURL))
       (list_ascii_of_string h)
  /\ cut_slash h = None.
Proof.
  intros Hok.
  destruct (getFilenameHash_spec cache P Hok) as (cache' & -> & _).
  cbn [fst]. split; [|split; [|apply path_hash_no_slash]];
    destruct (path_hash_digits P) as (c0 & c1 & c2 & c3 & c4 & c5 & -> & Hall).
  - reflexivity.
  - cbn [list_ascii_of_string]. eapply Forall_impl; [exact Hall|].
    intros c [_ Hin]. exact Hin.
Qed.

(** ** Module-local ids, continued *)

(** X2. Within one module two object names get the same global id only
    when they are the same name, whatever the cache holds when each id
    is made. *)
Theorem local_object_id_injective (c1 c2 : gmap string string) (P N1 N2 : string) :
  cache_ok c1 -> cache_ok c2 ->
  fst (localObjectId c1 P N1) = fst (localObjectId c2 P N2) -> N1 = N2.
Proof.
  intros H1 H2. unfold localObjectId.
  destruct (getFilenameHash_spec c1 P H1) as (c1' & -> & _).
  destruct (getFilenameHash_spec c2 P H2) as (c2' & -> & _).
  cbn [fst]. intros Heq.
  apply String.app_inj in Heq. apply String.app_inj in Heq; fin.
Qed.

(** The expanded name depends on [this] and the name alone. *)
Lemma maybeExpandLocalObjectId_stable (ctx1 ctx2 : ESContext) (N : string)
    (e1 e2 : ESEngine) :
  ctx_this ctx1 = ctx_this ctx2 ->
  cache_ok (filenameMd5s e1) -> cache_ok (filenameMd5s e2) ->
  fst (maybeExpandLocalObjectId ctx1 N e1) = fst (maybeExpandLocalObjectId ctx2 N e2).
Proof.
  intros Hthis H1 H2. unfold maybeExpandLocalObjectId. rewrite Hthis.
  destruct (_ && _); [|reflexivity].
  destruct (GetPropString _ _) as [| | | |P| | |]; try reflexivity.
  unfold localObjectId.
  destruct (getFilenameHash_spec _ P H1) as (c1' & -> & _).
  destruct (getFilenameHash_spec _ P H2) as (c2' & -> & _).
  reflexivity.
Qed.

Lemma getStringPropFromObject_devid (id : string) :
  id <> "" ->
  getStringPropFromObject (JSObject [(VDEV_OBJ_PROP_DEVID, JSString id)])
    VDEV_OBJ_PROP_DEVID = Some (inl id).
Proof.
  intros Hne. unfold getStringPropFromObject. cbn.
  destruct (String.eqb_spec id ""); [contradiction|reflexivity].
Qed.

(** X3. In one module, [virtualDeviceId(name)] gives the id under which
    [defineVirtualDevice(name, spec)] defines the device, at whatever
    time each is called; the controller object carries that id, and
    when the id is not empty its methods [getDeviceId()] and
    [getCellId(cell)] return the id and the id joined by a slash with
    the cell name. *)
Theorem virtualDeviceId_names_the_device (ctxV ctxD : ESContext) (name : string)
    (spec obj : JSValue) (e1 e2 e2' : ESEngine) :
  cache_ok (filenameMd5s e1) -> cache_ok (filenameMd5s e2) ->
  ctx_this ctxV = ctx_this ctxD ->
  ctx_stack ctxV = [JSString name] ->
  ctx_stack ctxD = [JSString name; spec] ->
  esDefineVirtualDevice ctxD e2 = Some (Ret1 obj, e2') ->
  exists id,
    fst (esVirtualDeviceId ctxV e1) = Ret1 (JSString id)
    /\ In (DefineVirtualDevice id spec) (calls e2')
    /\ GetPropString obj VDEV_OBJ_PROP_DEVID = JSString id
    /\ (id <> "" ->
        forall ctxM, ctx_this ctxM = obj ->
          (ctx_stack ctxM = [] -> esVdevGetDeviceId ctxM = Ret1 (JSString id))
          /\ (forall cell, ctx_stack ctxM = [JSString cell] ->
                esVdevGetCellId ctxM = Ret1 (JSString (id +:+ "/" +:+ cell)))).
Proof.
  intros H1 H2 Hthis HsV HsD Hdef.
  destruct (esDefineVirtualDevice_name _ _ _ _ Hdef eq_refl) as [Hobj Hcall].
  assert (HnD : GetString (stack_at ctxD (-2)) = name)
    by (unfold stack_at, GetTop; rewrite HsD; fin).
  assert (HsD1 : stack_at ctxD (-1) = spec)
    by (unfold stack_at, GetTop; rewrite HsD; fin).
  rewrite HnD, HsD1 in *.
  exists (fst (maybeExpandLocalObjectId ctxD name e2)).
  split; [|split; [exact Hcall|split]].
  - unfold esVirtualDeviceId.
    assert (HtV : GetTop ctxV = 1%nat) by (unfold GetTop; rewrite HsV; fin).
    assert (HnV : stack_at ctxV (-1) = JSString name)
      by (unfold stack_at, GetTop; rewrite HsV; fin).
    rewrite HtV, HnV. cbn [Nat.eqb negb orb IsString GetString].
    rewrite <- (maybeExpandLocalObjectId_stable ctxV ctxD name e1 e2 Hthis H1 H2).
    destruct (maybeExpandLocalObjectId ctxV name e1); fin.
  - injection Hobj as Hobj'. rewrite Hobj'. reflexivity.
  - intros Hne ctxM HthisM. injection Hobj as Hobj'. rewrite Hobj' in HthisM.
    split.
    + intros HsM. unfold esVdevGetDeviceId, GetTop. rewrite HsM, HthisM.
      cbn [length Nat.eqb negb]. rewrite getStringPropFromObject_devid; fin.
    + intros cell HsM. unfold esVdevGetCellId.
      assert (Hc : stack_at ctxM (-1) = JSString cell)
        by (unfold stack_at, GetTop; rewrite HsM; fin).
      unfold GetTop. rewrite Hc, HsM, HthisM.
      cbn [length Nat.eqb negb orb IsString GetString].
      rewrite getStringPropFromObject_devid; fin.
Qed.

Lemma getStringPropFromObject_inl (obj : JSValue) (key id : string) :
  getStringPropFromObject obj key = Some (inl id) <->
  id <> "" /\ exists props, obj = JSObject props
                            /\ assoc_lookup key props = Some (JSString id).
Proof.
  unfold getStringPropFromObject. split.
  - destruct obj as [| | | | | | |props]; cbn; try discriminate.
    destruct (assoc_lookup key props) as [v|] eqn:Hl; cbn; [|discriminate].
    destruct (String.eqb_spec (GetString v) "") as [|Hne]; [discriminate|].
    intros H. inversion H; subst id. split; [exact Hne|].
    exists props. split; [reflexivity|].
    destruct v; cbn in Hne |- *; try contradiction. exact Hl.
  - intros (Hne & props & -> & Hl). cbn. rewrite Hl. cbn.
    destruct (String.eqb_spec id ""); [contradiction|reflexivity].
Qed.

Lemma esVdevGetCellId_ok (ctx : ESContext) (cell id : string)
    (props : list (string * JSValue)) :
  ctx_stack ctx = [JSString cell] -> id <> "" ->
  ctx_this ctx = JSObject props ->
  assoc_lookup VDEV_OBJ_PROP_DEVID props = Some (JSString id) ->
  esVdevGetCellId ctx = Ret1 (JSString (id +:+ "/" +:+ cell)).
Proof.
  intros Hs Hne Hthis Hl. unfold esVdevGetCellId, stack_at, GetTop.
  rewrite Hs. cbn.
  assert (Hg : getStringPropFromObject (ctx_this ctx) VDEV_OBJ_PROP_DEVID
               = Some (inl id)).
  { apply getStringPropFromObject_inl. split; [exact Hne|]. exists props. auto. }
  rewrite Hg. reflexivity.
Qed.

(** X4. The methods of a controller object answer exactly when [this]
    carries a device id that is a string and not empty, and they are
    called with no argument ([getDeviceId]) or one string
    ([getCellId]); in every other case they throw. *)
Theorem vdev_controller_methods (ctx : ESContext) :
  (forall id,
      esVdevGetDeviceId ctx = Ret1 (JSString id) <->
      ctx_stack ctx = [] /\ id <> ""
      /\ exists props, ctx_this ctx = JSObject props
           /\ assoc_lookup VDEV_OBJ_PROP_DEVID props = Some (JSString id))
  /\ (throws (esVdevGetDeviceId ctx) = false ->
      exists id, esVdevGetDeviceId ctx = Ret1 (JSString id))
  /\ (forall cid,
      esVdevGetCellId ctx = Ret1 (JSString cid) <->
      exists cell id props,
        ctx_stack ctx = [JSString cell] /\ id <> ""
        /\ ctx_this ctx = JSObject props
        /\ assoc_lookup VDEV_OBJ_PROP_DEVID props = Some (JSString id)
        /\ cid = id +:+ "/" +:+ cell)
  /\ (throws (esVdevGetCellId ctx) = false ->
      exists cid, esVdevGetCellId ctx = Ret1 (JSString cid)).
Proof.
  split; [|split; [|split]].
  - intros id. unfold esVdevGetDeviceId, GetTop. split.
    + destruct (ctx_stack ctx) as [|v rest]; cbn [length Nat.eqb negb];
        [|discriminate].
      destruct (getStringPropFromObject _ _) as [[d|err]|] eqn:Hg;
        try discriminate.
      intros H. inversion H; subst d. split; [reflexivity|].
      apply getStringPropFromObject_inl; fin.
    + intros (-> & Hne & Hprops). cbn [length Nat.eqb negb].
      rewrite (proj2 (getStringPropFromObject_inl _ _ _) (conj Hne Hprops)); fin.
  - unfold esVdevGetDeviceId.
    destruct (negb _); [discriminate|].
    destruct (getStringPropFromObject _ _) as [[d|err]|]; try discriminate.
    intros _. exists d; fin.
  - intros cid. unfold esVdevGetCellId, stack_at, GetTop. split.
    + destruct (ctx_stack ctx) as [|v [|w rest]]; cbn; try discriminate.
      destruct v; cbn; try discriminate.
      destruct (getStringPropFromObject _ _) as [[d|err]|] eqn:Hg;
        try discriminate.
      intros H. inversion H; subst cid.
      apply getStringPropFromObject_inl in Hg as (Hne & props & Hthis & Hl).
      exists s, d, props. auto.
    + intros (cell & id & props & Hs & Hne & Hthis & Hl & ->).
      pose proof (esVdevGetCellId_ok ctx cell id props Hs Hne Hthis Hl) as Hok.
      unfold esVdevGetCellId, stack_at, GetTop in Hok. exact Hok.
  - unfold esVdevGetCellId.
    destruct (_ || _); [discriminate|].
    destruct (getStringPropFromObject _ _) as [[d|err]|]; try discriminate.
    intros _. eexists. reflexivity.
Qed.

(** ** Cell names in [whenChanged] *)

Lemma cut_slash_split (s before after : string) :
  cut_slash s = Some (before, after) ->
  s = before +:+ "/" +:+ after /\ cut_slash before = None.
Proof.
  revert before. induction s as [|c s IH]; intros before; cbn [cut_slash];
    [discriminate|].
  destruct (Ascii.eqb_spec c "/"%char) as [->|Hne].
  - intros H. inversion H; subst. split; reflexivity.
  - destruct (cut_slash s) as [[b a]|]; [|discriminate].
    intros H. inversion H; subst.
    destruct (IH b eq_refl) as [-> Hb]. split; [reflexivity|].
    cbn [cut_slash]. destruct (Ascii.eqb_spec c "/"%char); [contradiction|].
    rewrite Hb; fin.
Qed.

Lemma cut_slash_join (dev ctl : string) :
  cut_slash dev = None -> cut_slash (dev +:+ "/" +:+ ctl) = Some (dev, ctl).
Proof.
  intros Hd. rewrite (cut_slash_app_none _ _ Hd).
  rewrite append_cons, append_nil_l. cbn [cut_slash].
  destruct (Ascii.eqb_spec "/"%char "/"%char); [|contradiction].
  rewrite append_nil_r. reflexivity.
Qed.

(** X5. A cell name in [whenChanged] is cut at its first slash: what
    stands before is the device, and everything after it, further
    slashes included, the control. So the cell id that [getCellId]
    makes for a device whose id holds no slash is read back as that
    device and that cell, and the id of a module-local device named
    without a slash holds no slash. *)
Theorem whenChanged_cell_is_cut_at_first_slash :
  (forall dev ctl,
      cut_slash dev = None ->
      buildSingleWhenChangedRuleCondition (JSString (dev +:+ "/" +:+ ctl))
      = NewCellChangedRuleCondition {| DevName := dev; ControlName := ctl |})
  /\ (forall s cond,
      buildSingleWhenChangedRuleCondition (JSString s) = inl cond ->
      exists dev ctl,
        s = dev +:+ "/" +:+ ctl /\ cut_slash dev = None
        /\ NewCellChangedRuleCondition {| DevName := dev; ControlName := ctl |}
           = inl cond)
  /\ (forall ctx dev cell props,
      ctx_this ctx = JSObject props ->
      assoc_lookup VDEV_OBJ_PROP_DEVID props = Some (JSString dev) ->
      dev <> "" -> cut_slash dev = None ->
      ctx_stack ctx = [JSString cell] ->
      exists cid,
        esVdevGetCellId ctx = Ret1 (JSString cid)
        /\ buildSingleWhenChangedRuleCondition (JSString cid)
           = NewCellChangedRuleCondition {| DevName := dev; ControlName := cell |})
  /\ (forall cache P N,
      cache_ok cache -> cut_slash N = None ->
      cut_slash (fst (localObjectId cache P N)) = None).
Proof.
  split; [|split; [|split]].
  - intros dev ctl Hd. unfold buildSingleWhenChangedRuleCondition, SplitN_slash_2.
    cbn [IsString GetString]. rewrite (cut_slash_join _ _ Hd); fin.
  - intros s cond. unfold buildSingleWhenChangedRuleCondition, SplitN_slash_2.
    cbn [IsString GetString].
    destruct (cut_slash s) as [[dev ctl]|] eqn:Hc; [|discriminate].
    intros H. exists dev, ctl.
    destruct (cut_slash_split _ _ _ Hc) as [Hs Hd]. auto.
  - intros ctx dev cell props Hthis Hl Hne Hd Hs.
    exists (dev +:+ "/" +:+ cell). split.
    + apply (esVdevGetCellId_ok ctx cell dev props); fin.
    + unfold buildSingleWhenChangedRuleCondition, SplitN_slash_2.
      cbn [IsString GetString]. rewrite (cut_slash_join _ _ Hd); fin.
  - intros cache P N Hok HN. unfold localObjectId.
    destruct (getFilenameHash_spec cache P Hok) as (c' & Hg & _).
    pose proof (path_hash_no_slash P) as Hh.
    rewrite Hg. cbn [fst].
    rewrite append_cons, append_nil_l. cbn [cut_slash].
    destruct (Ascii.eqb_spec "_"%char "/"%char); [discriminate|].
    rewrite (cut_slash_app_none _ _ Hh), HN. reflexivity.
Qed.

(** ** Arrays in [whenChanged] *)

Lemma buildConds_ok (elems : list JSValue) :
  Forall whenChanged_item_ok elems ->
  exists conds,
    buildConds elems = inl conds
    /\ Forall2 (fun v c => buildSingleWhenChangedRuleCondition v = inl c) elems conds.
Proof.
  induction 1 as [|v rest [c Hc] _ (conds & Hcs & Hall)].
  - exists []. split; [reflexivity|constructor].
  - exists (c :: conds). cbn [buildConds]. rewrite Hc, Hcs.
    split; [reflexivity|]. constructor; assumption.
Qed.

Lemma buildConds_first_error (pre post : list JSValue) (bad : JSValue) (err : string) :
  Forall whenChanged_item_ok pre ->
  buildSingleWhenChangedRuleCondition bad = inr err ->
  buildConds (pre ++ bad :: post) = inr err.
Proof.
  intros Hpre Hbad. induction Hpre as [|v rest [c Hc] _ IH].
  - cbn [app buildConds]. rewrite Hbad. reflexivity.
  - cbn [app buildConds]. rewrite Hc, IH. reflexivity.
Qed.

(** X6. An array in [whenChanged] is read item by item: when every item
    is a cell name or a function the rule gets an Or-condition with one
    condition per item, in the order of the array; otherwise the error
    is that of the first item that is not accepted, whatever follows
    it. The empty array is accepted and gives an Or-condition of no
    conditions. *)
Theorem whenChanged_array_is_read_in_order (def : JSValue) (elems : list JSValue) :
  GetPropString def "whenChanged" = JSArray elems ->
  (Forall whenChanged_item_ok elems ->
   exists conds,
     buildWhenChangedRuleCondition def = inl (NewOrRuleCondition conds)
     /\ Forall2 (fun v c => buildSingleWhenChangedRuleCondition v = inl c) elems conds)
  /\ (forall pre bad post err,
         elems = (pre ++ bad :: post)%list ->
         Forall whenChanged_item_ok pre ->
         buildSingleWhenChangedRuleCondition bad = inr err ->
         buildWhenChangedRuleCondition def = inr err)
  /\ (elems = [] ->
      buildWhenChangedRuleCondition def = inl (NewOrRuleCondition [])).
Proof.
  intros Hw. unfold buildWhenChangedRuleCondition. rewrite Hw.
  split; [|split].
  - intros Hall. destruct (buildConds_ok elems Hall) as (conds & -> & H2).
    exists conds. split; [reflexivity|exact H2].
  - intros pre bad post err -> Hpre Hbad.
    rewrite (buildConds_first_error pre post bad err Hpre Hbad). reflexivity.
  - intros ->. reflexivity.
Qed.

(** ** Timers, continued *)

Lemma stack_of_1 (ctx : ESContext) (a : JSValue) :
  ctx_stack ctx = [a] ->
  GetTop ctx = 1%nat /\ stack_at ctx 0 = a /\ stack_at ctx (-1) = a.
Proof. intros Hs. unfold stack_at, GetTop. rewrite Hs. repeat split. Qed.

Lemma stack_of_2 (ctx : ESContext) (a b : JSValue) :
  ctx_stack ctx = [a; b] ->
  GetTop ctx = 2%nat /\ stack_at ctx 0 = a /\ stack_at ctx 1 = b
  /\ stack_at ctx (-2) = a /\ stack_at ctx (-1) = b.
Proof. intros Hs. unfold stack_at, GetTop. rewrite Hs. repeat split. Qed.

Lemma stack_of_3 (ctx : ESContext) (a b c : JSValue) :
  ctx_stack ctx = [a; b; c] ->
  GetTop ctx = 3%nat /\ stack_at ctx 0 = a /\ stack_at ctx 1 = b
  /\ stack_at ctx 2 = c.
Proof. intros Hs. unfold stack_at, GetTop. rewrite Hs. repeat split. Qed.

(** Stack indices as positions of the argument list. *)
Ltac norm_idx :=
  change (Z.to_nat 0) with 0%nat;
  change (Z.to_nat 1) with 1%nat;
  change (Z.to_nat 2) with 2%nat.

Ltac timer_err :=
  split;
  [ split;
    [ discriminate
    | let Hs := fresh in let Ha := fresh in
      intros (? & ? & ? & Hs & Ha); inversion Hs; subst;
      destruct Ha as [(? & Ha & ?)|(? & Ha)]; congruence ]
  | intros _; eexists; reflexivity ].

(** X7. [_wbStartTimer] answers exactly the calls with three arguments
    of which the second is a number and the first a name that is not
    empty or a function; every other call throws, and then nothing is
    started or registered: the engine only gains the line of the log. *)
Theorem startTimer_rejects_bad_calls (ctx : ESContext) (e : ESEngine) :
  (throws (fst (esWbStartTimer ctx e)) = false <->
   exists a ms p,
     ctx_stack ctx = [a; JSNumber ms; p]
     /\ ((exists name, a = JSString name /\ name <> "") \/ exists f, a = JSFunction f))
  /\ (throws (fst (esWbStartTimer ctx e)) = true ->
      exists message,
        esWbStartTimer ctx e = (DUK_RET_ERROR, call (wbgo_Error message) e)).
Proof.
  unfold esWbStartTimer, RuleEngine_StartTimer, stack_at, GetTop.
  destruct (ctx_stack ctx) as [|a [|b [|p [|q rest]]]]; cbn; try timer_err.
  norm_idx. destruct b; cbn; try timer_err.
  destruct a; cbn; try timer_err.
  - destruct (String.eqb_spec s "") as [->|Hne]; cbn; [timer_err|].
    split; [split; [|reflexivity]|discriminate].
    intros _. exists (JSString s), x, p. split; [reflexivity|].
    left. exists s. split; [reflexivity|exact Hne].
  - split; [split; [|reflexivity]|discriminate].
    intros _. exists (JSFunction ref), x, p. split; [reflexivity|].
    right. exists ref. reflexivity.
Qed.


(** ** The timers of a script *)

Lemma set_calls_set_calls (l l' : list Call) (e : ESEngine) :
  set_calls l (set_calls l' e) = set_calls l e.
Proof. reflexivity. Qed.

Lemma set_calls_same (e : ESEngine) : set_calls (calls e) e = e.
Proof. destruct e; reflexivity. Qed.

Lemma stop_all (ids : list TimerId) (e : ESEngine) :
  fold_left (fun e id => call (StopTimerByIndex id) e) ids e
  = set_calls (calls e ++ map StopTimerByIndex ids) e.
Proof.
  revert e. induction ids as [|id ids IH]; intros e; cbn [fold_left map].
  - rewrite app_nil_r. symmetry. apply set_calls_same.
  - rewrite IH. unfold call. cbn [calls set_calls].
    rewrite set_calls_set_calls, <- app_assoc. reflexivity.
Qed.

(** The timers that [runTimerCleanups] finds active in a timer set. *)
Lemma active_timers (s : gmap Z bool) :
  let ids := map fst (filter (fun p : Z * bool => snd p = true) (map_to_list s)) in
  List.NoDup ids /\ forall id, In id ids <-> s !! id = Some true.
Proof.
  intros ids. subst ids.
  change (map fst (filter (fun p : Z * bool => snd p = true) (map_to_list s)))
    with (fst <$> filter (fun p : Z * bool => snd p = true) (map_to_list s)).
  split.
  - apply NoDup_ListNoDup.
    eapply sublist_NoDup; [apply (NoDup_fst_map_to_list s)|].
    apply fmap_sublist, sublist_filter.
  - intros id. rewrite <- list_elem_of_In, list_elem_of_fmap. split.
    + intros ([i b] & -> & Hin). apply list_elem_of_filter in Hin as [Hb Hin].
      cbn in Hb. subst b. apply elem_of_map_to_list in Hin. exact Hin.
    + intros Hl. exists (id, true). split; [reflexivity|].
      apply list_elem_of_filter. split; [reflexivity|].
      apply elem_of_map_to_list. exact Hl.
Qed.

Lemma runTimerCleanups_calls (ctx : nat) (e : ESEngine) :
  exists ids,
    runTimerCleanups ctx e = set_calls (calls e ++ map StopTimerByIndex ids) e
    /\ List.NoDup ids
    /\ forall id, In id ids <->
         exists s, ctxTimers e !! ctx = Some s /\ s !! id = Some true.
Proof.
  unfold runTimerCleanups. destruct (ctxTimers e !! ctx) as [s|].
  - destruct (active_timers s) as [Hnd Hin].
    eexists. split; [apply stop_all|]. split; [exact Hnd|].
    intros id. rewrite Hin. split.
    + intros Hl. exists s. split; [reflexivity|exact Hl].
    + intros (s' & Hs' & Hl). inversion Hs'; subst s'. exact Hl.
  - exists []. split; [|split].
    + cbn [map]. rewrite app_nil_r. symmetry. apply set_calls_same.
    + constructor.
    + intros id. split; [intros []|intros (s & Hs & _); discriminate].
Qed.

Lemma new_calls_set_calls (l : list Call) (e : ESEngine) :
  new_calls e (set_calls (calls e ++ l) e) = l.
Proof. unfold new_calls. cbn [calls set_calls]. apply drop_app_length. Qed.

(** X9. The cleanup of the timers of a context asks the registry to
    stop each timer that is marked active in the timer set of that
    context, once, and no other timer; nothing but these calls is added
    to the engine. *)
Theorem runTimerCleanups_stops_the_active_timers (ctx : nat) (e : ESEngine) :
  let e' := runTimerCleanups ctx e in
  e' = set_calls (calls e') e
  /\ List.NoDup (new_calls e e')
  /\ forall c, In c (new_calls e e') <->
       exists id s, c = StopTimerByIndex id
                    /\ ctxTimers e !! ctx = Some s /\ s !! id = Some true.
Proof.
  intros e'. subst e'.
  destruct (runTimerCleanups_calls ctx e) as (ids & -> & Hnd & Hin).
  rewrite new_calls_set_calls. cbn [calls set_calls].
  split; [reflexivity|]. split.
  - apply Finite.Injective_map_NoDup; [|exact Hnd].
    intros x y Hxy. inversion Hxy. reflexivity.
  - intros c. rewrite in_map_iff. split.
    + intros (id & <- & Hid). apply Hin in Hid as (s & Hs & Hl).
      exists id, s. repeat split; assumption.
    + intros (id & s & -> & Hs & Hl). exists id. split; [reflexivity|].
      apply Hin. exists s. split; assumption.
Qed.


Lemma cleanup_stops_iff (ctx : nat) (id : TimerId) (e : ESEngine) :
  In (StopTimerByIndex id) (new_calls e (runTimerCleanups ctx e)) <->
  exists s, ctxTimers e !! ctx = Some s /\ s !! id = Some true.
Proof.
  destruct (runTimerCleanups_calls ctx e) as (ids & -> & _ & Hin).
  rewrite new_calls_set_calls, <- Hin, in_map_iff. split.
  - intros (x & Hx & Hi). inversion Hx; subst x. exact Hi.
  - intros Hi. exists id. split; [reflexivity|exact Hi].
Qed.

(** X10. A timer that [handleTimerCleanup] has entered for a context is
    stopped by the cleanup of that context; once the registry has
    reported its removal it is not stopped any more. Entering or
    removing a timer changes nothing for the other timers of the
    context nor for any other context. *)
Theorem timer_cleanup_follows_the_timer_set (ctx : ESContext) (t : TimerId)
    (e : ESEngine) :
  let stops c id e := In (StopTimerByIndex id) (new_calls e (runTimerCleanups c e)) in
  stops (ctx_id ctx) t (handleTimerCleanup ctx t e)
  /\ ~ stops (ctx_id ctx) t (timerRemoved (ctx_id ctx) t e)
  /\ (forall c id,
         (c, id) <> (ctx_id ctx, t) ->
         (stops c id (handleTimerCleanup ctx t e) <-> stops c id e)
         /\ (stops c id (timerRemoved (ctx_id ctx) t e) <-> stops c id e)).
Proof.
  intros stops. subst stops. cbn beta.
  split; [|split].
  - apply cleanup_stops_iff. unfold handleTimerCleanup.
    cbn [ctxTimers call set_calls set_ctxTimers].
    eexists. split; [apply lookup_insert_eq|apply lookup_insert_eq].
  - rewrite cleanup_stops_iff. unfold timerRemoved.
    destruct (ctxTimers e !! ctx_id ctx) as [s|] eqn:Hs.
    + cbn [ctxTimers set_ctxTimers]. intros (s' & Hs' & Hl).
      rewrite lookup_insert_eq in Hs'. inversion Hs'; subst s'.
      rewrite lookup_delete_eq in Hl. discriminate.
    + intros (s' & Hs' & _). congruence.
  - intros c id Hne. rewrite !cleanup_stops_iff. split.
    + unfold handleTimerCleanup. cbn [ctxTimers call set_calls set_ctxTimers].
      destruct (decide (c = ctx_id ctx)) as [->|Hc].
      * assert (Hid : id <> t) by congruence.
        rewrite lookup_insert_eq. split.
        -- intros (s' & Hs' & Hl). inversion Hs'; subst s'.
           rewrite lookup_insert_ne in Hl by congruence.
           destruct (ctxTimers e !! ctx_id ctx) as [s|];
             [exists s; split; [reflexivity|exact Hl]|].
           rewrite lookup_empty in Hl. discriminate.
        -- intros (s & Hs & Hl). eexists. split; [reflexivity|].
           rewrite lookup_insert_ne by congruence. rewrite Hs. exact Hl.
      * rewrite lookup_insert_ne by congruence. reflexivity.
    + unfold timerRemoved.
      destruct (ctxTimers e !! ctx_id ctx) as [s|] eqn:Hs; [|reflexivity].
      cbn [ctxTimers set_ctxTimers].
      destruct (decide (c = ctx_id ctx)) as [->|Hc].
      * assert (Hid : id <> t) by congruence.
        rewrite lookup_insert_eq, Hs. split.
        -- intros (s' & Hs' & Hl). inversion Hs'; subst s'.
           rewrite lookup_delete_ne in Hl by congruence.
           exists s. split; [reflexivity|exact Hl].
        -- intros (s' & Hs' & Hl). inversion Hs'; subst s'.
           eexists. split; [reflexivity|].
           rewrite lookup_delete_ne by congruence. exact Hl.
      * rewrite lookup_insert_ne by congruence. reflexivity.
Qed.

(** ** The persistent store, continued *)

Lemma esPersistentSet_db (ctx : ESContext) (bucket key : string) (v : JSValue)
    (db : gmap string (gmap string string)) (e : ESEngine) :
  persistentDB e = Some db ->
  ctx_stack ctx = [JSString bucket; JSString key; v] ->
  esPersistentSet ctx e
  = (Ret0,
     set_persistentDB
       (Some (if bolt_accepts bucket key (JsonEncode v)
              then <[ bucket := <[ key := JsonEncode v ]>
                                  (match db !! bucket with
                                   | Some b => b
                                   | None => ∅
                                   end) ]> db
              else db)) e).
Proof.
  intros Hdb Hs. destruct (stack_of_3 _ _ _ _ Hs) as (Ht & H0 & H1 & H2).
  unfold esPersistentSet. rewrite Hdb, Ht, H0, H1, H2.
  cbn [Nat.eqb negb IsString GetString].
  unfold bolt.Update, bolt.CreateBucketIfNotExists, bolt.Put, bolt_accepts.
  destruct (String.eqb bucket ""); cbn [negb andb]; [reflexivity|].
  destruct (db !! bucket) as [b|] eqn:Hb.
  - destruct (String.eqb key ""); cbn [negb andb]; [reflexivity|].
    rewrite Z.leb_antisym.
    destruct (bolt.MaxKeySize <? _); cbn [negb andb]; [reflexivity|].
    rewrite Z.leb_antisym.
    destruct (bolt.MaxValueSize <? _); cbn [negb andb]; [reflexivity|].
    rewrite Hb. reflexivity.
  - destruct (String.eqb key ""); cbn [negb andb]; [reflexivity|].
    rewrite Z.leb_antisym.
    destruct (bolt.MaxKeySize <? _); cbn [negb andb]; [reflexivity|].
    rewrite Z.leb_antisym.
    destruct (bolt.MaxValueSize <? _); cbn [negb andb]; [reflexivity|].
    rewrite lookup_insert_eq, insert_insert_eq. reflexivity.
Qed.

(** X11. With the database open, [_wbPersistentSet] with a bucket name
    and a key always returns normally, whether or not the store took
    the write. The write is taken exactly when bucket name and key are
    not blank and key and value are within the limits of the store;
    then the value's JSON text stands under the key. Otherwise the
    database is as it was before the call: the bucket that the
    transaction had created is rolled back with it. *)
Theorem persistent_set_is_silent_and_atomic (ctx : ESContext) (bucket key : string)
    (v : JSValue) (db : gmap string (gmap string string)) (e : ESEngine) :
  persistentDB e = Some db ->
  ctx_stack ctx = [JSString bucket; JSString key; v] ->
  let e' := snd (esPersistentSet ctx e) in
  fst (esPersistentSet ctx e) = Ret0
  /\ e' = set_persistentDB (persistentDB e') e
  /\ (bolt_accepts bucket key (JsonEncode v) = true ->
      stored (persistentDB e') bucket key = Some (JsonEncode v))
  /\ (bolt_accepts bucket key (JsonEncode v) = false ->
      persistentDB e' = Some db).
Proof.
  intros Hdb Hs e'. subst e'.
  rewrite (esPersistentSet_db ctx bucket key v db e Hdb Hs). cbn [fst snd].
  split; [reflexivity|]. split; [reflexivity|].
  cbn [persistentDB set_persistentDB].
  destruct (bolt_accepts bucket key (JsonEncode v)); split; try discriminate.
  - intros _. unfold stored. rewrite lookup_insert_eq. apply lookup_insert_eq.
  - intros _. reflexivity.
Qed.

(** X12. A write through [_wbPersistentSet] touches one key of one
    bucket: what [_wbPersistentGet] returns for any other key, or for
    the same key of another bucket, is what it returned before the
    write. A later write of the same key wipes the earlier one: the
    database is as if only the later write had been made. *)
Theorem persistent_set_touches_one_key (ctxS ctxG : ESContext)
    (bucket key bucket' key' : string) (v : JSValue)
    (db : gmap string (gmap string string)) (e : ESEngine) :
  persistentDB e = Some db ->
  ctx_stack ctxS = [JSString bucket; JSString key; v] ->
  ctx_stack ctxG = [JSString bucket'; JSString key'] ->
  ((bucket', key') <> (bucket, key) ->
   fst (esPersistentGet ctxG (snd (esPersistentSet ctxS e)))
   = fst (esPersistentGet ctxG e))
  /\ (forall ctxS2 v2,
         ctx_stack ctxS2 = [JSString bucket; JSString key; v2] ->
         bolt_accepts bucket key (JsonEncode v2) = true ->
         persistentDB (snd (esPersistentSet ctxS2 (snd (esPersistentSet ctxS e))))
         = persistentDB (snd (esPersistentSet ctxS2 e))).
Proof.
  intros Hdb HsS HsG.
  rewrite (esPersistentSet_db ctxS bucket key v db e Hdb HsS). cbn [snd].
  split.
  - intros Hne.
    rewrite (esPersistentGet_reads ctxG bucket' key' db e Hdb HsG).
    destruct (bolt_accepts bucket key (JsonEncode v)).
    + match goal with
      | |- context [set_persistentDB (Some ?d) e] =>
          rewrite (esPersistentGet_reads ctxG bucket' key' d
                     (set_persistentDB (Some d) e) eq_refl HsG)
      end.
      destruct (decide (bucket' = bucket)) as [->|Hb].
      * assert (Hk : key <> key') by congruence.
        rewrite lookup_insert_eq, lookup_insert_ne by exact Hk.
        destruct (db !! bucket) as [b|]; [|rewrite lookup_empty; reflexivity].
        destruct (b !! key') as [value|]; [|reflexivity].
        destruct (JsonDecode value); reflexivity.
      * rewrite lookup_insert_ne by congruence.
        destruct (db !! bucket') as [b|]; [|reflexivity].
        destruct (b !! key') as [value|]; [|reflexivity].
        destruct (JsonDecode value); reflexivity.
    + rewrite (esPersistentGet_reads ctxG bucket' key' db
                 (set_persistentDB (Some db) e) eq_refl HsG).
      destruct (db !! bucket') as [b|]; [|reflexivity].
      destruct (b !! key') as [value|]; [|reflexivity].
      destruct (JsonDecode value); reflexivity.
  - intros ctxS2 v2 HsS2 Hacc.
    rewrite (esPersistentSet_db ctxS2 bucket key v2 db e Hdb HsS2).
    match goal with
    | |- context [esPersistentSet ctxS2 (set_persistentDB (Some ?d) e)] =>
        rewrite (esPersistentSet_db ctxS2 bucket key v2 d
                   (set_persistentDB (Some d) e) eq_refl HsS2)
    end.
    rewrite Hacc. cbn [snd persistentDB set_persistentDB]. f_equal.
    destruct (bolt_accepts bucket key (JsonEncode v)); [|reflexivity].
    rewrite lookup_insert_eq, !insert_insert_eq. reflexivity.
Qed.

(** ** Opening the database *)

(** X13. The persistent database is opened once: after
    [SetPersistentDBMode] has opened it, every further call fails with
    an error and leaves the open database in place. A call that fails,
    for this reason or because the file cannot be opened, leaves the
    engine with the database it had. [SetPersistentDB] is the call with
    the mode 0640. *)
Theorem persistent_db_is_opened_once (filename : string) (mode : Z) (e : ESEngine) :
  (forall e1,
      SetPersistentDBMode filename mode e = (None, e1) ->
      exists db,
        persistentDB e = None /\ bolt_Open filename mode e = inl db
        /\ e1 = set_persistentDB (Some db) e
        /\ forall filename' mode',
             fst (SetPersistentDBMode filename' mode' e1)
             = Some (PlainError "persistent storage DB is already opened")
             /\ persistentDB (snd (SetPersistentDBMode filename' mode' e1)) = Some db)
  /\ (forall err e1,
         SetPersistentDBMode filename mode e = (Some err, e1) ->
         persistentDB e1 = persistentDB e
         /\ exists message, new_calls e e1 = [Log ENGINE_LOG_ERROR message])
  /\ SetPersistentDB filename e = SetPersistentDBMode filename 416 e.
Proof.
  unfold SetPersistentDB, SetPersistentDBMode. split; [|split; [|reflexivity]].
  - intros e1. destruct (persistentDB e) as [db0|] eqn:Hdb; [discriminate|].
    destruct (bolt_Open filename mode e) as [db|err]; [|discriminate].
    intros H. inversion H; subst e1; clear H.
    exists db. split; [reflexivity|]. split; [reflexivity|]. split; [reflexivity|].
    intros filename' mode'. cbn [persistentDB set_persistentDB].
    split; reflexivity.
  - intros err e1. destruct (persistentDB e) as [db0|] eqn:Hdb.
    + intros H. inversion H; subst; clear H. split; [exact Hdb|].
      eexists. unfold call. apply new_calls_set_calls.
    + destruct (bolt_Open filename mode e) as [db|msg]; [discriminate|].
      intros H. inversion H; subst; clear H. split; [reflexivity|].
      eexists. unfold call, new_calls. cbn [calls set_calls set_persistentDB].
      apply drop_app_length.
Qed.

(** ** Publishing *)

Lemma publish_message_cases (stack : list JSValue) (qos : Z) (retain : bool)
    (e : ESEngine) :
  (exists topic p,
      stack = [JSString topic; p]
      /\ publish_message stack qos retain e
         = (Ret0, call (Publish topic (SafeToString p) qos retain) e))
  \/ (throws (fst (publish_message stack qos retain e)) = true
      /\ snd (publish_message stack qos retain e) = e
      /\ forall topic p, stack <> [JSString topic; p]).
Proof.
  unfold publish_message.
  destruct stack as [|a [|p [|q rest]]]; cbn [length Nat.eqb negb];
    try (right; split; [reflexivity|split; [reflexivity|discriminate]]).
  cbn [nth]. destruct a; cbn [IsString negb GetString];
    try (right; split; [reflexivity|split; [reflexivity|discriminate]]).
  left. exists s, p. split; reflexivity.
Qed.

(** X14. [publish] sends at most one message, and only with a QoS of
    0, 1 or 2: a call that throws leaves the engine as it was, and a
    call that returns has handed the registry one message whose topic
    is the first argument, a string, and whose payload is the second
    argument as a string. With two arguments the message goes out with
    QoS 0 and not retained; a third argument is the QoS, and the call
    throws when it is not 0, 1 or 2 as an integer; a fourth is the
    retain flag. Fewer than two or more than four arguments throw. *)
Theorem publish_sends_one_valid_message (ctx : ESContext) (e : ESEngine) :
  let r := fst (esPublish ctx e) in
  let e' := snd (esPublish ctx e) in
  (throws r = true -> e' = e)
  /\ (throws r = false ->
      exists topic p rest qos retain,
        ctx_stack ctx = JSString topic :: p :: rest
        /\ r = Ret0
        /\ e' = call (Publish topic (SafeToString p) qos retain) e
        /\ 0 <= qos <= 2)
  /\ (forall topic p,
         ctx_stack ctx = [JSString topic; p] ->
         esPublish ctx e = (Ret0, call (Publish topic (SafeToString p) 0 false) e))
  /\ (forall topic p q x,
         ctx_stack ctx = [JSString topic; p; q] -> ToNumber q = Some x ->
         esPublish ctx e
         = if (int_of_float64 x <? 0) || (2 <? int_of_float64 x)
           then (DUK_RET_ERROR, e)
           else (Ret0, call (Publish topic (SafeToString p) (int_of_float64 x) false) e))
  /\ (forall topic p q x t,
         ctx_stack ctx = [JSString topic; p; q; t] -> ToNumber q = Some x ->
         esPublish ctx e
         = if (int_of_float64 x <? 0) || (2 <? int_of_float64 x)
           then (DUK_RET_ERROR, e)
           else (Ret0, call (Publish topic (SafeToString p) (int_of_float64 x)
                               (ToBoolean t)) e))
  /\ ((length (ctx_stack ctx) < 2 \/ 4 < length (ctx_stack ctx))%nat ->
      esPublish ctx e = (DUK_RET_ERROR, e)).
Proof.
  intros r e'. subst r e'. unfold esPublish.
  destruct (ctx_stack ctx) as [|a [|p [|q [|t [|u rest]]]]];
    cbn [length Nat.eqb List.last List.removelast].
  - (* no argument *)
    repeat split; try discriminate; try reflexivity; cbn; try lia;
      try (intros; reflexivity).
  - repeat split; try discriminate; try reflexivity; cbn; try lia;
      try (intros; reflexivity).
  - (* topic and payload *)
    destruct (publish_message_cases [a; p] 0 false e)
      as [(topic & p' & Hs & ->)|(Ht & He & Hno)].
    + inversion Hs; subst a p'. cbn [fst snd throws].
      split; [discriminate|]. split.
      { intros _. exists topic, p, [], 0, false. repeat split; lia. }
      split; [intros ? ? H; inversion H; subst; reflexivity|].
      split; [discriminate|]. split; [discriminate|].
      cbn. intros [H|H]; lia.
    + split; [intros _; exact He|]. split; [rewrite Ht; discriminate|].
      split; [intros topic p' H; inversion H; subst; destruct (Hno _ _ eq_refl)|].
      split; [discriminate|]. split; [discriminate|].
      cbn. intros [H|H]; lia.
  - (* with a QoS *)
    destruct (ToNumber q) as [x|] eqn:Hq.
    + destruct ((int_of_float64 x <? 0) || (2 <? int_of_float64 x)) eqn:Hqos.
      * cbn [fst snd throws]. split; [reflexivity|]. split; [discriminate|].
        split; [discriminate|]. split.
        { intros topic p' q' x' H Hx. inversion H; subst.
          rewrite Hq in Hx. inversion Hx; subst x'. rewrite Hqos. reflexivity. }
        split; [discriminate|]. cbn. intros [H|H]; lia.
      * assert (Hrange : 0 <= int_of_float64 x <= 2).
        { apply orb_false_iff in Hqos as [H1 H2].
          apply Z.ltb_ge in H1. apply Z.ltb_ge in H2. lia. }
        destruct (publish_message_cases [a; p] (int_of_float64 x) false e)
          as [(topic & p' & Hs & ->)|(Ht & He & Hno)].
        -- inversion Hs; subst a p'. cbn [fst snd throws].
           split; [discriminate|]. split.
           { intros _. exists topic, p, [q], (int_of_float64 x), false.
             repeat split; lia. }
           split; [discriminate|]. split.
           { intros topic' p' q' x' H Hx. inversion H; subst.
             rewrite Hq in Hx. inversion Hx; subst x'. rewrite Hqos. reflexivity. }
           split; [discriminate|]. cbn. intros [H|H]; lia.
        -- split; [intros _; exact He|]. split; [rewrite Ht; discriminate|].
           split; [discriminate|]. split.
           { intros topic p' q' x' H. inversion H; subst.
             destruct (Hno _ _ eq_refl). }
           split; [discriminate|]. cbn. intros [H|H]; lia.
    + cbn [fst snd throws]. split; [reflexivity|]. split; [discriminate|].
      split; [discriminate|]. split.
      { intros topic p' q' x' H Hx. inversion H; subst.
        rewrite Hq in Hx. discriminate. }
      split; [discriminate|]. cbn. intros [H|H]; lia.
  - (* with a QoS and the retain flag *)
    destruct (ToNumber q) as [x|] eqn:Hq.
    + destruct ((int_of_float64 x <? 0) || (2 <? int_of_float64 x)) eqn:Hqos.
      * cbn [fst snd throws]. split; [reflexivity|]. split; [discriminate|].
        split; [discriminate|]. split; [discriminate|]. split.
        { intros topic p' q' x' t' H Hx. inversion H; subst.
          rewrite Hq in Hx. inversion Hx; subst x'. rewrite Hqos. reflexivity. }
        cbn. intros [H|H]; lia.
      * assert (Hrange : 0 <= int_of_float64 x <= 2).
        { apply orb_false_iff in Hqos as [H1 H2].
          apply Z.ltb_ge in H1. apply Z.ltb_ge in H2. lia. }
        destruct (publish_message_cases [a; p] (int_of_float64 x) (ToBoolean t) e)
          as [(topic & p' & Hs & ->)|(Ht & He & Hno)].
        -- inversion Hs; subst a p'. cbn [fst snd throws].
           split; [discriminate|]. split.
           { intros _. exists topic, p, [q; t], (int_of_float64 x), (ToBoolean t).
             repeat split; lia. }
           split; [discriminate|]. split; [discriminate|]. split.
           { intros topic' p' q' x' t' H Hx. inversion H; subst.
             rewrite Hq in Hx. inversion Hx; subst x'. rewrite Hqos. reflexivity. }
           cbn. intros [H|H]; lia.
        -- split; [intros _; exact He|]. split; [rewrite Ht; discriminate|].
           split; [discriminate|]. split; [discriminate|]. split.
           { intros topic p' q' x' t' H. inversion H; subst.
             destruct (Hno _ _ eq_refl). }
           cbn. intros [H|H]; lia.
    + cbn [fst snd throws]. split; [reflexivity|]. split; [discriminate|].
      split; [discriminate|]. split; [discriminate|]. split.
      { intros topic p' q' x' t' H Hx. inversion H; subst.
        rewrite Hq in Hx. discriminate. }
      cbn. intros [H|H]; lia.
  - (* five arguments or more *)
    unfold publish_message. cbn [length Nat.eqb negb fst snd throws].
    repeat split; try discriminate; try reflexivity.
Qed.

(** ** Writing scripts *)

Lemma checkVirtualPath_under (path cleanPath virtualPath : string) (e : ESEngine) :
  checkVirtualPath path e = (cleanPath, virtualPath, None) ->
  IsSubpath (sourceRoot e) cleanPath = true.
Proof.
  unfold checkVirtualPath, checkSourcePath.
  destruct (filepath_Abs _) as [p|err]; [|discriminate].
  destruct (IsSubpath (sourceRoot e) (filepath_Clean p)) eqn:Hsub.
  - destruct (filepath_Rel _ _); cbn [negb]; [|discriminate].
    intros H. inversion H; subst. exact Hsub.
  - cbn [negb]. discriminate.
Qed.

(** X15. [LiveWriteScript] writes under the source root only: the one
    file it can change is the clean path that [checkVirtualPath] gives
    for the virtual path, which lies under the source root; a virtual
    path that leads out of the root is refused with an error and
    nothing is written or loaded. Loading the script afterwards writes
    no file. *)
Theorem LiveWriteScript_stays_under_the_source_root (virtualPath content : string)
    (e e1 : ESEngine) (err : option error) :
  LiveWriteScript virtualPath content e = Some (err, e1) ->
  (fs e1 = fs e
   \/ exists cleanPath,
        cleanPath = fst (fst (checkVirtualPath virtualPath e))
        /\ IsSubpath (sourceRoot e) cleanPath = true
        /\ fs e1 = <[ cleanPath := content ]> (fs e))
  /\ (snd (checkVirtualPath virtualPath e) <> None ->
      err = snd (checkVirtualPath virtualPath e) /\ e1 = e).
Proof.
  unfold LiveWriteScript.
  destruct (checkVirtualPath virtualPath e) as [[cleanPath vp] cerr] eqn:Hc.
  cbn [fst snd].
  destruct cerr as [cerr|].
  { intros H. inversion H; subst. split; [left; reflexivity|].
    intros _. split; reflexivity. }
  pose proof (checkVirtualPath_under _ _ _ _ Hc) as Hsub.
  destruct (if contains_slash vp then _ else None).
  { intros H. inversion H; subst. split; [left; reflexivity|].
    intros Hn. destruct (Hn eq_refl). }
  destruct (WriteFile_error cleanPath e).
  { intros H. inversion H; subst. split; [left; reflexivity|].
    intros Hn. destruct (Hn eq_refl). }
  intros H. split; [|intros Hn; destruct (Hn eq_refl)].
  right. exists cleanPath. split; [reflexivity|]. split; [exact Hsub|].
  destruct (loadScriptAndRefresh_cases _ _ _ _ _ H)
    as [->|(p & vp2 & under & c & _ & _ & (Hfiles & _) & _)].
  - reflexivity.
  - unfold files in Hfiles. cbn [fs tracker sourceRoot modulesDirs set_tracker set_fs]
      in Hfiles.
    exact (f_equal (fun x => fst (fst (fst x))) Hfiles).
Qed.

(** ** The list of source files *)

Lemma ascii_compare_lt_trans (a b c : ascii) :
  (a ?= b)%char = Lt -> (b ?= c)%char = Lt -> (a ?= c)%char = Lt.
Proof. unfold Ascii.compare. rewrite !N.compare_lt_iff. apply N.lt_trans. Qed.

Lemma string_le_trans (a b c : string) :
  string_le a b -> string_le b c -> string_le a c.
Proof.
  unfold string_le, String.leb. revert b c.
  induction a as [|x a IH]; intros b c.
  - intros _ _. destruct c; reflexivity.
  - destruct b as [|y b]; cbn [String.compare]; [discriminate|].
    destruct c as [|z c]; cbn [String.compare].
    + intros _ H. exact H.
    + destruct (x ?= y)%char eqn:Hxy; [| |discriminate].
      * apply Ascii.compare_eq_iff in Hxy. subst y.
        destruct (x ?= z)%char; [apply IH|reflexivity|intros _ H; exact H].
      * intros _. destruct (y ?= z)%char eqn:Hyz.
        -- apply Ascii.compare_eq_iff in Hyz. subst z. rewrite Hxy. reflexivity.
        -- rewrite (ascii_compare_lt_trans _ _ _ Hxy Hyz). reflexivity.
        -- discriminate.
Qed.

#[local] Instance string_le_transitive : Transitive string_le.
Proof. intros a b c. apply string_le_trans. Qed.

#[local] Instance string_le_total : Total string_le.
Proof. intros a b. apply String.leb_total. Qed.

Lemma omap_lookup_all {A : Type} (m : gmap string A) (paths : list string) :
  Forall (fun p => is_Some (m !! p)) paths ->
  Forall2 (fun p x => m !! p = Some x) paths (omap (fun p => m !! p) paths).
Proof.
  induction 1 as [|p paths [x Hx] _ IH]; [constructor|].
  cbn [omap list_omap]. rewrite Hx. constructor; assumption.
Qed.

(** X16. [ListSourceFiles] gives every source entry once, by ascending
    virtual path in the order of Go strings: the paths under which the
    entries stand are sorted and without repetition, they are the keys
    of the source map, and the n-th entry of the result is the one
    stored under the n-th path. *)
Theorem ListSourceFiles_is_sorted_and_complete (e : ESEngine) :
  exists paths,
    StronglySorted string_le paths
    /\ List.NoDup paths
    /\ (forall p, In p paths <-> is_Some (sources e !! p))
    /\ Forall2 (fun p entry => sources e !! p = Some entry) paths (ListSourceFiles e).
Proof.
  unfold ListSourceFiles, sort_Strings.
  set (keys := map fst (map_to_list (sources e))).
  assert (Hperm : merge_sort string_le keys ≡ₚ keys) by apply merge_sort_Permutation.
  assert (Hkeys : forall p, p ∈ keys <-> is_Some (sources e !! p)).
  { intros p. subst keys.
    change (map fst (map_to_list (sources e))) with (fst <$> map_to_list (sources e)).
    rewrite list_elem_of_fmap. split.
    - intros ([k x] & -> & Hin). apply elem_of_map_to_list in Hin. exists x. exact Hin.
    - intros [x Hx]. exists (p, x). split; [reflexivity|].
      apply elem_of_map_to_list. exact Hx. }
  exists (merge_sort string_le keys). split; [|split; [|split]].
  - apply StronglySorted_merge_sort; apply _.
  - apply NoDup_ListNoDup. rewrite Hperm. subst keys.
    apply (NoDup_fst_map_to_list (sources e)).
  - intros p. rewrite <- list_elem_of_In, Hperm. apply Hkeys.
  - apply omap_lookup_all. apply Forall_forall. intros p Hp.
    apply Hkeys. rewrite <- Hperm. exact Hp.
Qed.

(** ** The items of a source file *)

Lemma traceback_line_app (file : string) (tb1 tb2 : list ESLocation) (line : Z) :
  fold_left (fun line loc => if String.eqb (loc_filename loc) file
                             then loc_line loc else line) (tb1 ++ tb2) line
  = fold_left (fun line loc => if String.eqb (loc_filename loc) file
                               then loc_line loc else line) tb2
      (fold_left (fun line loc => if String.eqb (loc_filename loc) file
                                  then loc_line loc else line) tb1 line).
Proof. apply fold_left_app. Qed.

Lemma traceback_line_none (file : string) (tb : list ESLocation) (line : Z) :
  Forall (fun loc => loc_filename loc <> file) tb ->
  fold_left (fun line loc => if String.eqb (loc_filename loc) file
                             then loc_line loc else line) tb line = line.
Proof.
  intros Hall. revert line. induction Hall as [|loc tb Hne _ IH]; intros line.
  - reflexivity.
  - cbn [fold_left]. destruct (String.eqb_spec (loc_filename loc) file) as [Heq|_].
    + destruct (Hne Heq).
    + apply IH.
Qed.

(** X17. A device or rule that a script defines is recorded for the
    source file at the line of the last frame of the traceback that
    lies in the file being loaded. Nothing is recorded when no script
    is being loaded, or when no frame of the traceback lies in that
    file. An item that is recorded is appended to the devices or to the
    rules of the entry, and nothing else of the entry or of the engine
    changes. *)
Theorem source_items_are_recorded_at_the_last_frame (ctx : ESContext)
    (typ : itemType) (name : string) (e : ESEngine) :
  (currentSource e = None -> maybeRegisterSourceItem ctx typ name e = e)
  /\ (forall src,
         currentSource e = Some src ->
         Forall (fun loc => loc_filename loc <> PhysicalPath src) (ctx_traceback ctx) ->
         maybeRegisterSourceItem ctx typ name e = e)
  /\ (forall src pre loc post,
         currentSource e = Some src ->
         ctx_traceback ctx = (pre ++ loc :: post)%list ->
         loc_filename loc = PhysicalPath src ->
         Forall (fun loc' => loc_filename loc' <> PhysicalPath src) post ->
         loc_line loc <> -1 ->
         let item := {| Line := loc_line loc; Name := name |} in
         maybeRegisterSourceItem ctx typ name e
         = set_currentSource
             (Some {| VirtualPath := VirtualPath src;
                      PhysicalPath := PhysicalPath src;
                      Devices := match typ with
                                 | SOURCE_ITEM_DEVICE => Devices src ++ [item]
                                 | SOURCE_ITEM_RULE => Devices src
                                 end;
                      Rules := match typ with
                               | SOURCE_ITEM_DEVICE => Rules src
                               | SOURCE_ITEM_RULE => Rules src ++ [item]
                               end;
                      Error := Error src |}) e).
Proof.
  unfold maybeRegisterSourceItem, traceback_line. split; [|split].
  - intros ->. reflexivity.
  - intros src -> Hall. rewrite (traceback_line_none _ _ _ Hall). reflexivity.
  - intros src pre loc post Hsrc Htb Hloc Hpost Hline. cbv zeta.
    rewrite Hsrc, Htb, traceback_line_app. cbn [fold_left].
    rewrite Hloc, String.eqb_refl. rewrite (traceback_line_none _ _ _ Hpost).
    destruct (Z.eqb_spec (loc_line loc) (-1)) as [Heq|_]; [destruct (Hline Heq)|].
    destruct typ; reflexivity.
Qed.


(** ** What the evaluation of a script leaves to the host *)

Lemma bs_maybeRegisterSourceItem ctx typ name e :
  bridge_state (maybeRegisterSourceItem ctx typ name e) = bridge_state e.
Proof.
  unfold maybeRegisterSourceItem.
  destruct (currentSource e) as [src|] eqn:Hsrc; [|reflexivity].
  destruct (_ =? _); [reflexivity|].
  unfold bridge_state, host_state, entry_of. rewrite Hsrc. destruct typ; reflexivity.
Qed.

Lemma bs_maybeExpandLocalObjectId ctx name e :
  bridge_state (snd (maybeExpandLocalObjectId ctx name e)) = bridge_state e.
Proof.
  unfold maybeExpandLocalObjectId.
  destruct (_ && _); [|reflexivity].
  destruct (GetPropString _ _); try reflexivity.
  destruct (localObjectId _ _ _). reflexivity.
Qed.

Lemma bs_esWbStartTimer ctx e : bridge_state (snd (esWbStartTimer ctx e)) = bridge_state e.
Proof.
  unfold esWbStartTimer, RuleEngine_StartTimer.
  destruct (_ || _); [reflexivity|].
  destruct (IsString _).
  - destruct (String.eqb _ ""); reflexivity.
  - destruct (negb _); reflexivity.
Qed.

Lemma bs_esWbStopTimer ctx e : bridge_state (snd (esWbStopTimer ctx e)) = bridge_state e.
Proof.
  unfold esWbStopTimer.
  destruct (negb _); [reflexivity|].
  destruct (IsNumber _).
  - destruct (_ =? 0); reflexivity.
  - destruct (IsString _); reflexivity.
Qed.

Lemma bs_buildRule name def e : bridge_state (snd (buildRule name def e)) = bridge_state e.
Proof.
  unfold buildRule.
  destruct (negb _); [reflexivity|].
  destruct (buildRuleCond def); reflexivity.
Qed.

Lemma bs_esWbDefineRule ctx e : bridge_state (snd (esWbDefineRule ctx e)) = bridge_state e.
Proof.
  unfold esWbDefineRule, RuleEngine_DefineRule.
  match goal with
  | |- context [match ?x with Some _ => _ | None => _ end] => destruct x as [[[sn n] d]|]
  end; [|reflexivity].
  pose proof (bs_buildRule n d e) as Hb.
  destruct (buildRule n d e) as [[rule|err] e1]; cbn [snd] in *; [|exact Hb].
  rewrite bs_maybeRegisterSourceItem. exact Hb.
Qed.

Lemma bs_esVirtualDeviceId ctx e :
  bridge_state (snd (esVirtualDeviceId ctx e)) = bridge_state e.
Proof.
  unfold esVirtualDeviceId.
  destruct (_ || _); [reflexivity|].
  pose proof (bs_maybeExpandLocalObjectId ctx (GetString (stack_at ctx (-1))) e) as Hm.
  destruct (maybeExpandLocalObjectId _ _ e) as [name e1]. exact Hm.
Qed.

Lemma bs_esDefineVirtualDevice ctx e r e' :
  esDefineVirtualDevice ctx e = Some (r, e') -> bridge_state e' = bridge_state e.
Proof.
  unfold esDefineVirtualDevice. intros H.
  destruct (_ || _); [inversion H; reflexivity|].
  destruct (stack_at ctx (-1)); try discriminate H.
  pose proof (bs_maybeExpandLocalObjectId ctx (GetString (stack_at ctx (-2))) e) as Hm.
  destruct (maybeExpandLocalObjectId _ _ e) as [name e1]. cbn [snd] in Hm.
  destruct (DefineVirtualDevice_error _ _ _); inversion H; subst; clear H.
  - exact Hm.
  - rewrite bs_maybeRegisterSourceItem. exact Hm.
Qed.

Lemma bs_esPersistentName ctx e :
  bridge_state (snd (esPersistentName ctx e)) = bridge_state e.
Proof.
  unfold esPersistentName.
  destruct (persistentDB e); [|reflexivity].
  repeat match goal with
         | |- context [if ?c then _ else _] => destruct c; [reflexivity|]
         end.
  pose proof (bs_maybeExpandLocalObjectId ctx (GetString (stack_at ctx 0)) e) as Hm.
  destruct (maybeExpandLocalObjectId _ _ e) as [name e1]. exact Hm.
Qed.

Lemma bs_esPersistentSet ctx e :
  bridge_state (snd (esPersistentSet ctx e)) = bridge_state e.
Proof.
  unfold esPersistentSet.
  destruct (persistentDB e); [|reflexivity].
  repeat match goal with
         | |- context [if ?c then _ else _] => destruct c; [reflexivity|]
         end.
  destruct (bolt.Update _ _). reflexivity.
Qed.

Lemma bs_esPersistentGet ctx e :
  bridge_state (snd (esPersistentGet ctx e)) = bridge_state e.
Proof.
  unfold esPersistentGet.
  destruct (persistentDB e); [|reflexivity].
  repeat match goal with
         | |- context [if ?c then _ else _] => destruct c; [reflexivity|]
         end.
  match goal with
  | |- context [match ?x with Some _ => _ | None => _ end] => destruct x
  end; [|reflexivity].
  destruct (JsonDecode _); reflexivity.
Qed.

Lemma bs_bridge f ctx e r e' :
  bridge f ctx e = Some (r, e') -> bridge_state e' = bridge_state e.
Proof.
  destruct f; cbn [bridge]; intros H;
    try (inversion H as [H']; clear H;
         match type of H' with
         | ?t = _ => replace e' with (snd t) by (rewrite H'; reflexivity)
         end).
  - apply bs_esWbDefineRule.
  - apply bs_esWbStartTimer.
  - apply bs_esWbStopTimer.
  - exact (bs_esDefineVirtualDevice ctx e r e' H).
  - apply bs_esVirtualDeviceId.
  - apply bs_esPersistentName.
  - apply bs_esPersistentSet.
  - apply bs_esPersistentGet.
Qed.

Lemma hs_bridge f ctx e r e' :
  bridge f ctx e = Some (r, e') -> host_state e' = host_state e.
Proof.
  intros H. exact (f_equal (fun x => fst (fst x)) (bs_bridge _ _ _ _ _ H)).
Qed.

Lemma hs_attach_module path module e :
  host_state (attach_module path module e) = host_state e.
Proof.
  unfold attach_module.
  set (e1 := put_prop module MODULE_FILENAME_PROP (HString path) e).
  destruct (esModules e1 !! path) as [s|] eqn:Hs.
  - rewrite Hs. reflexivity.
  - cbn [esModules set_esModules]. rewrite lookup_insert_eq. reflexivity.
Qed.

Lemma hs_ModSearch id module e :
  host_state (snd (ModSearch id module e)) = host_state e.
Proof.
  unfold ModSearch.
  pose proof (modSearchDirs_state (modulesDirs e) (GetString id) module e []) as Hs.
  destruct (modSearchDirs _ _ _ _ _) as [[[[p src]|] probed] e']; cbn [snd] in *.
  - destruct Hs as [->|[path ->]]; [reflexivity|apply hs_attach_module].
  - destruct Hs as [->|[path ->]]; [reflexivity|].
    exact (hs_attach_module path module e).
Qed.

Lemma hs_run_script (s : Script) :
  forall ctx filename e outcome e',
    run_script ctx filename s e = Some (outcome, e') -> host_state e' = host_state e.
Proof.
  induction s as [outcome0|f this args tb k IH|id k IH];
    intros ctx filename e outcome e' Hrun; cbn [run_script] in Hrun.
  - inversion Hrun; subst. reflexivity.
  - destruct (bridge f _ e) as [[r e1]|] eqn:Hb; [|discriminate].
    rewrite (IH r ctx filename e1 outcome e' Hrun).
    exact (hs_bridge _ _ _ _ _ Hb).
  - set (e1 := set_objects _ (set_nextRef _ e)) in Hrun.
    pose proof (hs_ModSearch id (nextRef e) e1) as Hm.
    destruct (ModSearch id (nextRef e) e1) as [[r probed] e2]. cbn [snd] in Hm.
    rewrite (IH r ctx filename e2 outcome e' Hrun), Hm. reflexivity.
Qed.

(** ** Cleanups *)

Lemma set_sources_same (e : ESEngine) : set_sources (sources e) e = e.
Proof. destruct e; reflexivity. Qed.

Lemma run_cleanups_fold (cs : list Cleanup) (e : ESEngine) :
  fold_left (fun e c => run_cleanup c e) cs e
  = set_sources (sources_after cs (sources e)) e.
Proof.
  revert e. induction cs as [|c cs IH]; intros e; cbn [fold_left sources_after].
  - symmetry. apply set_sources_same.
  - rewrite IH. destruct c. reflexivity.
Qed.

Lemma sources_after_sub (cs : list Cleanup) (m : gmap string LocFileEntry)
    (k : string) (src : LocFileEntry) :
  sources_after cs m !! k = Some src -> m !! k = Some src.
Proof.
  revert m. induction cs as [|c cs IH]; intros m; cbn [sources_after fold_left].
  - auto.
  - intros H. apply IH in H. destruct c.
    apply lookup_delete_Some in H as [_ H]. exact H.
Qed.

(** What [runCleanups] does to the state of the host. *)
Lemma runCleanups_host (path : string) (e : ESEngine) :
  let e' := runCleanups path e in
  localCtxs e' = localCtxs e
  /\ cleanups e' = delete path (cleanups e)
  /\ sources e'
     = sources_after (match cleanups e !! path with Some cs => cs | None => [] end)
         (sources e)
  /\ esThreads e' = match localCtxs e !! path with
                    | Some _ => delete path (esThreads e)
                    | None => esThreads e
                    end
  /\ ctxTimers e' = ctxTimers e.
Proof.
  unfold runCleanups, cleanup_RunCleanups.
  set (e1 := match localCtxs e !! path with Some _ => _ | None => e end).
  assert (H1 : localCtxs e1 = localCtxs e /\ cleanups e1 = cleanups e
               /\ sources e1 = sources e /\ ctxTimers e1 = ctxTimers e
               /\ esThreads e1 = match localCtxs e !! path with
                                 | Some _ => delete path (esThreads e)
                                 | None => esThreads e
                                 end).
  { subst e1. destruct (localCtxs e !! path) as [ctx|]; [|repeat split].
    destruct (runTimerCleanups_calls ctx e) as (ids & -> & _).
    unfold removeThreadFromStorage. cbn [esThreads set_calls].
    destruct (esThreads e !! path) eqn:Ht; repeat split.
    cbn [esThreads call set_calls]. symmetry. apply delete_id. exact Ht. }
  destruct H1 as (Hl & Hc & Hs & Ht & Hth). cbn zeta.
  cbn [cleanups call set_calls]. rewrite Hc.
  destruct (cleanups e !! path) as [cs|] eqn:Hcs.
  - rewrite run_cleanups_fold.
    cbn [localCtxs cleanups sources esThreads ctxTimers set_sources set_cleanups
         call set_calls].
    rewrite ?Hl, ?Hc, ?Hs, ?Ht, ?Hth. repeat split.
  - cbn [localCtxs cleanups sources esThreads ctxTimers call set_calls sources_after
         fold_left].
    rewrite ?Hl, ?Hc, ?Hs, ?Ht, ?Hth. repeat split.
    symmetry. apply delete_id. exact Hcs.
Qed.

Lemma trackESError_host (path : string) (o : option error) (e : ESEngine)
    (src : LocFileEntry) :
  currentSource e = Some src ->
  exists src',
    currentSource (snd (trackESError path o e)) = Some src'
    /\ VirtualPath src' = VirtualPath src /\ PhysicalPath src' = PhysicalPath src
    /\ sources (snd (trackESError path o e)) = sources e
    /\ cleanups (snd (trackESError path o e)) = cleanups e
    /\ localCtxs (snd (trackESError path o e)) = localCtxs e
    /\ esThreads (snd (trackESError path o e)) = esThreads e
    /\ (fst (trackESError path o e) = None -> Error src' = Error src)
    /\ (forall se, Error src' = Some se ->
          Error src = Some se \/ fst (trackESError path o e) = Some (ScriptErr se)).
Proof.
  intros Hsrc. unfold trackESError.
  destruct o as [[m|esError|se]|]; cbn [fst snd];
    try (exists src; repeat split; auto; discriminate).
  rewrite Hsrc. eexists. split; [reflexivity|]. cbn.
  repeat split; try discriminate.
  intros se H. inversion H; subst. right. reflexivity.
Qed.

(** ** What a load leaves in the state of the host *)

Lemma host_state_inv (e e' : ESEngine) :
  host_state e' = host_state e ->
  sources e' = sources e /\ cleanups e' = cleanups e /\ localCtxs e' = localCtxs e
  /\ esThreads e' = esThreads e /\ entry_of e' = entry_of e.
Proof.
  unfold host_state. intros H. inversion H. repeat split; assumption.
Qed.

Lemma entry_of_some (e : ESEngine) (vp p : string) (err : option ScriptError) :
  entry_of e = Some (vp, p, err) ->
  exists src, currentSource e = Some src /\ VirtualPath src = vp
              /\ PhysicalPath src = p /\ Error src = err.
Proof.
  unfold entry_of. destruct (currentSource e) as [src|]; [|discriminate].
  intros H. inversion H. exists src. repeat split.
Qed.

Lemma entry_of_none (e : ESEngine) : entry_of e = None <-> currentSource e = None.
Proof.
  unfold entry_of. destruct (currentSource e); split; try discriminate; reflexivity.
Qed.

(** The state after a load that loads, in terms of the state [e2] after
    the cleanup of the previous load of the script. *)
Lemma loadScript_host (path : string) (loadIfUnchanged : bool) (e e' : ESEngine)
    (err : option error) :
  loadScript path loadIfUnchanged e = Some (true, err, e') ->
  exists p vp under c,
    checkSourcePath path e = (p, vp, under, None)
    /\ currentSource e = None
    /\ fs e !! p = Some c
    /\ let e2 := runCleanups p (set_tracker (<[ vp := content_hash c ]> (tracker e)) e) in
       localCtxs e' = <[ p := nextRef e2 ]> (localCtxs e2)
       /\ esThreads e' = <[ p := nextRef e2 ]> (esThreads e2)
       /\ currentSource e' = None
       /\ if under then
            exists src,
              VirtualPath src = vp /\ PhysicalPath src = p
              /\ sources e' = <[ vp := src ]> (sources e2)
              /\ cleanups e' = <[ p := [CleanupDeleteSource vp] ]> (cleanups e2)
              /\ (err = None -> Error src = None)
              /\ (forall se, Error src = Some se -> err = Some (ScriptErr se))
          else sources e' = sources e2 /\ cleanups e' = cleanups e2.
Proof.
  unfold loadScript. intros H.
  destruct (checkSourcePath path e) as [[[p vp] under] cerr].
  destruct cerr; [inversion H|].
  destruct (currentSource e) eqn:Hcur; [discriminate|].
  unfold Track, ReadFile in H.
  destruct (fs e !! p) as [c|] eqn:Hc; [|inversion H].
  exists p, vp, under, c. split; [reflexivity|]. split; [reflexivity|].
  split; [exact Hc|].
  set (et := set_tracker (<[ vp := content_hash c ]> (tracker e)) e) in *.
  destruct (negb loadIfUnchanged && _); [inversion H|].
  set (e2 := runCleanups p et) in *. cbn zeta.
  destruct (runCleanups_host p et) as (_ & Hcl2 & _).
  fold e2 in Hcl2.
  assert (Hcur2 : currentSource e2 = None).
  { subst e2. rewrite runCleanups_currentSource. exact Hcur. }
  set (e6 := call (PushCleanupScope p) _) in H.
  set (e7 := if under then _ else e6) in H.
  set (e8 := if esInitEnv_fails then _ else e7) in H.
  assert (H8 : localCtxs e8 = <[ p := nextRef e2 ]> (localCtxs e2)
               /\ esThreads e8 = <[ p := nextRef e2 ]> (esThreads e2)
               /\ sources e8 = sources e2
               /\ cleanups e8 = (if under
                                 then <[ p := [CleanupDeleteSource vp] ]> (cleanups e2)
                                 else cleanups e2)
               /\ entry_of e8 = if under then Some (vp, p, None) else None).
  { subst e8 e7. destruct esInitEnv_fails, under; subst e6;
      unfold cleanup_AddCleanup, entry_of;
      cbn [localCtxs esThreads sources cleanups currentSource call set_calls
           set_cleanups set_currentSource set_esThreads set_localCtxs set_nextRef
           VirtualPath PhysicalPath Error];
      rewrite ?Hcur2; repeat split;
      rewrite Hcl2, lookup_delete_eq; reflexivity. }
  clearbody e8. clear e6 e7.
  unfold ESContext_LoadScenario in H.
  set (e8' := call (LoadScenario _ p) e8) in H.
  assert (Hs8 : host_state e8' = host_state e8) by reflexivity.
  clearbody e8'.
  assert (Hrun : exists o e9,
             match ReadFile p e8' with
             | Some text => run_script (nextRef e2) vp (interpret text) e8'
             | None => Some (Some (PlainError ("cannot read " +:+ p)), e8')
             end = Some (o, e9)
             /\ err = fst (trackESError p o e9)
             /\ e' = call (PopCleanupScope p)
                       (if under then
                          set_currentSource None
                            match currentSource (snd (trackESError p o e9)) with
                            | Some src =>
                                set_sources
                                  (<[ vp := src ]> (sources (snd (trackESError p o e9))))
                                  (snd (trackESError p o e9))
                            | None => snd (trackESError p o e9)
                            end
                        else snd (trackESError p o e9))).
  { destruct (match ReadFile p e8' with Some _ => _ | None => _ end)
      as [[o e9]|]; [|discriminate].
    exists o, e9. split; [reflexivity|].
    destruct (trackESError p o e9) as [err' e10]. cbn [fst snd].
    inversion H. split; reflexivity. }
  clear H. destruct Hrun as (o & e9 & Hrun & -> & ->).
  assert (Hs9 : host_state e9 = host_state e8).
  { rewrite <- Hs8. destruct (ReadFile p e8') as [text|].
    - exact (hs_run_script _ _ _ _ _ _ Hrun).
    - inversion Hrun; subst. reflexivity. }
  destruct (host_state_inv _ _ Hs9) as (S9 & C9 & L9 & T9 & E9).
  destruct H8 as (L8 & T8 & S8 & C8 & E8).
  destruct under.
  - rewrite E8 in E9.
    destruct (entry_of_some _ _ _ _ E9) as (src & Hsrc & Hvp & Hp & Herr).
    destruct (trackESError_host p o e9 src Hsrc)
      as (src' & Hsrc' & Hvp' & Hp' & S10 & C10 & L10 & T10 & Hnone & Hsome).
    rewrite Hsrc'.
    cbn [localCtxs esThreads sources cleanups currentSource call set_calls
         set_currentSource set_sources].
    rewrite L10, T10, L9, T9, L8, T8. repeat split.
    exists src'. rewrite S10, C10, S9, C9, S8, C8.
    split; [congruence|]. split; [congruence|]. split; [reflexivity|].
    split; [reflexivity|]. split.
    + intros Hn. rewrite (Hnone Hn). exact Herr.
    + intros se Hse. destruct (Hsome se Hse) as [H|H]; [congruence|exact H].
  - rewrite E8 in E9. apply entry_of_none in E9.
    assert (H10 : snd (trackESError p o e9) = e9).
    { unfold trackESError. destruct o as [[m|esError|se]|]; try reflexivity.
      rewrite E9. reflexivity. }
    rewrite H10. cbn [localCtxs esThreads sources cleanups currentSource call set_calls].
    rewrite L9, T9, S9, C9, L8, T8, S8, C8. repeat split. exact E9.
Qed.

(** X19. A script under the source root that has been loaded is listed:
    the source map holds, under the virtual path, an entry with that
    virtual path and the physical path of the script; the entry has an
    error only when the load reported that script error, and none when
    the load reported no error. The script has its context and its
    thread stored under the physical path, its cleanup scope holds the
    removal of the entry, and no script is being loaded any more. *)
Theorem loaded_script_is_listed (path : string) (loadIfUnchanged : bool)
    (e e' : ESEngine) (err : option error) (p vp : string) :
  loadScript path loadIfUnchanged e = Some (true, err, e') ->
  checkSourcePath path e = (p, vp, true, None) ->
  exists src ctx,
    sources e' !! vp = Some src
    /\ VirtualPath src = vp /\ PhysicalPath src = p
    /\ (err = None -> Error src = None)
    /\ (forall se, Error src = Some se -> err = Some (ScriptErr se))
    /\ currentSource e' = None
    /\ localCtxs e' !! p = Some ctx /\ esThreads e' !! p = Some ctx
    /\ cleanups e' !! p = Some [CleanupDeleteSource vp].
Proof.
  intros Hload Hcheck.
  destruct (loadScript_host _ _ _ _ _ Hload)
    as (p' & vp' & under & c & Hcheck' & _ & _ & HL & HT & HC & Hunder).
  rewrite Hcheck in Hcheck'. inversion Hcheck'; subst p' vp' under.
  destruct Hunder as (src & Hvp & Hp & HS & HCl & Hnone & Hsome).
  exists src. eexists. rewrite HS, HL, HT, HCl.
  split; [apply lookup_insert_eq|]. split; [exact Hvp|]. split; [exact Hp|].
  split; [exact Hnone|]. split; [exact Hsome|]. split; [exact HC|].
  split; [apply lookup_insert_eq|]. split; apply lookup_insert_eq.
Qed.

Lemma maybePublishUpdate_host (subtopic path : string) (e : ESEngine) :
  host_state (maybePublishUpdate subtopic path e) = host_state e
  /\ ctxTimers (maybePublishUpdate subtopic path e) = ctxTimers e
  /\ exists extra, calls (maybePublishUpdate subtopic path e) = (calls e ++ extra)%list.
Proof.
  unfold maybePublishUpdate.
  destruct (checkSourcePath path e) as [[[cp vp] under] err].
  destruct err, under; (split; [reflexivity|split; [reflexivity|]]);
    unfold call; cbn [calls set_calls]; rewrite <- ?app_assoc;
    try (eexists; reflexivity).
  exists []. rewrite app_nil_r. reflexivity.
Qed.

Lemma runCleanups_calls (path : string) (ctx t : nat) (e : ESEngine) :
  localCtxs e !! path = Some ctx -> esThreads e !! path = Some t ->
  exists ids,
    calls (runCleanups path e)
    = (calls e ++ map StopTimerByIndex ids ++ [RunCleanups path])%list
    /\ forall id, In id ids <->
         exists s, ctxTimers e !! ctx = Some s /\ s !! id = Some true.
Proof.
  intros Hl Ht. unfold runCleanups, cleanup_RunCleanups. rewrite Hl.
  destruct (runTimerCleanups_calls ctx e) as (ids & -> & _ & Hin).
  exists ids. split; [|exact Hin].
  unfold removeThreadFromStorage. cbn [esThreads set_calls]. rewrite Ht.
  cbn [cleanups call set_calls set_esThreads calls].
  destruct (cleanups e !! path) as [cs|].
  - rewrite run_cleanups_fold. unfold call.
    cbn [calls set_sources set_cleanups set_calls set_esThreads].
    rewrite <- ?app_assoc. reflexivity.
  - unfold call. cbn [calls set_calls set_esThreads].
    rewrite <- ?app_assoc. reflexivity.
Qed.

(** X20. Removing a script that was loaded from under the source root
    takes it off the list: [LiveRemoveFile] on its physical path
    deletes its entry from the source map and nothing else of the map,
    drops its thread and its cleanup scope, asks the registry to stop
    every timer that is active in the timer set of its context, and
    refreshes the rules. *)
Theorem removed_script_is_unlisted (path : string) (loadIfUnchanged : bool)
    (e e' : ESEngine) (err : option error) (p vp : string) :
  loadScript path loadIfUnchanged e = Some (true, err, e') ->
  checkSourcePath path e = (p, vp, true, None) ->
  let e2 := LiveRemoveFile p e' in
  sources e2 = delete vp (sources e')
  /\ esThreads e2 !! p = None
  /\ cleanups e2 !! p = None
  /\ currentSource e2 = None
  /\ (forall ctx s id,
         localCtxs e' !! p = Some ctx -> ctxTimers e' !! ctx = Some s ->
         s !! id = Some true ->
         In (StopTimerByIndex id) (new_calls e' e2))
  /\ In Refresh (new_calls e' e2).
Proof.
  intros Hload Hcheck e2.
  destruct (loadScript_host _ _ _ _ _ Hload)
    as (p' & vp' & under & c & Hcheck' & _ & _ & HL & HT & HC & Hunder).
  rewrite Hcheck in Hcheck'. inversion Hcheck'; subst p' vp' under.
  destruct Hunder as (src & _ & _ & _ & HCl & _).
  assert (HLp : localCtxs e' !! p = Some (nextRef (runCleanups p
                  (set_tracker (<[ vp := content_hash c ]> (tracker e)) e))))
    by (rewrite HL; apply lookup_insert_eq).
  assert (HTp : esThreads e' !! p = Some (nextRef (runCleanups p
                  (set_tracker (<[ vp := content_hash c ]> (tracker e)) e))))
    by (rewrite HT; apply lookup_insert_eq).
  assert (HClp : cleanups e' !! p = Some [CleanupDeleteSource vp])
    by (rewrite HCl; apply lookup_insert_eq).
  subst e2. unfold LiveRemoveFile.
  destruct (maybePublishUpdate_host "removed" p (call Refresh (runCleanups p e')))
    as (Hhs & _ & extra & Hcalls).
  destruct (host_state_inv _ _ Hhs) as (S2 & C2 & _ & T2 & E2).
  destruct (runCleanups_host p e') as (_ & Hc & Hs & Ht & _).
  rewrite HLp in Ht. rewrite HClp in Hs.
  cbn [sources cleanups esThreads call set_calls] in S2, C2, T2.
  split; [rewrite S2; exact Hs|].
  split; [rewrite T2, Ht; apply lookup_delete_eq|].
  split; [rewrite C2, Hc; apply lookup_delete_eq|].
  split.
  { apply entry_of_none. rewrite E2. apply entry_of_none.
    cbn [currentSource call set_calls]. rewrite runCleanups_currentSource. exact HC. }
  destruct (runCleanups_calls p _ _ e' HLp HTp) as (ids & Hrc & Hin).
  assert (Hnew : new_calls e' (maybePublishUpdate "removed" p
                                 (call Refresh (runCleanups p e')))
                 = (map StopTimerByIndex ids ++ [RunCleanups p] ++ [Refresh] ++ extra)%list).
  { unfold new_calls. rewrite Hcalls. unfold call. cbn [calls set_calls].
    rewrite Hrc, <- !app_assoc. apply drop_app_length. }
  rewrite Hnew. split.
  - intros ctx s id Hctx Hs' Hid. rewrite HLp in Hctx. inversion Hctx; subst ctx.
    apply in_or_app. left. apply in_map. apply Hin. exists s. split; assumption.
  - apply in_or_app. right. right. left. reflexivity.
Qed.

(** ** The source map, over the life of the engine *)

Lemma sources_ok_after (cs : list Cleanup) (e e' : ESEngine) :
  sources e' = sources_after cs (sources e) -> sources_ok e -> sources_ok e'.
Proof.
  intros Hs Hok k src Hk. rewrite Hs in Hk.
  apply sources_after_sub in Hk. exact (Hok k src Hk).
Qed.

Lemma loadScriptAndRefresh_keeps_ok (path : string) (loadIfUnchanged : bool)
    (e e' : ESEngine) (err : option error) :
  loadScriptAndRefresh path loadIfUnchanged e = Some (err, e') ->
  currentSource e = None /\ sources_ok e ->
  currentSource e' = None /\ sources_ok e'.
Proof.
  unfold loadScriptAndRefresh. intros H [Hcur Hok].
  destruct (loadScript path loadIfUnchanged e) as [[[loaded err1] e1]|] eqn:Hl;
    [|discriminate].
  destruct loaded; inversion H; subst; clear H.
  - destruct (loadScript_host _ _ _ _ _ Hl)
      as (p & vp & under & c & _ & _ & _ & _ & _ & HC & Hunder).
    destruct (maybePublishUpdate_host "changed" path (call Refresh e1)) as (Hhs & _).
    destruct (host_state_inv _ _ Hhs) as (S2 & _ & _ & _ & E2).
    cbn [sources call set_calls] in S2.
    split.
    { apply entry_of_none. rewrite E2. apply entry_of_none. exact HC. }
    destruct (runCleanups_host p (set_tracker (<[ vp := content_hash c ]> (tracker e)) e))
      as (_ & _ & Hs2 & _).
    cbn [sources cleanups set_tracker] in Hs2.
    assert (Hok2 : sources_ok (runCleanups p
                     (set_tracker (<[ vp := content_hash c ]> (tracker e)) e)))
      by exact (sources_ok_after _ e _ Hs2 Hok).
    intros k src Hk. rewrite S2 in Hk. destruct under.
    + destruct Hunder as (src0 & Hvp & _ & HS & _). rewrite HS in Hk.
      destruct (decide (k = vp)) as [->|Hne].
      * rewrite lookup_insert_eq in Hk. injection Hk as <-. exact Hvp.
      * rewrite lookup_insert_ne in Hk by congruence. exact (Hok2 k src Hk).
    + destruct Hunder as [HS _]. rewrite HS in Hk. exact (Hok2 k src Hk).
  - rewrite (loadScript_not_loaded _ _ _ _ _ Hl). split; assumption.
Qed.

Lemma engine_step_keeps_ok (e e' : ESEngine) :
  engine_step e e' ->
  currentSource e = None /\ sources_ok e ->
  currentSource e' = None /\ sources_ok e'.
Proof.
  intros Hstep [Hcur Hok].
  destruct Hstep as [f ctx e r e' Hb|id module e|ctx timer e
                    |path liu e err e' Hl|vp content e err e' Hw|path e].
  - destruct (host_state_inv _ _ (hs_bridge _ _ _ _ _ Hb)) as (S & _ & _ & _ & E).
    split; [apply entry_of_none; rewrite E; apply entry_of_none; exact Hcur|].
    intros k src Hk. rewrite S in Hk. exact (Hok k src Hk).
  - destruct (host_state_inv _ _ (hs_ModSearch id module e)) as (S & _ & _ & _ & E).
    split; [apply entry_of_none; rewrite E; apply entry_of_none; exact Hcur|].
    intros k src Hk. rewrite S in Hk. exact (Hok k src Hk).
  - unfold timerRemoved. destruct (ctxTimers e !! ctx); split; assumption.
  - exact (loadScriptAndRefresh_keeps_ok _ _ _ _ _ Hl (conj Hcur Hok)).
  - unfold LiveWriteScript in Hw.
    destruct (checkVirtualPath vp e) as [[cleanPath vp'] cerr].
    destruct cerr; [inversion Hw; subst; split; assumption|].
    destruct (if contains_slash vp' then _ else None);
      [inversion Hw; subst; split; assumption|].
    destruct (WriteFile_error cleanPath e);
      [inversion Hw; subst; split; assumption|].
    exact (loadScriptAndRefresh_keeps_ok _ _ _ _ _ Hw (conj Hcur Hok)).
  - unfold LiveRemoveFile.
    destruct (maybePublishUpdate_host "removed" path (call Refresh (runCleanups path e)))
      as (Hhs & _).
    destruct (host_state_inv _ _ Hhs) as (S2 & _ & _ & _ & E2).
    cbn [sources call set_calls] in S2.
    split.
    { apply entry_of_none. rewrite E2. apply entry_of_none.
      cbn [currentSource call set_calls]. rewrite runCleanups_currentSource.
      exact Hcur. }
    destruct (runCleanups_host path e) as (_ & _ & Hs & _).
    intros k src Hk. rewrite S2 in Hk.
    exact (sources_ok_after _ e _ Hs Hok k src Hk).
Qed.

(** X21. Between the operations of the engine no script is being
    loaded and every entry of the source map stands under its own
    virtual path: whatever bridge calls, module look-ups, loads, writes
    and removals have happened since a state where this held, it holds
    again. So the list that [ListSourceFiles] gives is in ascending
    order of the virtual paths of its entries. *)
Theorem source_map_is_keyed_by_virtual_path (e e' : ESEngine) :
  reaches e e' ->
  currentSource e = None -> sources_ok e ->
  currentSource e' = None
  /\ sources_ok e'
  /\ StronglySorted string_le (map VirtualPath (ListSourceFiles e')).
Proof.
  intros Hr Hcur Hok.
  assert (H : currentSource e' = None /\ sources_ok e').
  { induction Hr as [e|e e1 e2 Hstep _ IH]; [split; assumption|].
    destruct (engine_step_keeps_ok _ _ Hstep (conj Hcur Hok)) as [Hcur1 Hok1].
    exact (IH Hcur1 Hok1). }
  destruct H as [Hcur' Hok']. split; [exact Hcur'|]. split; [exact Hok'|].
  unfold ListSourceFiles, sort_Strings.
  set (paths := merge_sort string_le (map fst (map_to_list (sources e')))).
  assert (Hsorted : StronglySorted string_le paths)
    by (apply StronglySorted_merge_sort; apply _).
  assert (Hmap : forall l, map VirtualPath (omap (fun p => sources e' !! p) l)
                           = omap (fun p => match sources e' !! p with
                                            | Some _ => Some p
                                            | None => None
                                            end) l).
  { induction l as [|p l IH]; [reflexivity|]. cbn [omap list_omap].
    destruct (sources e' !! p) as [src|] eqn:Hp; [|exact IH].
    cbn [map]. rewrite IH, (Hok' p src Hp). reflexivity. }
  rewrite Hmap. clear Hmap.
  induction Hsorted as [|p l Hs IH Hall]; [constructor|].
  cbn [omap list_omap].
  assert (Hsub : forall q, In q (omap (fun p => match sources e' !! p with
                                                | Some _ => Some p
                                                | None => None
                                                end) l) -> In q l).
  { clear. induction l as [|x l IH]; intros q; cbn [omap list_omap]; [intros []|].
    destruct (sources e' !! x); cbn [In]; [intros [->|H]|intros H]; auto. }
  destruct (sources e' !! p); [|exact IH].
  constructor; [exact IH|].
  apply List.Forall_forall. intros q Hq.
  rewrite List.Forall_forall in Hall. apply Hall, Hsub, Hq.
Qed.

(** ** The storage objects of the modules, over the life of the engine *)

Lemma mo_same (e e' : ESEngine) :
  esModules e' = esModules e -> (nextRef e <= nextRef e')%nat ->
  modules_ok e -> modules_ok e'.
Proof.
  intros Hm Hn [Hb Hi]. split.
  - intros path s Hs. rewrite Hm in Hs. specialize (Hb path s Hs). lia.
  - intros p1 p2 s H1 H2. rewrite Hm in H1, H2. exact (Hi p1 p2 s H1 H2).
Qed.

Lemma mo_bridge_state (e e' : ESEngine) :
  bridge_state e' = bridge_state e -> modules_ok e -> modules_ok e'.
Proof.
  unfold bridge_state. intros H.
  pose proof (f_equal (fun x => snd (fst x)) H) as Hm.
  pose proof (f_equal snd H) as Hn. cbn [fst snd] in Hm, Hn.
  apply mo_same; [exact Hm|rewrite Hn; apply Nat.le_refl].
Qed.

Lemma mo_attach_module (path : string) (module : nat) (e : ESEngine) :
  modules_ok e -> modules_ok (attach_module path module e).
Proof.
  intros [Hb Hi]. unfold attach_module.
  set (e1 := put_prop module MODULE_FILENAME_PROP (HString path) e).
  assert (Hm1 : esModules e1 = esModules e) by reflexivity.
  assert (Hn1 : nextRef e1 = nextRef e) by reflexivity.
  destruct (esModules e1 !! path) as [s|] eqn:Hs.
  - rewrite Hs. apply (mo_same e); [reflexivity|apply Nat.le_refl|split; assumption].
  - cbn [esModules set_esModules]. rewrite lookup_insert_eq.
    rewrite Hm1 in Hs. rewrite Hm1, Hn1. split.
    + intros p s. unfold put_prop.
      cbn [esModules nextRef set_esModules set_objects set_nextRef].
      destruct (decide (p = path)) as [->|Hne].
      * rewrite lookup_insert_eq. intros H. inversion H. lia.
      * rewrite lookup_insert_ne by congruence. intros H.
        specialize (Hb p s H). lia.
    + intros p1 p2 s. unfold put_prop.
      cbn [esModules nextRef set_esModules set_objects set_nextRef].
      destruct (decide (p1 = path)) as [->|Hne1];
        destruct (decide (p2 = path)) as [->|Hne2]; try reflexivity.
      * rewrite lookup_insert_eq, lookup_insert_ne by congruence.
        intros H1 H2. inversion H1; subst s. specialize (Hb p2 _ H2). lia.
      * rewrite lookup_insert_eq, lookup_insert_ne by congruence.
        intros H1 H2. inversion H2; subst s. specialize (Hb p1 _ H1). lia.
      * rewrite !lookup_insert_ne by congruence. apply Hi.
Qed.

Lemma mo_ModSearch (id : JSValue) (module : nat) (e : ESEngine) :
  modules_ok e -> modules_ok (snd (ModSearch id module e)).
Proof.
  intros Hok. unfold ModSearch.
  pose proof (modSearchDirs_state (modulesDirs e) (GetString id) module e []) as Hs.
  destruct (modSearchDirs _ _ _ _ _) as [[[[p src]|] probed] e']; cbn [snd] in *.
  - destruct Hs as [->|[path ->]]; [exact Hok|exact (mo_attach_module _ _ _ Hok)].
  - apply (mo_same e'); [reflexivity|apply Nat.le_refl|].
    destruct Hs as [->|[path ->]]; [exact Hok|exact (mo_attach_module _ _ _ Hok)].
Qed.

Lemma mo_run_script (s : Script) :
  forall ctx filename e outcome e',
    run_script ctx filename s e = Some (outcome, e') ->
    modules_ok e -> modules_ok e'.
Proof.
  induction s as [outcome0|f this args tb k IH|id k IH];
    intros ctx filename e outcome e' Hrun Hok; cbn [run_script] in Hrun.
  - inversion Hrun; subst. exact Hok.
  - destruct (bridge f _ e) as [[r e1]|] eqn:Hb; [|discriminate].
    apply (IH r ctx filename e1 outcome e' Hrun).
    exact (mo_bridge_state _ _ (bs_bridge _ _ _ _ _ Hb) Hok).
  - set (e1 := set_objects _ (set_nextRef _ e)) in Hrun.
    assert (Hok1 : modules_ok e1).
    { apply (mo_same e); [reflexivity| |exact Hok].
      subst e1. cbn [nextRef set_objects set_nextRef]. lia. }
    pose proof (mo_ModSearch id (nextRef e) e1 Hok1) as Hm.
    destruct (ModSearch id (nextRef e) e1) as [[r probed] e2]. cbn [snd] in Hm.
    exact (IH r ctx filename e2 outcome e' Hrun Hm).
Qed.

Lemma runCleanups_modules (path : string) (e : ESEngine) :
  esModules (runCleanups path e) = esModules e
  /\ nextRef (runCleanups path e) = nextRef e.
Proof.
  unfold runCleanups, cleanup_RunCleanups.
  set (e1 := match localCtxs e !! path with Some _ => _ | None => e end).
  assert (H1 : esModules e1 = esModules e /\ nextRef e1 = nextRef e).
  { subst e1. destruct (localCtxs e !! path) as [ctx|]; [|split; reflexivity].
    destruct (runTimerCleanups_calls ctx e) as (ids & -> & _).
    unfold removeThreadFromStorage. cbn [esThreads set_calls].
    destruct (esThreads e !! path); split; reflexivity. }
  destruct H1 as [Hm Hn]. cbn [cleanups call set_calls].
  destruct (cleanups e1 !! path) as [cs|].
  - rewrite run_cleanups_fold.
    cbn [esModules nextRef set_sources set_cleanups set_calls]. split; assumption.
  - cbn [esModules nextRef set_calls]. split; assumption.
Qed.

Lemma mo_loadScript (path : string) (loadIfUnchanged loaded : bool)
    (e e' : ESEngine) (err : option error) :
  loadScript path loadIfUnchanged e = Some (loaded, err, e') ->
  modules_ok e -> modules_ok e'.
Proof.
  intros H Hok. destruct loaded;
    [|rewrite (loadScript_not_loaded _ _ _ _ _ H); exact Hok].
  unfold loadScript in H.
  destruct (checkSourcePath path e) as [[[p vp] under] cerr].
  destruct cerr; [inversion H|].
  destruct (currentSource e) eqn:Hcur; [discriminate|].
  unfold Track, ReadFile in H.
  destruct (fs e !! p) as [c|] eqn:Hc; [|inversion H].
  set (et := set_tracker (<[ vp := content_hash c ]> (tracker e)) e) in *.
  destruct (negb loadIfUnchanged && _); [inversion H|].
  set (e2 := runCleanups p et) in *.
  destruct (runCleanups_modules p et) as [Hm2 Hn2]. fold e2 in Hm2, Hn2.
  set (e6 := call (PushCleanupScope p) _) in H.
  set (e7 := if under then _ else e6) in H.
  set (e8 := if esInitEnv_fails then _ else e7) in H.
  assert (H8 : modules_ok e8).
  { apply (mo_same e); [| |exact Hok].
    - subst e8 e7. destruct esInitEnv_fails, under; subst e6; exact Hm2.
    - subst e8 e7.
      assert (Hn : nextRef e = nextRef e2) by (symmetry; exact Hn2).
      destruct esInitEnv_fails, under; subst e6;
        unfold cleanup_AddCleanup;
        cbn [nextRef call set_calls set_cleanups set_currentSource set_esThreads
             set_localCtxs set_nextRef]; rewrite Hn; lia. }
  clearbody e8. clear e6 e7.
  unfold ESContext_LoadScenario in H.
  set (e8' := call (LoadScenario _ p) e8) in H.
  assert (H8' : modules_ok e8')
    by (apply (mo_same e8); [reflexivity|apply Nat.le_refl|exact H8]).
  clearbody e8'.
  destruct (match ReadFile p e8' with Some _ => _ | None => _ end)
    as [[o e9]|] eqn:Hrun; [|discriminate].
  assert (H9 : modules_ok e9).
  { destruct (ReadFile p e8') as [text|].
    - exact (mo_run_script _ _ _ _ _ _ Hrun H8').
    - inversion Hrun; subst. exact H8'. }
  assert (H10 : esModules (snd (trackESError p o e9)) = esModules e9
                /\ nextRef (snd (trackESError p o e9)) = nextRef e9).
  { unfold trackESError. destruct o as [[m|esError|se]|]; try (split; reflexivity).
    cbn [snd]. destruct (currentSource e9); split; reflexivity. }
  destruct (trackESError p o e9) as [err' e10]. cbn [snd] in H10.
  destruct H10 as [Hm10 Hn10]. inversion H; subst; clear H.
  apply (mo_same e9); [| |exact H9].
  - destruct under; [|exact Hm10].
    destruct (currentSource e10); exact Hm10.
  - destruct under;
      [destruct (currentSource e10)|];
      cbn [nextRef call set_calls set_currentSource set_sources];
      rewrite Hn10; apply Nat.le_refl.
Qed.

Lemma mo_loadScriptAndRefresh (path : string) (loadIfUnchanged : bool)
    (e e' : ESEngine) (err : option error) :
  loadScriptAndRefresh path loadIfUnchanged e = Some (err, e') ->
  modules_ok e -> modules_ok e'.
Proof.
  unfold loadScriptAndRefresh. intros H Hok.
  destruct (loadScript path loadIfUnchanged e) as [[[loaded err1] e1]|] eqn:Hl;
    [|discriminate].
  pose proof (mo_loadScript _ _ _ _ _ _ Hl Hok) as H1.
  destruct loaded; inversion H; subst; clear H; [|exact H1].
  apply (mo_same e1); [| |exact H1];
    unfold maybePublishUpdate;
    destruct (checkSourcePath path (call Refresh e1)) as [[[cp vp] under] cerr];
    destruct cerr, under; try reflexivity; apply Nat.le_refl.
Qed.

Lemma engine_step_keeps_modules (e e' : ESEngine) :
  engine_step e e' -> modules_ok e -> modules_ok e'.
Proof.
  intros Hstep Hok.
  destruct Hstep as [f ctx e r e' Hb|id module e|ctx timer e
                    |path liu e err e' Hl|vp content e err e' Hw|path e].
  - exact (mo_bridge_state _ _ (bs_bridge _ _ _ _ _ Hb) Hok).
  - exact (mo_ModSearch id module e Hok).
  - unfold timerRemoved. destruct (ctxTimers e !! ctx); exact Hok.
  - exact (mo_loadScriptAndRefresh _ _ _ _ _ Hl Hok).
  - unfold LiveWriteScript in Hw.
    destruct (checkVirtualPath vp e) as [[cleanPath vp'] cerr].
    destruct cerr; [inversion Hw; subst; exact Hok|].
    destruct (if contains_slash vp' then _ else None);
      [inversion Hw; subst; exact Hok|].
    destruct (WriteFile_error cleanPath e); [inversion Hw; subst; exact Hok|].
    exact (mo_loadScriptAndRefresh _ _ _ _ _ Hw Hok).
  - unfold LiveRemoveFile.
    destruct (runCleanups_modules path e) as [Hm Hn].
    apply (mo_same e); [| |exact Hok];
      unfold maybePublishUpdate;
      destruct (checkSourcePath path (call Refresh (runCleanups path e)))
        as [[[cp vp] under] cerr];
      destruct cerr, under;
      cbn [esModules nextRef call set_calls]; rewrite ?Hm, ?Hn;
      try reflexivity; apply Nat.le_refl.
Qed.

(** X22. No two module paths ever share a storage object: the storage
    objects kept in [_esModules] are references that the engine has
    handed out before and that differ from path to path. This holds in
    an engine without module storages, and whatever bridge calls,
    module look-ups, loads, writes and removals follow, it holds
    again. *)
Theorem module_storages_are_never_shared (e e' : ESEngine) :
  reaches e e' ->
  (esModules e = ∅ -> modules_ok e)
  /\ (modules_ok e ->
      (forall path s, esModules e' !! path = Some s -> (s < nextRef e')%nat)
      /\ (forall path1 path2 s,
             esModules e' !! path1 = Some s -> esModules e' !! path2 = Some s ->
             path1 = path2)).
Proof.
  intros Hr. split.
  - intros Hempty. split.
    + intros path s Hs. rewrite Hempty, lookup_empty in Hs. discriminate.
    + intros p1 p2 s Hs. rewrite Hempty, lookup_empty in Hs. discriminate.
  - intros Hok.
    induction Hr as [e|e e1 e2 Hstep _ IH]; [exact Hok|].
    exact (IH (engine_step_keeps_modules _ _ Hstep Hok)).
Qed.

(** ** The calls are never taken back *)

Lemma cg_refl (e : ESEngine) : calls_grow e e.
Proof. exists []. rewrite app_nil_r. reflexivity. Qed.

Lemma cg_trans (e1 e2 e3 : ESEngine) :
  calls_grow e1 e2 -> calls_grow e2 e3 -> calls_grow e1 e3.
Proof.
  intros [x1 H1] [x2 H2]. exists (x1 ++ x2)%list.
  rewrite H2, H1, <- app_assoc. reflexivity.
Qed.

Lemma cg_same (e0 e e' : ESEngine) :
  calls e' = calls e -> calls_grow e0 e -> calls_grow e0 e'.
Proof. intros Hc [x H]. exists x. rewrite Hc. exact H. Qed.

Lemma cg_call (c : Call) (e0 e : ESEngine) :
  calls_grow e0 e -> calls_grow e0 (call c e).
Proof.
  intros H. apply (cg_trans e0 e); [exact H|]. exists [c]. reflexivity.
Qed.

(** A state built from [e] by calls and field updates. *)
Ltac cg_go :=
  repeat first
    [ assumption
    | apply cg_refl
    | apply cg_call
    | refine (cg_same _ _ _ eq_refl _) ].

Lemma maybeExpandLocalObjectId_calls ctx name e :
  calls (snd (maybeExpandLocalObjectId ctx name e)) = calls e.
Proof.
  unfold maybeExpandLocalObjectId.
  destruct (_ && _); [|reflexivity].
  destruct (GetPropString _ _); try reflexivity.
  destruct (localObjectId _ _ _). reflexivity.
Qed.

Lemma cg_esWbStartTimer ctx e : calls_grow e (snd (esWbStartTimer ctx e)).
Proof.
  unfold esWbStartTimer, RuleEngine_StartTimer, handleTimerCleanup.
  destruct (_ || _); cbn [snd]; [apply cg_call, cg_refl|].
  destruct (IsString _).
  - destruct (String.eqb _ ""); cbn [snd]; [apply cg_call, cg_refl|].
    apply cg_call. refine (cg_same _ (call _ (call _ e)) _ eq_refl _).
    apply cg_call, cg_call, cg_refl.
  - destruct (negb _); cbn [snd]; [apply cg_call, cg_refl|].
    apply cg_call. refine (cg_same _ (call _ e) _ eq_refl _).
    apply cg_call, cg_refl.
Qed.

Lemma cg_esWbStopTimer ctx e : calls_grow e (snd (esWbStopTimer ctx e)).
Proof.
  unfold esWbStopTimer.
  destruct (negb _); cbn [snd]; [apply cg_refl|].
  destruct (IsNumber _).
  - destruct (_ =? 0); cbn [snd]; apply cg_call, cg_refl.
  - destruct (IsString _); cbn [snd]; [apply cg_call|]; apply cg_refl.
Qed.

Lemma buildRule_calls name def e : calls (snd (buildRule name def e)) = calls e.
Proof.
  unfold buildRule. destruct (negb _); [reflexivity|].
  destruct (buildRuleCond def); reflexivity.
Qed.

Lemma cg_esWbDefineRule ctx e : calls_grow e (snd (esWbDefineRule ctx e)).
Proof.
  unfold esWbDefineRule, RuleEngine_DefineRule.
  match goal with
  | |- context [match ?x with Some _ => _ | None => _ end] => destruct x as [[[sn n] d]|]
  end; cbn [snd]; [|apply cg_call, cg_refl].
  pose proof (buildRule_calls n d e) as Hb.
  destruct (buildRule n d e) as [[rule|err] e1]; cbn [snd] in *.
  - apply (cg_same e (call (DefineRule rule) e1));
      [apply maybeRegisterSourceItem_calls|].
    apply cg_call. exact (cg_same e e e1 Hb (cg_refl e)).
  - apply cg_call. exact (cg_same e e e1 Hb (cg_refl e)).
Qed.

Lemma cg_esVirtualDeviceId ctx e : calls_grow e (snd (esVirtualDeviceId ctx e)).
Proof.
  unfold esVirtualDeviceId.
  destruct (_ || _); cbn [snd]; [apply cg_refl|].
  pose proof (maybeExpandLocalObjectId_calls ctx (GetString (stack_at ctx (-1))) e) as Hm.
  destruct (maybeExpandLocalObjectId _ _ e) as [name e1]. cbn [snd] in *.
  exact (cg_same e e e1 Hm (cg_refl e)).
Qed.

Lemma cg_esDefineVirtualDevice ctx e r e' :
  esDefineVirtualDevice ctx e = Some (r, e') -> calls_grow e e'.
Proof.
  unfold esDefineVirtualDevice. intros H.
  destruct (_ || _); [inversion H; apply cg_refl|].
  destruct (stack_at ctx (-1)); try discriminate H.
  pose proof (maybeExpandLocalObjectId_calls ctx (GetString (stack_at ctx (-2))) e) as Hm.
  destruct (maybeExpandLocalObjectId _ _ e) as [name e1]. cbn [snd] in Hm.
  assert (H1 : calls_grow e e1) by exact (cg_same e e e1 Hm (cg_refl e)).
  destruct (DefineVirtualDevice_error _ _ _); inversion H; subst; clear H.
  - apply cg_call, cg_call. exact H1.
  - eapply cg_same; [apply maybeRegisterSourceItem_calls|].
    apply cg_call. exact H1.
Qed.

Lemma cg_esPersistentName ctx e : calls_grow e (snd (esPersistentName ctx e)).
Proof.
  unfold esPersistentName.
  destruct (persistentDB e); cbn [snd]; [|apply cg_call, cg_refl].
  repeat match goal with
         | |- context [if ?c then _ else _] =>
             destruct c; cbn [snd]; [apply cg_call, cg_refl|]
         end.
  pose proof (maybeExpandLocalObjectId_calls ctx (GetString (stack_at ctx 0)) e) as Hm.
  destruct (maybeExpandLocalObjectId _ _ e) as [name e1]. cbn [snd] in *.
  apply cg_call. exact (cg_same e e e1 Hm (cg_refl e)).
Qed.

Lemma cg_esPersistentSet ctx e : calls_grow e (snd (esPersistentSet ctx e)).
Proof.
  unfold esPersistentSet.
  destruct (persistentDB e); cbn [snd]; [|apply cg_call, cg_refl].
  repeat match goal with
         | |- context [if ?c then _ else _] =>
             destruct c; cbn [snd]; [apply cg_call, cg_refl|]
         end.
  destruct (bolt.Update _ _). cbn [snd].
  exact (cg_same e e _ eq_refl (cg_refl e)).
Qed.

Lemma cg_esPersistentGet ctx e : calls_grow e (snd (esPersistentGet ctx e)).
Proof.
  unfold esPersistentGet.
  destruct (persistentDB e); cbn [snd]; [|apply cg_call, cg_refl].
  repeat match goal with
         | |- context [if ?c then _ else _] =>
             destruct c; cbn [snd]; [apply cg_call, cg_refl|]
         end.
  match goal with
  | |- context [match ?x with Some _ => _ | None => _ end] => destruct x
  end; cbn [snd]; [|apply cg_refl].
  destruct (JsonDecode _); cbn [snd]; apply cg_refl.
Qed.

Lemma cg_bridge f ctx e r e' : bridge f ctx e = Some (r, e') -> calls_grow e e'.
Proof.
  destruct f; cbn [bridge]; intros H;
    try (inversion H as [H']; clear H;
         match type of H' with
         | ?t = _ => replace e' with (snd t) by (rewrite H'; reflexivity)
         end).
  - apply cg_esWbDefineRule.
  - apply cg_esWbStartTimer.
  - apply cg_esWbStopTimer.
  - exact (cg_esDefineVirtualDevice ctx e r e' H).
  - apply cg_esVirtualDeviceId.
  - apply cg_esPersistentName.
  - apply cg_esPersistentSet.
  - apply cg_esPersistentGet.
Qed.

Lemma attach_module_calls path module e :
  calls (attach_module path module e) = calls e.
Proof.
  unfold attach_module.
  set (e1 := put_prop module MODULE_FILENAME_PROP (HString path) e).
  destruct (esModules e1 !! path) as [s|] eqn:Hs.
  - rewrite Hs. reflexivity.
  - cbn [esModules set_esModules]. rewrite lookup_insert_eq. reflexivity.
Qed.

Lemma cg_ModSearch id module e : calls_grow e (snd (ModSearch id module e)).
Proof.
  unfold ModSearch.
  pose proof (modSearchDirs_state (modulesDirs e) (GetString id) module e []) as Hs.
  destruct (modSearchDirs _ _ _ _ _) as [[[[p src]|] probed] e']; cbn [snd] in *.
  - destruct Hs as [->|[path ->]]; [apply cg_refl|].
    exact (cg_same e e _ (attach_module_calls _ _ _) (cg_refl e)).
  - apply cg_call. destruct Hs as [->|[path ->]]; [apply cg_refl|].
    exact (cg_same e e _ (attach_module_calls _ _ _) (cg_refl e)).
Qed.

Lemma cg_run_script (s : Script) :
  forall ctx filename e outcome e',
    run_script ctx filename s e = Some (outcome, e') -> calls_grow e e'.
Proof.
  induction s as [outcome0|f this args tb k IH|id k IH];
    intros ctx filename e outcome e' Hrun; cbn [run_script] in Hrun.
  - inversion Hrun; subst. apply cg_refl.
  - destruct (bridge f _ e) as [[r e1]|] eqn:Hb; [|discriminate].
    apply (cg_trans e e1 e'); [exact (cg_bridge _ _ _ _ _ Hb)|].
    exact (IH r ctx filename e1 outcome e' Hrun).
  - set (e1 := set_objects _ (set_nextRef _ e)) in Hrun.
    pose proof (cg_ModSearch id (nextRef e) e1) as Hm.
    destruct (ModSearch id (nextRef e) e1) as [[r probed] e2]. cbn [snd] in Hm.
    apply (cg_trans e e2 e'); [|exact (IH r ctx filename e2 outcome e' Hrun)].
    exact (cg_trans e e1 e2 (cg_same e e e1 eq_refl (cg_refl e)) Hm).
Qed.

Lemma trackESError_calls path o e : calls (snd (trackESError path o e)) = calls e.
Proof.
  unfold trackESError. destruct o as [[m|esError|se]|]; try reflexivity.
  cbn [snd]. destruct (currentSource e); reflexivity.
Qed.

(** The calls of a load that loads: those of the cleanup of the previous
    load come first. *)
Lemma loadScript_calls (path : string) (loadIfUnchanged : bool) (e e' : ESEngine)
    (err : option error) :
  loadScript path loadIfUnchanged e = Some (true, err, e') ->
  exists p vp under c,
    checkSourcePath path e = (p, vp, under, None)
    /\ fs e !! p = Some c
    /\ calls_grow (runCleanups p (set_tracker (<[ vp := content_hash c ]> (tracker e)) e))
         e'.
Proof.
  unfold loadScript. intros H.
  destruct (checkSourcePath path e) as [[[p vp] under] cerr].
  destruct cerr; [inversion H|].
  destruct (currentSource e) eqn:Hcur; [discriminate|].
  unfold Track, ReadFile in H.
  destruct (fs e !! p) as [c|] eqn:Hc; [|inversion H].
  exists p, vp, under, c. split; [reflexivity|]. split; [exact Hc|].
  set (et := set_tracker (<[ vp := content_hash c ]> (tracker e)) e) in *.
  destruct (negb loadIfUnchanged && _); [inversion H|].
  set (e2 := runCleanups p et) in *.
  set (e6 := call (PushCleanupScope p) _) in H.
  set (e7 := if under then _ else e6) in H.
  set (e8 := if esInitEnv_fails then _ else e7) in H.
  assert (H8 : calls_grow e2 e8).
  { subst e8 e7. destruct esInitEnv_fails, under; subst e6;
      unfold calls_grow, cleanup_AddCleanup, call;
      cbn [calls set_calls set_cleanups set_currentSource set_esThreads
           set_localCtxs set_nextRef];
      rewrite <- ?app_assoc; eexists; reflexivity. }
  clearbody e8. clear e6 e7.
  unfold ESContext_LoadScenario in H.
  set (e8' := call (LoadScenario _ p) e8) in H.
  assert (H8' : calls_grow e2 e8') by (apply cg_call; exact H8).
  clearbody e8'.
  destruct (match ReadFile p e8' with Some _ => _ | None => _ end)
    as [[o e9]|] eqn:Hrun; [|discriminate].
  assert (H9 : calls_grow e2 e9).
  { destruct (ReadFile p e8') as [text|].
    - exact (cg_trans _ _ _ H8' (cg_run_script _ _ _ _ _ _ Hrun)).
    - inversion Hrun; subst. exact H8'. }
  pose proof (trackESError_calls p o e9) as H10.
  destruct (trackESError p o e9) as [err' e10]. cbn [snd] in H10.
  inversion H; subst; clear H.
  apply cg_call. destruct under; [|exact (cg_same _ _ _ H10 H9)].
  destruct (currentSource e10); exact (cg_same _ _ _ H10 H9).
Qed.

(** X23. A script that does not lie under the source root is evaluated
    but not listed: the load adds no entry to the source map (entries
    can only go, with the cleanup of a previous load of the path), the
    cleanup scope of the path is left empty, and the script gets a
    fresh context and thread under its physical path as any other. *)
Theorem script_outside_the_root_is_not_listed (path : string)
    (loadIfUnchanged : bool) (e e' : ESEngine) (err : option error) (p vp : string) :
  loadScript path loadIfUnchanged e = Some (true, err, e') ->
  checkSourcePath path e = (p, vp, false, None) ->
  (forall k src, sources e' !! k = Some src -> sources e !! k = Some src)
  /\ cleanups e' !! p = None
  /\ currentSource e' = None
  /\ localCtxs e' !! p = Some (nextRef e)
  /\ esThreads e' !! p = Some (nextRef e).
Proof.
  intros Hload Hcheck.
  destruct (loadScript_host _ _ _ _ _ Hload)
    as (p' & vp' & under & c & Hcheck' & _ & _ & HL & HT & HC & Hunder).
  rewrite Hcheck in Hcheck'. inversion Hcheck'; subst p' vp' under.
  destruct Hunder as [HS HCl].
  destruct (runCleanups_host p (set_tracker (<[ vp := content_hash c ]> (tracker e)) e))
    as (_ & Hc2 & Hs2 & _).
  destruct (runCleanups_modules p (set_tracker (<[ vp := content_hash c ]> (tracker e)) e))
    as [_ Hn2].
  cbn [sources cleanups nextRef set_tracker] in Hc2, Hs2, Hn2.
  split; [|split; [|split; [exact HC|split]]].
  - intros k src Hk. rewrite HS, Hs2 in Hk. exact (sources_after_sub _ _ _ _ Hk).
  - rewrite HCl, Hc2. apply lookup_delete_eq.
  - rewrite HL, Hn2. apply lookup_insert_eq.
  - rewrite HT, Hn2. apply lookup_insert_eq.
Qed.

(** X24. Loading a script again cleans up after its previous load
    first: the registry is asked to stop every timer that is active in
    the timer set of the context the script had, the cleanup scope of
    the path is run, and the script gets a fresh context and thread in
    place of the old ones. *)
Theorem reload_cleans_up_the_previous_load (path : string) (loadIfUnchanged : bool)
    (e e' : ESEngine) (err : option error) (p vp : string) (under : bool)
    (ctx t : nat) :
  loadScript path loadIfUnchanged e = Some (true, err, e') ->
  checkSourcePath path e = (p, vp, under, None) ->
  localCtxs e !! p = Some ctx -> esThreads e !! p = Some t ->
  (forall s id,
      ctxTimers e !! ctx = Some s -> s !! id = Some true ->
      In (StopTimerByIndex id) (new_calls e e'))
  /\ In (RunCleanups p) (new_calls e e')
  /\ localCtxs e' !! p = Some (nextRef e)
  /\ esThreads e' !! p = Some (nextRef e).
Proof.
  intros Hload Hcheck Hctx Hthread.
  destruct (loadScript_calls _ _ _ _ _ Hload)
    as (p' & vp' & under' & c & Hcheck' & _ & extra & Hcalls).
  rewrite Hcheck in Hcheck'. inversion Hcheck'; subst p' vp' under'.
  set (et := set_tracker (<[ vp := content_hash c ]> (tracker e)) e) in *.
  destruct (runCleanups_calls p ctx t et Hctx Hthread) as (ids & Hrc & Hin).
  assert (Hnew : new_calls e e'
                 = (map StopTimerByIndex ids ++ [RunCleanups p] ++ extra)%list).
  { unfold new_calls. rewrite Hcalls, Hrc. cbn [calls set_tracker].
    rewrite <- !app_assoc. apply drop_app_length. }
  rewrite Hnew.
  destruct (loadScript_host _ _ _ _ _ Hload)
    as (p' & vp' & under' & c' & Hcheck'' & _ & Hc' & HL & HT & _).
  rewrite Hcheck in Hcheck''. inversion Hcheck''; subst p' vp' under'.
  destruct (runCleanups_modules p
              (set_tracker (<[ vp := content_hash c' ]> (tracker e)) e)) as [_ Hn2].
  cbn [nextRef set_tracker] in Hn2.
  split; [|split; [|split]].
  - intros s id Hs Hid. apply in_or_app. left. apply in_map. apply Hin.
    exists s. split; assumption.
  - apply in_or_app. right. left. reflexivity.
  - rewrite HL, Hn2. apply lookup_insert_eq.
  - rewrite HT, Hn2. apply lookup_insert_eq.
Qed.

End Engine.

(** * The engine on the concrete host *)

(** The digests of the test suite of RFC 1321. *)
Example md5_of_empty :
  md5.Sum (bytes_of_string "")
  = [212; 29; 140; 217; 143; 0; 178; 4; 233; 128; 9; 152; 236; 248; 66; 126].
Proof. vm_compute. reflexivity. Qed.

Example md5_of_abc :
  md5.Sum (bytes_of_string "abc")
  = [144; 1; 80; 152; 60; 210; 79; 176; 214; 150; 63; 125; 40; 225; 127; 114].
Proof. vm_compute. reflexivity. Qed.

Example md5_of_message_digest :
  md5.Sum (bytes_of_string "message digest")
  = [249; 107; 105; 125; 124; 183; 147; 141; 82; 90; 47; 49; 170; 241; 97; 208].
Proof. vm_compute. reflexivity. Qed.

Example md5_of_alphabet :
  md5.Sum (bytes_of_string "abcdefghijklmnopqrstuvwxyz")
  = [195; 252; 211; 215; 97; 146; 228; 0; 125; 251; 73; 108; 202; 103; 225; 59].
Proof. vm_compute. reflexivity. Qed.

Example md5_of_two_blocks :
  md5.Sum (bytes_of_string
    "12345678901234567890123456789012345678901234567890123456789012345678901234567890")
  = [87; 237; 244; 162; 43; 227; 201; 85; 172; 73; 218; 46; 33; 7; 182; 122].
Proof. vm_compute. reflexivity. Qed.

(** RFC 4648 with the URL-safe alphabet, unpadded. *)
Example base64_of_foobar :
  base64.RawURLEncoding_EncodeToString (bytes_of_string "foobar") = "Zm9vYmFy"
  /\ base64.RawURLEncoding_EncodeToString (bytes_of_string "fooba") = "Zm9vYmE"
  /\ base64.RawURLEncoding_EncodeToString [251; 255; 190; 62; 63] = "-_--Pj8".
Proof. vm_compute. repeat split. Qed.

Example float64_constants :
  float64_of_Z 1 = Example.one /\ float64_of_Z 5 = Example.five
  /\ float64_mul Example.half (float64_of_Z 2) = Example.one.
Proof. vm_compute. repeat split. Qed.

(** A cron rule keeps the text of its [_cron] property: the string
    itself, or what the interpreter makes of another value. *)
Example cron_rule_of_number :
  buildRuleCond Example.SafeToString_coerce
    (JSObject [("_cron", JSNumber Example.five); ("then", JSFunction 1)])
  = inl (NewCronRuleCondition "5")
  /\ buildRuleCond Example.SafeToString_coerce
       (JSObject [("_cron", JSString "@hourly"); ("then", JSFunction 1)])
     = inl (NewCronRuleCondition "@hourly").
Proof. vm_compute. split; reflexivity. Qed.

(** The bridge functions on the concrete host. *)
Abbreviation ex_esWbStartTimer :=
  (esWbStartTimer Example.unrepresentable Example.NO_TIMER_NAME).
Abbreviation ex_esWbStopTimer :=
  (esWbStopTimer Example.unrepresentable Example.TimerId_min Example.TimerId_max).
Abbreviation ex_TimerId :=
  (TimerId_of_float64 Example.unrepresentable Example.TimerId_min Example.TimerId_max).
Abbreviation ex_buildRule := (buildRule Example.SafeToString_coerce).
Abbreviation ex_esWbDefineRule := (esWbDefineRule Example.SafeToString_coerce).
Abbreviation ex_esPersistentSet := (esPersistentSet Example.JsonEncode).
Abbreviation ex_esPersistentGet := (esPersistentGet Example.JsonDecode).
Abbreviation ex_reaches :=
  (reaches Example.unrepresentable Example.TimerId_min Example.TimerId_max
     Example.NO_TIMER_NAME Example.SafeToString_coerce Example.DefineVirtualDevice_error Example.JsonEncode
     Example.JsonDecode Example.filepath_Abs Example.filepath_Clean
     Example.filepath_Rel Example.filepath_Join Example.filepath_Dir
     Example.IsSubpath Example.MkdirAll_error Example.WriteFile_error
     Example.content_hash Example.interpret Example.esInitEnv_fails).
Abbreviation ex_LiveWriteScript :=
  (LiveWriteScript Example.unrepresentable Example.TimerId_min Example.TimerId_max
     Example.NO_TIMER_NAME Example.SafeToString_coerce Example.DefineVirtualDevice_error Example.JsonEncode
     Example.JsonDecode Example.filepath_Abs Example.filepath_Clean
     Example.filepath_Rel Example.filepath_Join Example.filepath_Dir
     Example.IsSubpath Example.MkdirAll_error Example.WriteFile_error
     Example.content_hash Example.interpret Example.esInitEnv_fails).
Abbreviation ex_checkSourcePath :=
  (checkSourcePath Example.filepath_Abs Example.filepath_Clean
     Example.filepath_Rel Example.IsSubpath).
Abbreviation ex_LoadFile :=
  (LoadFile Example.unrepresentable Example.TimerId_min Example.TimerId_max
     Example.NO_TIMER_NAME Example.SafeToString_coerce
     Example.DefineVirtualDevice_error Example.JsonEncode
     Example.JsonDecode Example.filepath_Abs Example.filepath_Clean
     Example.filepath_Rel Example.IsSubpath Example.content_hash
     Example.interpret Example.esInitEnv_fails).
Abbreviation ex_LiveLoadFile :=
  (LiveLoadFile Example.unrepresentable Example.TimerId_min Example.TimerId_max
     Example.NO_TIMER_NAME Example.SafeToString_coerce Example.DefineVirtualDevice_error Example.JsonEncode
     Example.JsonDecode Example.filepath_Abs Example.filepath_Clean
     Example.filepath_Rel Example.IsSubpath Example.content_hash
     Example.interpret Example.esInitEnv_fails).

(** C1, on the module file of the concrete host. *)
Lemma local_object_id_witness :
  cache_ok (filenameMd5s Example.engine0)
  /\ fst (maybeExpandLocalObjectId
            (Example.ctx_call Example.module_object []) "dev" Example.engine0)
     = "_iBaGSAdev"
  /\ fst (maybeExpandLocalObjectId
            (Example.ctx_call JSUndefined []) "dev" Example.engine0)
     = "dev".
Proof.
  assert (Hok : cache_ok (filenameMd5s Example.engine0)) by exact cache_ok_empty.
  split; [exact Hok|].
  destruct (local_object_id_is_folded_md5 Example.DefineVirtualDevice_error
              (Example.ctx_call Example.module_object []) "dev" Example.engine0 Hok)
    as (Hmodule & _).
  destruct (local_object_id_is_folded_md5 Example.DefineVirtualDevice_error
              (Example.ctx_call JSUndefined []) "dev" Example.engine0 Hok)
    as (_ & Htop & _).
  split.
  - destruct (Hmodule _ _ eq_refl eq_refl) as (cache' & Heq & _).
    rewrite Heq. vm_compute. reflexivity.
  - rewrite (Htop eq_refl). reflexivity.
Defined.

(** C8 as amended, on a ticker asked for every half millisecond and on
    one asked for every 5 milliseconds. *)
Lemma timer_interval_witness :
  throws (fst (ex_esWbStartTimer
                 (Example.ctx_call JSUndefined
                    [JSString "tick"; JSNumber Example.half; JSBoolean true])
                 Example.engine0)) = false
  /\ SFltb Example.half (float64_of_Z 1) = true
  /\ started_intervals
       (calls (snd (ex_esWbStartTimer
                      (Example.ctx_call JSUndefined
                         [JSString "tick"; JSNumber Example.half; JSBoolean true])
                      Example.engine0)))
     = [Millisecond]
  /\ SFleb (float64_of_Z 1) Example.five = true
  /\ interval_ns Example.five = Some (5 * Millisecond)
  /\ fits_Duration (5 * Millisecond)
  /\ started_intervals
       (calls (snd (ex_esWbStartTimer
                      (Example.ctx_call JSUndefined
                         [JSString "tick"; JSNumber Example.five; JSBoolean true])
                      Example.engine0)))
     = [5 * Millisecond].
Proof.
  assert (Hfits : fits_Duration (5 * Millisecond)) by (vm_compute; split; discriminate).
  split; [vm_compute; reflexivity|]. split; [vm_compute; reflexivity|].
  destruct (timer_interval_is_clamped Example.unrepresentable Example.NO_TIMER_NAME
              (Example.ctx_call JSUndefined
                 [JSString "tick"; JSNumber Example.half; JSBoolean true])
              Example.engine0 _ _ (surjective_pairing _) eq_refl)
    as (new & Hcalls & Hlt & _).
  destruct (timer_interval_is_clamped Example.unrepresentable Example.NO_TIMER_NAME
              (Example.ctx_call JSUndefined
                 [JSString "tick"; JSNumber Example.five; JSBoolean true])
              Example.engine0 _ _ (surjective_pairing _) eq_refl)
    as (new5 & Hcalls5 & _ & Hge).
  split; [rewrite Hcalls; apply Hlt; vm_compute; reflexivity|].
  split; [vm_compute; reflexivity|]. split; [vm_compute; reflexivity|].
  split; [exact Hfits|].
  rewrite Hcalls5. apply Hge; [vm_compute; reflexivity|vm_compute; reflexivity|exact Hfits].
Defined.

(** C8 as stated fails on a timer asked for every 10^13 milliseconds.
    The request is for at least 1 millisecond, but its 10^19 nanoseconds
    are beyond the range of [time.Duration]: the timer is started with
    what the platform makes of the conversion, here the least [int64],
    and on no platform with the requested interval. *)
Lemma timer_interval_out_of_range_counterexample :
  SFleb (float64_of_Z 1) (float64_of_Z (10 ^ 13)) = true
  /\ interval_ns (float64_of_Z (10 ^ 13)) = Some (10 ^ 19)
  /\ ~ fits_Duration (10 ^ 19)
  /\ throws (fst (ex_esWbStartTimer
                    (Example.ctx_call JSUndefined
                       [JSString "tick"; JSNumber (float64_of_Z (10 ^ 13));
                        JSBoolean true])
                    Example.engine0)) = false
  /\ started_intervals
       (calls (snd (ex_esWbStartTimer
                      (Example.ctx_call JSUndefined
                         [JSString "tick"; JSNumber (float64_of_Z (10 ^ 13));
                          JSBoolean true])
                      Example.engine0)))
     = [- 2 ^ 63]
  /\ (forall platform : float64 -> Z,
         (forall x, fits_Duration (platform x)) ->
         started_intervals
           (calls (snd (esWbStartTimer platform Example.NO_TIMER_NAME
                          (Example.ctx_call JSUndefined
                             [JSString "tick"; JSNumber (float64_of_Z (10 ^ 13));
                              JSBoolean true])
                          Example.engine0)))
         <> [10 ^ 19]).
Proof.
  split; [vm_compute; reflexivity|]. split; [vm_compute; reflexivity|].
  split; [intros [_ Hhi]; vm_compute in Hhi; apply Hhi; reflexivity|].
  split; [vm_compute; reflexivity|]. split; [vm_compute; reflexivity|].
  intros platform Hfits Heq. vm_compute in Heq.
  match type of Heq with
  | [platform ?x] = _ => destruct (Hfits x) as [_ Hhi]
  end.
  injection Heq as Heq. rewrite Heq in Hhi.
  vm_compute in Hhi. apply Hhi. reflexivity.
Qed.

(** C9, on the ids 0 and 5. *)
Lemma stop_timer_witness :
  Example.TimerId_min <= 0 <= Example.TimerId_max
  /\ ex_esWbStopTimer (Example.ctx_call JSUndefined [JSNumber (S754_zero false)])
       Example.engine0
     = (Ret0, call (wbgo_Error "timer id cannot be zero") Example.engine0)
  /\ ex_esWbStopTimer (Example.ctx_call JSUndefined [JSNumber Example.five])
       Example.engine0
     = (Ret0, call (StopTimerByIndex 5) Example.engine0).
Proof.
  assert (Hz : Example.TimerId_min <= 0 <= Example.TimerId_max)
    by (vm_compute; split; discriminate).
  split; [exact Hz|]. split.
  - destruct (stop_timer_zero_is_logged_noop Example.unrepresentable
                Example.TimerId_min Example.TimerId_max Hz
                (Example.ctx_call JSUndefined [JSNumber (S754_zero false)])
                (S754_zero false) Example.engine0 eq_refl)
      as (Hzero & Hnoop & _).
    exact (proj1 (Hnoop (Hzero false))).
  - destruct (stop_timer_zero_is_logged_noop Example.unrepresentable
                Example.TimerId_min Example.TimerId_max Hz
                (Example.ctx_call JSUndefined [JSNumber Example.five])
                Example.five Example.engine0 eq_refl)
      as (_ & _ & Hforward).
    assert (Hid : ex_TimerId Example.five = 5) by (vm_compute; reflexivity).
    rewrite Hid in Hforward. apply Hforward. discriminate.
Defined.

(** C7, on a definition whose [whenChanged] names no control, and on a
    proper one. *)
Lemma defineRule_invalid_witness :
  shape_anonymous
    (Example.ctx_call JSUndefined
       [JSString "bad";
        JSObject [("whenChanged", JSString "nodevice"); ("then", JSFunction 1)]])
  || shape_named
       (Example.ctx_call JSUndefined
          [JSString "bad";
           JSObject [("whenChanged", JSString "nodevice"); ("then", JSFunction 1)]])
  = true
  /\ throws (fst (ex_esWbDefineRule
                    (Example.ctx_call JSUndefined
                       [JSString "bad";
                        JSObject [("whenChanged", JSString "nodevice");
                                  ("then", JSFunction 1)]])
                    Example.engine0)) = true
  /\ throws (fst (ex_esWbDefineRule
                    (Example.ctx_call JSUndefined
                       [JSString "echo"; Example.rule_definition])
                    Example.engine0)) = false.
Proof.
  split; [reflexivity|]. split.
  - destruct (defineRule_throws_iff_invalid Example.SafeToString_coerce
                (Example.ctx_call JSUndefined
                   [JSString "bad";
                    JSObject [("whenChanged", JSString "nodevice");
                              ("then", JSFunction 1)]])
                Example.engine0 eq_refl) as (Hiff & _).
    apply Hiff. reflexivity.
  - destruct (defineRule_throws_iff_invalid Example.SafeToString_coerce
                (Example.ctx_call JSUndefined
                   [JSString "echo"; Example.rule_definition])
                Example.engine0 eq_refl) as (Hiff & _).
    apply not_true_is_false. intros Hthrows.
    apply (proj1 Hiff) in Hthrows. vm_compute in Hthrows. discriminate Hthrows.
Defined.


(** C5, on the cell [wb-w1/t]. *)
Lemma whenChanged_singleton_witness :
  (IsString (JSString "wb-w1/t") = true \/ IsFunction (JSString "wb-w1/t") = true)
  /\ match ex_buildRule "r"
             (JSObject [("whenChanged", JSArray [JSString "wb-w1/t"]);
                        ("then", JSFunction 1)]) Example.engine0,
           ex_buildRule "r" Example.rule_definition Example.engine0 with
     | (inl r1, _), (inl r2, _) =>
         rule_cond r1 = OrRuleCondition [rule_cond r2]
         /\ forall envs, scans (rule_cond r1) envs = scans (rule_cond r2) envs
     | _, _ => False
     end.
Proof.
  split; [left; reflexivity|].
  assert (Hrest : forall key, key <> "whenChanged" ->
            assoc_lookup key [("whenChanged", JSArray [JSString "wb-w1/t"]);
                              ("then", JSFunction 1)]
            = assoc_lookup key [("whenChanged", JSString "wb-w1/t");
                                ("then", JSFunction 1)]).
  { intros key Hne. cbn [assoc_lookup].
    destruct (String.eqb_spec "whenChanged" key); [congruence|reflexivity]. }
  pose proof (whenChanged_singleton_array_equiv Example.SafeToString_coerce
                (JSString "wb-w1/t")
                [("whenChanged", JSArray [JSString "wb-w1/t"]); ("then", JSFunction 1)]
                [("whenChanged", JSString "wb-w1/t"); ("then", JSFunction 1)]
                "r" Example.engine0 (or_introl eq_refl) eq_refl eq_refl Hrest) as H.
  unfold Example.rule_definition.
  assert (H1 : ex_buildRule "r"
                 (JSObject [("whenChanged", JSArray [JSString "wb-w1/t"]);
                            ("then", JSFunction 1)]) Example.engine0
               = (inl (NewRule 1 "r"
                         (OrRuleCondition
                            [CellChangedRuleCondition
                               {| DevName := "wb-w1"; ControlName := "t" |} None])
                         (JSFunction 1)),
                  set_nextRuleId 2 Example.engine0))
    by (vm_compute; reflexivity).
  assert (H2 : ex_buildRule "r"
                 (JSObject [("whenChanged", JSString "wb-w1/t");
                            ("then", JSFunction 1)]) Example.engine0
               = (inl (NewRule 1 "r"
                         (CellChangedRuleCondition
                            {| DevName := "wb-w1"; ControlName := "t" |} None)
                         (JSFunction 1)),
                  set_nextRuleId 2 Example.engine0))
    by (vm_compute; reflexivity).
  rewrite H1, H2 in H. rewrite H1, H2.
  split; [reflexivity|]. apply H.
Defined.

(** C6 as amended, on the key [k] of the bucket [b]. *)
Lemma persistent_roundtrip_witness :
  persistentDB Example.engine0 = Some ∅
  /\ Example.JsonDecode (Example.JsonEncode (JSBoolean true)) = Some (JSBoolean true)
  /\ fst (ex_esPersistentGet
            (Example.ctx_call JSUndefined [JSString "b"; JSString "k"])
            (snd (ex_esPersistentSet
                    (Example.ctx_call JSUndefined
                       [JSString "b"; JSString "k"; JSBoolean true])
                    Example.engine0)))
     = Ret1 (JSBoolean true)
  /\ ex_esPersistentGet
       (Example.ctx_call JSUndefined [JSString "b"; JSString "k"]) Example.engine0
     = (Ret1 JSUndefined, Example.engine0).
Proof.
  split; [reflexivity|]. split; [reflexivity|].
  destruct (persistent_set_get_roundtrip Example.JsonEncode Example.JsonDecode
              (Example.ctx_call JSUndefined [JSString "b"; JSString "k"; JSBoolean true])
              (Example.ctx_call JSUndefined [JSString "b"; JSString "k"])
              "b" "k" (JSBoolean true) ∅ Example.engine0 eq_refl eq_refl eq_refl)
    as (Hround & Hnone & _).
  split.
  - apply Hround; try discriminate; try reflexivity; vm_compute; discriminate.
  - apply Hnone. apply lookup_empty.
Defined.

(** C6 as stated fails on the blank key: the value survives the JSON
    round trip, the write returns normally, and the read that follows
    returns [undefined]. *)
Lemma persistent_blank_key_counterexample :
  Example.JsonDecode (Example.JsonEncode (JSBoolean true)) = Some (JSBoolean true)
  /\ fst (ex_esPersistentSet
            (Example.ctx_call JSUndefined [JSString "b"; JSString ""; JSBoolean true])
            Example.engine0) = Ret0
  /\ fst (ex_esPersistentGet
            (Example.ctx_call JSUndefined [JSString "b"; JSString ""])
            (snd (ex_esPersistentSet
                    (Example.ctx_call JSUndefined
                       [JSString "b"; JSString ""; JSBoolean true])
                    Example.engine0)))
     = Ret1 JSUndefined
  /\ Ret1 JSUndefined <> Ret1 (JSBoolean true).
Proof.
  split; [reflexivity|].
  rewrite (esPersistentSet_blank_key Example.JsonEncode
             (Example.ctx_call JSUndefined [JSString "b"; JSString ""; JSBoolean true])
             "b" (JSBoolean true) ∅ Example.engine0 eq_refl eq_refl).
  cbn [fst snd]. split; [reflexivity|]. split; [|discriminate].
  rewrite (esPersistentGet_reads Example.JsonDecode
             (Example.ctx_call JSUndefined [JSString "b"; JSString ""])
             "b" "" ∅ (set_persistentDB (Some ∅) Example.engine0) eq_refl eq_refl).
  rewrite lookup_empty. reflexivity.
Qed.

(** C3, on the module [multi_init], found in the second directory, and
    on a module found in none. *)
Lemma require_probes_witness :
  (7 < nextRef Example.engine0)%nat
  /\ fst (ModSearch (JSString "multi_init") 7 Example.engine0)
     = (Ret1 (JSString "exports.n = 42"),
        ["/m1/multi_init.js"; "/m2/multi_init.js"])
  /\ heap_prop 7 MODULE_FILENAME_PROP
       (snd (ModSearch (JSString "multi_init") 7 Example.engine0))
     = Some (HString "/m2/multi_init.js")
  /\ fst (ModSearch (JSString "missing") 7 Example.engine0)
     = (DUK_RET_ERROR, ["/m1/missing.js"; "/m2/missing.js"]).
Proof.
  assert (Hlt : (7 < nextRef Example.engine0)%nat) by (vm_compute; lia).
  split; [exact Hlt|].
  destruct (require_probes_dirs_in_order "multi_init" 7 Example.engine0 Hlt)
    as (Hfound & _).
  destruct (require_probes_dirs_in_order "missing" 7 Example.engine0 Hlt)
    as (_ & Hmissing).
  destruct (Hfound ["/m1"] "/m2" [] "exports.n = 42" eq_refl) as (Heq & Hfile).
  { repeat constructor. }
  { vm_compute. reflexivity. }
  destruct Hmissing as (Heq' & _).
  { repeat constructor. }
  rewrite Heq, Heq'. cbn [fst snd]. split; [reflexivity|].
  split; [exact Hfile|reflexivity].
Defined.

(** C2, on two requires of [multi_init] with a failed require between. *)
Lemma require_shares_witness :
  resolve (modulesDirs Example.engine0) "multi_init" Example.engine0
  = Some "/m2/multi_init.js"
  /\ heap_prop 7 MODULE_STORAGE_PROP
       (snd (ModSearch (JSString "multi_init") 7 Example.engine0))
     = Some (HObject 9)
  /\ heap_prop 8 MODULE_STORAGE_PROP
       (snd (ModSearch (JSString "multi_init") 8
               (snd (ModSearch (JSString "missing") 8
                       (snd (ModSearch (JSString "multi_init") 7 Example.engine0))))))
     = Some (HObject 9).
Proof.
  assert (Hres : resolve (modulesDirs Example.engine0) "multi_init" Example.engine0
                 = Some "/m2/multi_init.js") by (vm_compute; reflexivity).
  split; [exact Hres|].
  destruct (require_shares_module_storage Example.unrepresentable
              Example.TimerId_min Example.TimerId_max Example.NO_TIMER_NAME Example.SafeToString_coerce
              Example.DefineVirtualDevice_error Example.JsonEncode Example.JsonDecode
              Example.filepath_Abs Example.filepath_Clean Example.filepath_Rel
              Example.filepath_Join Example.filepath_Dir Example.IsSubpath
              Example.MkdirAll_error Example.WriteFile_error Example.content_hash
              Example.interpret Example.esInitEnv_fails
              Example.engine0
              (snd (ModSearch (JSString "missing") 8
                      (snd (ModSearch (JSString "multi_init") 7 Example.engine0))))
              (JSString "multi_init") (JSString "multi_init") 7%nat 8%nat
              "/m2/multi_init.js" Hres)
    as (storage & H1 & H2 & _ & Hfresh).
  - apply rtc_once. apply step_require.
  - vm_compute. reflexivity.
  - assert (Hnone : esModules Example.engine0 !! "/m2/multi_init.js" = None)
      by apply lookup_empty.
    rewrite Hnone in Hfresh. subst storage. split; [exact H1|exact H2].
Defined.

(** X25, on the script [a.js] written through the editor and then seen by
    the directory watcher: one evaluation, and the second load leaves the
    engine as it is. *)
Lemma live_write_then_load_witness :
  match ex_LiveWriteScript "a.js" "defineRule(...)" Example.engine0 with
  | Some (_, e1) =>
      loads e1 = 1%nat
      /\ tracker e1 !! "a.js" = Some (Example.content_hash "defineRule(...)")
      /\ ex_LiveLoadFile "/rules/a.js" e1 = Some (None, e1)
  | None => False
  end.
Proof.
  pose proof (proj2 (unchanged_script_is_not_reloaded Example.unrepresentable
              Example.TimerId_min Example.TimerId_max Example.NO_TIMER_NAME Example.SafeToString_coerce
              Example.DefineVirtualDevice_error Example.JsonEncode Example.JsonDecode
              Example.filepath_Abs Example.filepath_Clean Example.filepath_Rel
              Example.filepath_Join Example.filepath_Dir Example.IsSubpath
              Example.MkdirAll_error Example.WriteFile_error Example.content_hash
              Example.interpret Example.esInitEnv_fails)
              "a.js" "defineRule(...)" Example.engine0) as Hload.
  destruct (ex_LiveWriteScript "a.js" "defineRule(...)" Example.engine0)
    as [[err e1]|] eqn:Hwrite.
  - destruct (Hload err e1 eq_refl) as (_ & Hskip & _).
    vm_compute in Hwrite. injection Hwrite as <- <-.
    split; [vm_compute; reflexivity|]. split; [vm_compute; reflexivity|].
    apply Hskip. vm_compute. reflexivity.
  - vm_compute in Hwrite. discriminate Hwrite.
Defined.

(** The concrete host with the scripts [a.js] and [b.js] in a directory
    outside the source root. *)
Abbreviation ex_engine_x :=
  (set_fs (<[ "/x/a.js" := "var a" ]> (<[ "/x/b.js" := "var b" ]> (fs Example.engine0)))
     Example.engine0).

(** C4 fails on the scripts outside the source root. [a.js] and [b.js]
    are loaded one after the other, as at the start of the program;
    then [LiveLoadFile] of [a.js], whose content is what it was at its
    load, runs the cleanups of the script and evaluates it again. The
    tracker keeps the hash of every script outside the source root
    under the one key of the empty virtual path, where the load of
    [b.js] has replaced the hash recorded for [a.js]. *)
Lemma outside_root_script_is_reloaded :
  match ex_LoadFile "/x/a.js" ex_engine_x with
  | Some (None, e1) =>
      match ex_LoadFile "/x/b.js" e1 with
      | Some (None, e2) =>
          match ex_LiveLoadFile "/x/a.js" e2 with
          | Some (None, e3) =>
              ex_checkSourcePath "/x/a.js" e2 = ("/x/a.js", "", false, None)
              /\ ex_checkSourcePath "/x/b.js" e1 = ("/x/b.js", "", false, None)
              /\ tracker e1 !! "" = Some (Example.content_hash "var a")
              /\ tracker e2 !! "" = Some (Example.content_hash "var b")
              /\ fs e2 !! "/x/a.js" = Some "var a"
              /\ loads e1 = 1%nat /\ loads e2 = 2%nat /\ loads e3 = 3%nat
              /\ In (RunCleanups "/x/a.js") (new_calls e2 e3)
              /\ In (LoadScenario 11 "/x/a.js") (new_calls e2 e3)
          | _ => False
          end
      | _ => False
      end
  | _ => False
  end.
Proof.
  vm_compute.
  repeat split; repeat (first [left; reflexivity | right]).
Qed.


(** * The further properties on the concrete host *)

Abbreviation ex_esDefineVirtualDevice :=
  (esDefineVirtualDevice Example.DefineVirtualDevice_error).
Abbreviation ex_loadScript :=
  (loadScript Example.unrepresentable Example.TimerId_min Example.TimerId_max
     Example.NO_TIMER_NAME Example.SafeToString_coerce Example.DefineVirtualDevice_error Example.JsonEncode
     Example.JsonDecode Example.filepath_Abs Example.filepath_Clean
     Example.filepath_Rel Example.IsSubpath Example.content_hash
     Example.interpret Example.esInitEnv_fails).
Abbreviation ex_LiveRemoveFile :=
  (LiveRemoveFile Example.filepath_Abs Example.filepath_Clean
     Example.filepath_Rel Example.IsSubpath).

(** The concrete host with the script [a.js] in the source directory. *)
Abbreviation ex_engine1 :=
  (set_fs (<[ "/rules/a.js" := "defineRule(...)" ]> (fs Example.engine0))
     Example.engine0).

(** X1, on the module file of the concrete host. *)
Lemma filename_hash_witness :
  cache_ok (filenameMd5s Example.engine0)
  /\ String.length
       (fst (getFilenameHash (filenameMd5s Example.engine0) "/m2/multi_init.js")) = 6%nat
  /\ cut_slash
       (fst (getFilenameHash (filenameMd5s Example.engine0) "/m2/multi_init.js")) = None.
Proof.
  split; [exact cache_ok_empty|].
  pose proof (filename_hash_shape (filenameMd5s Example.engine0) "/m2/multi_init.js"
                cache_ok_empty) as H.
  cbv zeta in H. destruct H as (Hlen & _ & Hcut).
  split; [exact Hlen|exact Hcut].
Defined.

(** X2, on the names [dev] and [dev2] of the module file, with an empty
    cache and with the cache of an earlier call. *)
Lemma local_object_id_injective_witness :
  cache_ok (<[ "/m2/multi_init.js" := path_hash "/m2/multi_init.js" ]> ∅)
  /\ fst (localObjectId ∅ "/m2/multi_init.js" "dev") = "_iBaGSAdev"
  /\ fst (localObjectId ∅ "/m2/multi_init.js" "dev")
     <> fst (localObjectId
               (<[ "/m2/multi_init.js" := path_hash "/m2/multi_init.js" ]> ∅)
               "/m2/multi_init.js" "dev2").
Proof.
  assert (Hok : cache_ok (<[ "/m2/multi_init.js" := path_hash "/m2/multi_init.js" ]> ∅))
    by exact (cache_ok_insert ∅ "/m2/multi_init.js" cache_ok_empty).
  split; [exact Hok|]. split; [vm_compute; reflexivity|].
  intros Heq.
  pose proof (local_object_id_injective ∅ _ "/m2/multi_init.js" "dev" "dev2"
                cache_ok_empty Hok Heq) as Hnames.
  discriminate Hnames.
Defined.

(** X3, on the device [dev] of the module file. *)
Lemma virtualDeviceId_witness :
  exists obj e',
    ex_esDefineVirtualDevice
      (Example.ctx_call Example.module_object [JSString "dev"; JSObject []])
      Example.engine0 = Some (Ret1 obj, e')
    /\ fst (esVirtualDeviceId
              (Example.ctx_call Example.module_object [JSString "dev"])
              Example.engine0) = Ret1 (JSString "_iBaGSAdev")
    /\ In (DefineVirtualDevice "_iBaGSAdev" (JSObject [])) (calls e')
    /\ esVdevGetCellId (Example.ctx_call obj [JSString "t"])
       = Ret1 (JSString "_iBaGSAdev/t").
Proof.
  destruct (ex_esDefineVirtualDevice
              (Example.ctx_call Example.module_object [JSString "dev"; JSObject []])
              Example.engine0) as [[r e']|] eqn:Hdef;
    [|vm_compute in Hdef; discriminate Hdef].
  destruct r as [|obj| | | |]; try (vm_compute in Hdef; discriminate Hdef).
  exists obj, e'. split; [reflexivity|].
  destruct (virtualDeviceId_names_the_device Example.DefineVirtualDevice_error
              (Example.ctx_call Example.module_object [JSString "dev"])
              (Example.ctx_call Example.module_object [JSString "dev"; JSObject []])
              "dev" (JSObject []) obj Example.engine0 Example.engine0 e'
              cache_ok_empty cache_ok_empty eq_refl eq_refl eq_refl Hdef)
    as (id & Hid & Hcall & _ & Hmethods).
  assert (Hval : fst (esVirtualDeviceId
                        (Example.ctx_call Example.module_object [JSString "dev"])
                        Example.engine0) = Ret1 (JSString "_iBaGSAdev"))
    by (vm_compute; reflexivity).
  rewrite Hval in Hid. injection Hid as <-.
  split; [reflexivity|]. split; [exact Hcall|].
  destruct (Hmethods ltac:(discriminate) (Example.ctx_call obj [JSString "t"]) eq_refl)
    as (_ & Hcell).
  exact (Hcell "t" eq_refl).
Defined.

(** X6, on an array of a cell and a function. *)
Lemma whenChanged_array_witness :
  GetPropString
    (JSObject [("whenChanged", JSArray [JSString "wb-w1/t"; JSFunction 2])])
    "whenChanged" = JSArray [JSString "wb-w1/t"; JSFunction 2]
  /\ Forall whenChanged_item_ok [JSString "wb-w1/t"; JSFunction 2]
  /\ buildWhenChangedRuleCondition
       (JSObject [("whenChanged", JSArray [JSString "wb-w1/t"; JSFunction 2])])
     = inl (NewOrRuleCondition
              [CellChangedRuleCondition
                 {| DevName := "wb-w1"; ControlName := "t" |} None;
               NewFuncValueChangedRuleCondition (JSFunction 2)])
  /\ buildWhenChangedRuleCondition
       (JSObject [("whenChanged", JSArray [JSString "wb-w1/t"; JSNull; JSFunction 2])])
     = inr "whenChanged: array expected".
Proof.
  assert (Hok : Forall whenChanged_item_ok [JSString "wb-w1/t"; JSFunction 2]).
  { constructor; [eexists; vm_compute; reflexivity|].
    constructor; [eexists; vm_compute; reflexivity|]. constructor. }
  split; [reflexivity|]. split; [exact Hok|].
  destruct (whenChanged_array_is_read_in_order
              (JSObject [("whenChanged", JSArray [JSString "wb-w1/t"; JSFunction 2])])
              [JSString "wb-w1/t"; JSFunction 2] eq_refl) as (Hall & _ & _).
  destruct (whenChanged_array_is_read_in_order
              (JSObject [("whenChanged",
                          JSArray [JSString "wb-w1/t"; JSNull; JSFunction 2])])
              [JSString "wb-w1/t"; JSNull; JSFunction 2] eq_refl) as (_ & Hbad & _).
  split.
  - destruct (Hall Hok) as (conds & Heq & _). rewrite Heq.
    vm_compute in Heq. injection Heq as <-. reflexivity.
  - apply (Hbad [JSString "wb-w1/t"] JSNull [JSFunction 2]); [reflexivity| |reflexivity].
    constructor; [eexists; vm_compute; reflexivity|constructor].
Defined.

(** X11, on the key [k] of the bucket [b], and on a blank key. *)
Lemma persistent_set_witness :
  persistentDB Example.engine0 = Some ∅
  /\ bolt_accepts "b" "k" (Example.JsonEncode (JSBoolean true)) = true
  /\ stored
       (persistentDB
          (snd (ex_esPersistentSet
                  (Example.ctx_call JSUndefined
                     [JSString "b"; JSString "k"; JSBoolean true])
                  Example.engine0))) "b" "k" = Some "true"
  /\ persistentDB
       (snd (ex_esPersistentSet
               (Example.ctx_call JSUndefined
                  [JSString "b"; JSString ""; JSBoolean true])
               Example.engine0)) = Some ∅.
Proof.
  split; [reflexivity|]. split; [vm_compute; reflexivity|].
  pose proof (persistent_set_is_silent_and_atomic Example.JsonEncode
                (Example.ctx_call JSUndefined
                   [JSString "b"; JSString "k"; JSBoolean true])
                "b" "k" (JSBoolean true) ∅ Example.engine0 eq_refl eq_refl) as H1.
  pose proof (persistent_set_is_silent_and_atomic Example.JsonEncode
                (Example.ctx_call JSUndefined
                   [JSString "b"; JSString ""; JSBoolean true])
                "b" "" (JSBoolean true) ∅ Example.engine0 eq_refl eq_refl) as H2.
  cbv zeta in H1, H2.
  destruct H1 as (_ & _ & Hstored & _). destruct H2 as (_ & _ & _ & Hkept).
  split; [apply Hstored|apply Hkept]; vm_compute; reflexivity.
Defined.

(** X12, on a write to the key [k] and a read of the key [k2]. *)
Lemma persistent_other_key_witness :
  persistentDB Example.engine0 = Some ∅
  /\ ("b", "k2") <> ("b", "k")
  /\ fst (ex_esPersistentGet
            (Example.ctx_call JSUndefined [JSString "b"; JSString "k2"])
            (snd (ex_esPersistentSet
                    (Example.ctx_call JSUndefined
                       [JSString "b"; JSString "k"; JSBoolean true])
                    Example.engine0)))
     = fst (ex_esPersistentGet
              (Example.ctx_call JSUndefined [JSString "b"; JSString "k2"])
              Example.engine0).
Proof.
  split; [reflexivity|]. split; [discriminate|].
  destruct (persistent_set_touches_one_key Example.JsonEncode Example.JsonDecode
              (Example.ctx_call JSUndefined [JSString "b"; JSString "k"; JSBoolean true])
              (Example.ctx_call JSUndefined [JSString "b"; JSString "k2"])
              "b" "k" "b" "k2" (JSBoolean true) ∅ Example.engine0
              eq_refl eq_refl eq_refl) as (Hother & _).
  apply Hother. discriminate.
Defined.

(** X15, on the script [a.js]. *)
Lemma live_write_path_witness :
  match ex_LiveWriteScript "a.js" "defineRule(...)" Example.engine0 with
  | Some (_, e1) =>
      Example.IsSubpath (sourceRoot Example.engine0) "/rules/a.js" = true
      /\ fs e1 = <[ "/rules/a.js" := "defineRule(...)" ]> (fs Example.engine0)
  | None => False
  end.
Proof.
  pose proof (LiveWriteScript_stays_under_the_source_root Example.unrepresentable
              Example.TimerId_min Example.TimerId_max Example.NO_TIMER_NAME Example.SafeToString_coerce
              Example.DefineVirtualDevice_error Example.JsonEncode Example.JsonDecode
              Example.filepath_Abs Example.filepath_Clean Example.filepath_Rel
              Example.filepath_Join Example.filepath_Dir Example.IsSubpath
              Example.MkdirAll_error Example.WriteFile_error Example.content_hash
              Example.interpret Example.esInitEnv_fails) as Hwrite.
  destruct (ex_LiveWriteScript "a.js" "defineRule(...)" Example.engine0)
    as [[err1 e1]|] eqn:H1; [|vm_compute in H1; discriminate H1].
  destruct (Hwrite _ _ _ _ _ H1) as ([Hsame|(cleanPath & Hclean & Hunder & Hfs)] & _).
  - vm_compute in H1. injection H1 as _ <-. vm_compute in Hsame. discriminate Hsame.
  - assert (Hpath : cleanPath = "/rules/a.js")
      by (rewrite Hclean; vm_compute; reflexivity).
    rewrite Hpath in Hunder, Hfs. split; [exact Hunder|exact Hfs].
Defined.


(** X19, on the script [a.js] loaded from the source directory. *)
Lemma loaded_script_witness :
  match ex_loadScript "/rules/a.js" true ex_engine1 with
  | Some (true, None, e') =>
      ex_checkSourcePath "/rules/a.js" ex_engine1
      = ("/rules/a.js", "a.js", true, None)
      /\ exists src,
           sources e' !! "a.js" = Some src
           /\ PhysicalPath src = "/rules/a.js"
           /\ Error src = None
           /\ cleanups e' !! "/rules/a.js" = Some [CleanupDeleteSource "a.js"]
  | _ => False
  end.
Proof.
  assert (Hcheck : ex_checkSourcePath "/rules/a.js" ex_engine1
                   = ("/rules/a.js", "a.js", true, None))
    by (vm_compute; reflexivity).
  destruct (ex_loadScript "/rules/a.js" true ex_engine1)
    as [[[[|] [err|]] e']|] eqn:Hload; try (vm_compute in Hload; discriminate Hload).
  split; [exact Hcheck|].
  destruct (loaded_script_is_listed Example.unrepresentable
              Example.TimerId_min Example.TimerId_max Example.NO_TIMER_NAME Example.SafeToString_coerce
              Example.DefineVirtualDevice_error Example.JsonEncode Example.JsonDecode
              Example.filepath_Abs Example.filepath_Clean Example.filepath_Rel
              Example.IsSubpath Example.content_hash Example.interpret
              Example.esInitEnv_fails _ _ _ _ _ _ _ Hload Hcheck)
    as (src & ctx & Hsrc & _ & Hp & Herr & _ & _ & _ & _ & Hcl).
  exists src. split; [exact Hsrc|]. split; [exact Hp|].
  split; [exact (Herr eq_refl)|exact Hcl].
Defined.

(** X20, on the script [a.js], loaded and then removed. *)
Lemma removed_script_witness :
  match ex_loadScript "/rules/a.js" true ex_engine1 with
  | Some (true, _, e') =>
      ex_checkSourcePath "/rules/a.js" ex_engine1
      = ("/rules/a.js", "a.js", true, None)
      /\ is_Some (sources e' !! "a.js")
      /\ sources (ex_LiveRemoveFile "/rules/a.js" e') !! "a.js" = None
      /\ In (StopTimerByIndex 1) (new_calls e' (ex_LiveRemoveFile "/rules/a.js" e'))
  | _ => False
  end.
Proof.
  assert (Hcheck : ex_checkSourcePath "/rules/a.js" ex_engine1
                   = ("/rules/a.js", "a.js", true, None))
    by (vm_compute; reflexivity).
  destruct (ex_loadScript "/rules/a.js" true ex_engine1)
    as [[[[|] err] e']|] eqn:Hload; try (vm_compute in Hload; discriminate Hload).
  split; [exact Hcheck|].
  pose proof (removed_script_is_unlisted Example.unrepresentable
              Example.TimerId_min Example.TimerId_max Example.NO_TIMER_NAME Example.SafeToString_coerce
              Example.DefineVirtualDevice_error Example.JsonEncode Example.JsonDecode
              Example.filepath_Abs Example.filepath_Clean Example.filepath_Rel
              Example.IsSubpath Example.content_hash Example.interpret
              Example.esInitEnv_fails _ _ _ _ _ _ _ Hload Hcheck) as H.
  cbv zeta in H. destruct H as (Hsources & _ & _ & _ & Hstops & _).
  vm_compute in Hload. injection Hload as _ <-.
  split; [vm_compute; eexists; reflexivity|]. split.
  - rewrite Hsources. apply lookup_delete_eq.
  - apply (Hstops 9%nat {[ 1 := true ]} 1); vm_compute; reflexivity.
Defined.

(** X21, on the concrete host after the script [a.js] is written through
    the editor. *)
Lemma source_map_witness :
  match ex_LiveWriteScript "a.js" "defineRule(...)" Example.engine0 with
  | Some (_, e1) =>
      currentSource Example.engine0 = None
      /\ sources_ok Example.engine0
      /\ sources_ok e1
      /\ map VirtualPath (ListSourceFiles e1) = ["a.js"]
  | None => False
  end.
Proof.
  assert (Hok : sources_ok Example.engine0).
  { intros k src Hk. change ((∅ : gmap string LocFileEntry) !! k = Some src) in Hk.
    rewrite lookup_empty in Hk. discriminate Hk. }
  destruct (ex_LiveWriteScript "a.js" "defineRule(...)" Example.engine0)
    as [[err e1]|] eqn:Hwrite; [|vm_compute in Hwrite; discriminate Hwrite].
  destruct (source_map_is_keyed_by_virtual_path Example.unrepresentable
              Example.TimerId_min Example.TimerId_max Example.NO_TIMER_NAME Example.SafeToString_coerce
              Example.DefineVirtualDevice_error Example.JsonEncode Example.JsonDecode
              Example.filepath_Abs Example.filepath_Clean Example.filepath_Rel
              Example.filepath_Join Example.filepath_Dir Example.IsSubpath
              Example.MkdirAll_error Example.WriteFile_error Example.content_hash
              Example.interpret Example.esInitEnv_fails
              Example.engine0 e1
              (rtc_once _ _ (step_write _ _ _ _ _ _ _ _ _ _ _ _ _ _ _ _ _ _
                               _ _ _ _ _ _ Hwrite))
              eq_refl Hok) as (_ & Hok1 & _).
  split; [reflexivity|]. split; [exact Hok|]. split; [exact Hok1|].
  vm_compute in Hwrite. injection Hwrite as _ <-. vm_compute. reflexivity.
Defined.

(** X22, on the concrete host after a require of [multi_init]. *)
Lemma module_storages_witness :
  esModules Example.engine0 = ∅
  /\ modules_ok Example.engine0
  /\ modules_ok (snd (ModSearch (JSString "multi_init") 7 Example.engine0))
  /\ esModules (snd (ModSearch (JSString "multi_init") 7 Example.engine0))
       !! "/m2/multi_init.js" = Some 9%nat.
Proof.
  destruct (module_storages_are_never_shared Example.unrepresentable
              Example.TimerId_min Example.TimerId_max Example.NO_TIMER_NAME Example.SafeToString_coerce
              Example.DefineVirtualDevice_error Example.JsonEncode Example.JsonDecode
              Example.filepath_Abs Example.filepath_Clean Example.filepath_Rel
              Example.filepath_Join Example.filepath_Dir Example.IsSubpath
              Example.MkdirAll_error Example.WriteFile_error Example.content_hash
              Example.interpret Example.esInitEnv_fails
              Example.engine0
              (snd (ModSearch (JSString "multi_init") 7 Example.engine0))
              (rtc_once _ _ (step_require _ _ _ _ _ _ _ _ _ _ _ _ _ _ _ _ _ _ _
                               (JSString "multi_init") 7%nat Example.engine0)))
    as (Hempty & Hkept).
  split; [reflexivity|]. split; [exact (Hempty eq_refl)|].
  split; [exact (Hkept (Hempty eq_refl))|]. vm_compute. reflexivity.
Defined.

(** X23, on the module file, loaded as a script from outside the source
    directory. *)
Lemma script_outside_witness :
  match ex_loadScript "/m2/multi_init.js" true Example.engine0 with
  | Some (true, _, e') =>
      ex_checkSourcePath "/m2/multi_init.js" Example.engine0
      = ("/m2/multi_init.js", "", false, None)
      /\ sources e' = ∅
      /\ localCtxs e' !! "/m2/multi_init.js" = Some 9%nat
  | _ => False
  end.
Proof.
  assert (Hcheck : ex_checkSourcePath "/m2/multi_init.js" Example.engine0
                   = ("/m2/multi_init.js", "", false, None))
    by (vm_compute; reflexivity).
  destruct (ex_loadScript "/m2/multi_init.js" true Example.engine0)
    as [[[[|] err] e']|] eqn:Hload; try (vm_compute in Hload; discriminate Hload).
  split; [exact Hcheck|].
  destruct (script_outside_the_root_is_not_listed Example.unrepresentable
              Example.TimerId_min Example.TimerId_max Example.NO_TIMER_NAME Example.SafeToString_coerce
              Example.DefineVirtualDevice_error Example.JsonEncode Example.JsonDecode
              Example.filepath_Abs Example.filepath_Clean Example.filepath_Rel
              Example.IsSubpath Example.content_hash Example.interpret
              Example.esInitEnv_fails _ _ _ _ _ _ _ Hload Hcheck)
    as (Hsources & _ & _ & Hctx & _).
  split; [|exact Hctx].
  apply map_eq. intros k. rewrite lookup_empty.
  destruct (sources e' !! k) as [src|] eqn:Hk; [|reflexivity].
  apply Hsources in Hk. change ((∅ : gmap string LocFileEntry) !! k = Some src) in Hk.
  rewrite lookup_empty in Hk. discriminate Hk.
Defined.

(** X24, on the script [a.js], written through the editor and then
    loaded again: the timer [tick] of the first load is stopped. *)
Lemma reload_witness :
  match ex_LiveWriteScript "a.js" "defineRule(...)" Example.engine0 with
  | Some (_, e1) =>
      match ex_loadScript "/rules/a.js" true e1 with
      | Some (true, _, e2) =>
          localCtxs e1 !! "/rules/a.js" = Some 9%nat
          /\ In (StopTimerByIndex 1) (new_calls e1 e2)
          /\ In (RunCleanups "/rules/a.js") (new_calls e1 e2)
          /\ localCtxs e2 !! "/rules/a.js" = Some 10%nat
      | _ => False
      end
  | None => False
  end.
Proof.
  destruct (ex_LiveWriteScript "a.js" "defineRule(...)" Example.engine0)
    as [[err1 e1]|] eqn:Hwrite; [|vm_compute in Hwrite; discriminate Hwrite].
  vm_compute in Hwrite. injection Hwrite as _ <-.
  match goal with
  | |- match ?l with _ => _ end =>
      destruct l as [[[[|] err] e2]|] eqn:Hload;
        try (vm_compute in Hload; discriminate Hload)
  end.
  match type of Hload with
  | loadScript _ _ _ _ _ _ _ _ _ _ _ _ _ _ _ _ _ ?e = _ =>
      destruct (reload_cleans_up_the_previous_load Example.unrepresentable
                  Example.TimerId_min Example.TimerId_max Example.NO_TIMER_NAME Example.SafeToString_coerce
                  Example.DefineVirtualDevice_error Example.JsonEncode
                  Example.JsonDecode Example.filepath_Abs Example.filepath_Clean
                  Example.filepath_Rel Example.IsSubpath Example.content_hash
                  Example.interpret Example.esInitEnv_fails
                  "/rules/a.js" true e e2 err "/rules/a.js" "a.js" true 9%nat 9%nat
                  Hload)
        as (Hstops & Hrun & Hctx & _);
        try (vm_compute; reflexivity)
  end.
  split; [vm_compute; reflexivity|].
  split; [apply (Hstops {[ 1 := true ]} 1); vm_compute; reflexivity|].
  split; [exact Hrun|exact Hctx].
Defined.
